(** * next-sitemap: the sitemap pipeline of [src/utils/sitemap.ts] and the
    [POST /api/urls] route, embedded as Rocq functions.

    JavaScript strings are modelled as Rocq strings holding their UTF-8
    bytes.  Promises are modelled by their outcome ([Result]): an [async]
    function that returns resolves to [Ok], one that throws rejects with
    [Throw].  [console.log] calls are dropped. *)

From Stdlib Require Import ZArith Lia Bool Ascii.
From stdpp Require Import gmap strings list fin_maps pretty.
From Equations Require Import Equations.

(** ** JavaScript values and outcomes *)

(** The values the code reads as scalars: what a field of a JSON body or an
    untyped call hands to it.  [JsNumber z] is the Number value for the
    integer [z], the double nearest to it; [JsObject] is a plain object with
    no member named [toString].  Arrays and objects with their members are
    values of [Json.value]. *)
Inductive JsValue :=
| JsUndefined
| JsNull
| JsBool (b : bool)
| JsNumber (z : Z)
| JsString (s : string)
| JsObject.

Record JsError := { err_name : string; err_message : string }.

Definition TypeError (msg : string) : JsError :=
  {| err_name := "TypeError"; err_message := msg |}.

(** [String(error)], that is [Error.prototype.toString]: the name alone
    when the message is empty, the message alone when the name is. *)
Definition String_of_error (e : JsError) : string :=
  match err_name e, err_message e with
  | EmptyString, message => message
  | name, EmptyString => name
  | name, message => name +:+ ": " +:+ message
  end.

Inductive Result (A : Type) :=
| Ok (a : A)
| Throw (e : JsError).
Arguments Ok {A} a.
Arguments Throw {A} e.

#[global] Instance Result_ret : MRet Result := fun A a => Ok a.
#[global] Instance Result_bind : MBind Result := fun A B k r =>
  match r with
  | Ok a => k a
  | Throw e => Throw e
  end.

(** [try { body } catch (e) { handler(e) }] *)
Definition try_catch {A} (body : Result A) (handler : JsError -> Result A) : Result A :=
  match body with
  | Ok a => Ok a
  | Throw e => handler e
  end.

(** ** String primitives *)

Module Js.

(** A double quote, for the CSS selectors that contain one. *)
Definition dq : ascii := ascii_of_nat 34.

(** [quoted s] is [s] with every single quote replaced by a double quote:
    the selectors of the source are written with it. *)
Fixpoint quoted (s : string) : string :=
  match s with
  | EmptyString => EmptyString
  | String c s' => String (if Ascii.eqb c "'" then dq else c) (quoted s')
  end.

Definition is_empty (s : string) : bool :=
  match s with EmptyString => true | _ => false end.

(** [s.startsWith(p)] *)
Definition startsWith (s p : string) : bool := String.prefix p s.

(** [s.includes(sub)] *)
Fixpoint includes (s sub : string) : bool :=
  startsWith s sub ||
  match s with
  | EmptyString => false
  | String _ s' => includes s' sub
  end.

Definition is_upper (c : ascii) : bool :=
  (65 <=? nat_of_ascii c)%nat && (nat_of_ascii c <=? 90)%nat.
Definition is_lower (c : ascii) : bool :=
  (97 <=? nat_of_ascii c)%nat && (nat_of_ascii c <=? 122)%nat.
Definition is_digit (c : ascii) : bool :=
  (48 <=? nat_of_ascii c)%nat && (nat_of_ascii c <=? 57)%nat.
Definition is_alpha (c : ascii) : bool := is_upper c || is_lower c.

Definition lower_char (c : ascii) : ascii :=
  if is_upper c then ascii_of_nat (nat_of_ascii c + 32) else c.
Definition upper_char (c : ascii) : ascii :=
  if is_lower c then ascii_of_nat (nat_of_ascii c - 32) else c.

Fixpoint map_chars (f : ascii -> ascii) (s : string) : string :=
  match s with
  | EmptyString => EmptyString
  | String c s' => String (f c) (map_chars f s')
  end.

Fixpoint all_chars (p : ascii -> bool) (s : string) : bool :=
  match s with
  | EmptyString => true
  | String c s' => p c && all_chars p s'
  end.

(** [s.toLowerCase()] on the ASCII letters; bytes of other characters are
    kept. *)
Definition toLowerCase : string -> string := map_chars lower_char.

(** The part of [s] before the first character satisfying [stop], and the
    rest from that character on. *)
Fixpoint span_until (stop : ascii -> bool) (s : string) : string * string :=
  match s with
  | EmptyString => (EmptyString, EmptyString)
  | String c s' =>
      if stop c then (EmptyString, s)
      else let '(a, b) := span_until stop s' in (String c a, b)
  end.

(** [s.split(sep)] for a one-character separator. *)
Fixpoint split (sep : ascii) (s : string) : list string :=
  match s with
  | EmptyString => [EmptyString]
  | String c s' =>
      match split sep s' with
      | [] => [EmptyString]
      | cur :: rest =>
          if Ascii.eqb c sep then EmptyString :: cur :: rest
          else String c cur :: rest
      end
  end.

(** [s.replace(/\/+$/, '')]: every trailing slash removed. *)
Fixpoint strip_trailing_slashes (s : string) : string :=
  match s with
  | EmptyString => EmptyString
  | String c s' =>
      match strip_trailing_slashes s' with
      | EmptyString => if Ascii.eqb c "/" then EmptyString else String c EmptyString
      | r => String c r
      end
  end.

(** [s.replace(/\/$/, '')]: one trailing slash removed. *)
Fixpoint strip_one_trailing_slash (s : string) : string :=
  match s with
  | EmptyString => EmptyString
  | String c EmptyString => if Ascii.eqb c "/" then EmptyString else s
  | String c s' => String c (strip_one_trailing_slash s')
  end.

(** JavaScript truthiness of a value that is a string, [null] or
    [undefined]: [a || b] and [!a]. *)
Definition truthy (a : option string) : bool :=
  match a with
  | Some s => negb (is_empty s)
  | None => false
  end.

Definition or_else (a b : option string) : option string :=
  if truthy a then a else b.

(** [values.filter(Boolean)] *)
Definition filter_Boolean (values : list (option string)) : list string :=
  omap (fun v => if truthy v then v else None) values.

(** [s.length], in UTF-16 code units: one for each character of the basic
    plane, two for each character beyond it (a four-byte sequence). *)
Definition code_units (c : ascii) : nat :=
  let n := nat_of_ascii c in
  if (n <? 128)%nat then 1
  else if (n <? 192)%nat then 0
  else if (n <? 240)%nat then 1
  else 2.

Fixpoint length (s : string) : nat :=
  match s with
  | EmptyString => 0
  | String c s' => code_units c + length s'
  end.

(** [s.substring(0, n)], cut at a character boundary. *)
Fixpoint substring0 (n : nat) (s : string) : string :=
  match s with
  | EmptyString => EmptyString
  | String c s' =>
      if (code_units c <=? n)%nat
      then String c (substring0 (n - code_units c) s')
      else EmptyString
  end.

(** The white space of the language in one byte: tab, line feed, vertical
    tab, form feed, carriage return and space. *)
Definition is_space (c : ascii) : bool :=
  let n := nat_of_ascii c in
  ((9 <=? n)%nat && (n <=? 13)%nat) || (n =? 32)%nat.

(** The white space in two bytes: U+00A0. *)
Definition is_space2 (c1 c2 : ascii) : bool :=
  (nat_of_ascii c1 =? 194)%nat && (nat_of_ascii c2 =? 160)%nat.

(** The white space in three bytes: U+1680, U+2000 to U+200A, U+2028,
    U+2029, U+202F, U+205F, U+3000 and U+FEFF. *)
Definition is_space3 (c1 c2 c3 : ascii) : bool :=
  let n1 := nat_of_ascii c1 in
  let n2 := nat_of_ascii c2 in
  let n3 := nat_of_ascii c3 in
  ((n1 =? 225)%nat && (n2 =? 154)%nat && (n3 =? 128)%nat)
  || ((n1 =? 226)%nat && (n2 =? 128)%nat
      && (((128 <=? n3)%nat && (n3 <=? 138)%nat)
          || (n3 =? 168)%nat || (n3 =? 169)%nat || (n3 =? 175)%nat))
  || ((n1 =? 226)%nat && (n2 =? 129)%nat && (n3 =? 159)%nat)
  || ((n1 =? 227)%nat && (n2 =? 128)%nat && (n3 =? 128)%nat)
  || ((n1 =? 239)%nat && (n2 =? 187)%nat && (n3 =? 191)%nat).

(** [s.trimStart()]: the white space and the line terminators of the
    language are dropped, whatever their length in bytes. *)
Fixpoint trim_start (s : string) : string :=
  match s with
  | EmptyString => EmptyString
  | String c1 s1 =>
      if is_space c1 then trim_start s1 else
        match s1 with
        | EmptyString => s
        | String c2 s2 =>
            if is_space2 c1 c2 then trim_start s2 else
              match s2 with
              | EmptyString => s
              | String c3 s3 => if is_space3 c1 c2 c3 then trim_start s3 else s
              end
        end
  end.

(** [s.trimEnd()]: what is left of [s] once its longest suffix of white
    space is cut. *)
Fixpoint trim_end (s : string) : string :=
  match s with
  | EmptyString => EmptyString
  | String c s' =>
      match trim_start s with
      | EmptyString => EmptyString
      | _ => String c (trim_end s')
      end
  end.

(** [s.trim()] *)
Definition trim (s : string) : string := trim_end (trim_start s).

(** [s.replace(/-/g, ' ')] *)
Definition dashes_to_spaces : string -> string :=
  map_chars (fun c => if Ascii.eqb c "-" then " "%char else c).

Definition is_word_char (c : ascii) : bool :=
  is_alpha c || is_digit c || Ascii.eqb c "_".

(** [s.replace(/\b\w/g, l => l.toUpperCase())]; [boundary] tells whether
    the previous character is not a word character. *)
Fixpoint capitalize_words (boundary : bool) (s : string) : string :=
  match s with
  | EmptyString => EmptyString
  | String c s' =>
      String (if boundary && is_word_char c then upper_char c else c)
             (capitalize_words (negb (is_word_char c)) s')
  end.

(** The slug-to-title conversion the source writes out four times. *)
Definition title_case (slug : string) : string :=
  capitalize_words true (dashes_to_spaces slug).

Definition hex_digit (n : nat) : ascii :=
  if (n <? 10)%nat then ascii_of_nat (48 + n) else ascii_of_nat (55 + n).

Definition is_uri_unreserved (c : ascii) : bool :=
  is_alpha c || is_digit c
  || existsb (Ascii.eqb c) (String.list_ascii_of_string "-_.!~*'()").

(** [encodeURIComponent(s)] *)
Fixpoint encodeURIComponent (s : string) : string :=
  match s with
  | EmptyString => EmptyString
  | String c s' =>
      if is_uri_unreserved c then String c (encodeURIComponent s')
      else String "%" (String (hex_digit (nat_of_ascii c / 16))
                        (String (hex_digit (nat_of_ascii c mod 16))
                           (encodeURIComponent s')))
  end.

(** *** Numbers *)

(** The Number value for an integer: the nearest double, ties going to the
    even significand.  [Some x] is the double whose value is the integer
    [x]; [None] is an infinity. *)
Definition Number_value (z : Z) : option Z :=
  let a := Z.abs z in
  let e := (Z.log2 a + 1 - 53)%Z in
  if (e <=? 0)%Z then Some z
  else
    let q := Z.shiftr a e in
    let r := (a - Z.shiftl q e)%Z in
    let half := Z.shiftl 1 (e - 1) in
    let q := if (half <? r)%Z || ((half =? r)%Z && Z.odd q) then (q + 1)%Z else q in
    let x := Z.shiftl q e in
    if (2 ^ 1024 <=? x)%Z then None else Some (Z.sgn z * x)%Z.

Definition rounds_to (x v : Z) : bool :=
  match Number_value v with
  | Some y => (y =? x)%Z
  | None => false
  end.

(** The integer with the fewest significant digits, from [k] digits on,
    that the double [x] is the Number value for; [d] is the number of
    digits of [x].  Of two such integers the one closer to [x] is taken,
    and the one with the even last digit when they are as close. *)
Fixpoint shortest (x d : Z) (fuel : nat) (k : Z) : Z :=
  match fuel with
  | O => x
  | S fuel =>
      let p := (10 ^ Z.max 0 (d - k))%Z in
      let lo := (x / p * p)%Z in
      let hi := (lo + p)%Z in
      match rounds_to x lo, rounds_to x hi with
      | true, true =>
          if (x - lo <? hi - x)%Z then lo
          else if (hi - x <? x - lo)%Z then hi
          else if Z.even (x / p) then lo else hi
      | true, false => lo
      | false, true => hi
      | false, false => shortest x d fuel (k + 1)%Z
      end
  end.

Fixpoint strip_zeros (digits : list ascii) : list ascii :=
  match digits with
  | "0"%char :: digits' => strip_zeros digits'
  | _ => digits
  end.

(** The digits of [v] without its trailing zeros. *)
Definition significant (v : Z) : string :=
  String.string_of_list_ascii
    (rev (strip_zeros (rev (String.list_ascii_of_string (pretty v))))).

(** [Number::toString] of a double that is a positive integer: its digits
    up to 2^53; beyond, the shortest digits that read back as the same
    double, followed by zeros below 10^21 and in exponent notation from
    there on. *)
Definition positive_toString (x : Z) : string :=
  if (x <=? 2 ^ 53)%Z then pretty x
  else
    let d := Z.of_nat (String.length (pretty x)) in
    let v := shortest x d 17 1 in
    let n := Z.of_nat (String.length (pretty v)) in
    if (n <=? 21)%Z then pretty v
    else
      match significant v with
      | String c EmptyString => String c ("e+" +:+ pretty (n - 1)%Z)
      | String c digits => String c ("." +:+ digits +:+ "e+" +:+ pretty (n - 1)%Z)
      | EmptyString => EmptyString
      end.

(** [String(x)] for the Number value [x] for the integer [z]. *)
Definition Number_toString (z : Z) : string :=
  match Number_value z with
  | None => if (z <? 0)%Z then "-Infinity" else "Infinity"
  | Some x =>
      if (x <? 0)%Z then "-" +:+ positive_toString (- x) else positive_toString x
  end.

(** *** [parseInt] *)

Definition digit_value (radix : Z) (c : ascii) : option Z :=
  let n := Z.of_nat (nat_of_ascii c) in
  let v := if is_digit c then Some (n - 48)%Z
           else if is_lower c then Some (n - 87)%Z
           else if is_upper c then Some (n - 55)%Z
           else None in
  match v with
  | Some d => if (d <? radix)%Z then Some d else None
  | None => None
  end.

(** The value of the longest run of digits at the start of [s], after the
    digits already read ([acc]); [None] when there is none. *)
Fixpoint digits_value (radix : Z) (acc : option Z) (s : string) : option Z :=
  match s with
  | EmptyString => acc
  | String c s' =>
      match digit_value radix c with
      | Some d => digits_value radix (Some (default 0%Z acc * radix + d)%Z) s'
      | None => acc
      end
  end.

(** [parseInt(s)] with no radix given; [None] is [NaN].  White space, a
    sign and a [0x] prefix are read as the language defines; the result is
    the exact integer. *)
Definition parseInt (s : string) : option Z :=
  let s := trim_start s in
  let '(sign, s) :=
    match s with
    | String "-" s' => ((-1)%Z, s')
    | String "+" s' => (1%Z, s')
    | _ => (1%Z, s)
    end in
  let '(radix, s) :=
    match s with
    | String "0" (String "x" s') => (16%Z, s')
    | String "0" (String "X" s') => (16%Z, s')
    | _ => (10%Z, s)
    end in
  (fun v => (sign * v)%Z) <$> digits_value radix None s.

(** A string starts with a numeral when, after its leading white space and
    one sign, it goes on with a decimal digit. *)
Definition starts_with_numeral (s : string) : bool :=
  let s := trim_start s in
  let s := match s with
           | String "-" s' => s'
           | String "+" s' => s'
           | _ => s
           end in
  match s with
  | String c _ => is_digit c
  | EmptyString => false
  end.

(** *** The regular expressions of the source *)

(** The first place where the characters of [s] satisfy the classes of
    [pattern] one by one: the text matched there. *)
Fixpoint match_here (pattern : list (ascii -> bool)) (s : string) : option string :=
  match pattern with
  | [] => Some EmptyString
  | p :: pattern' =>
      match s with
      | String c s' =>
          if p c then String c <$> match_here pattern' s' else None
      | EmptyString => None
      end
  end.

Fixpoint match_first (pattern : list (ascii -> bool)) (s : string) : option string :=
  match match_here pattern s with
  | Some m => Some m
  | None =>
      match s with
      | String _ s' => match_first pattern s'
      | EmptyString => None
      end
  end.

Definition is_date_separator (c : ascii) : bool :=
  Ascii.eqb c "-" || Ascii.eqb c "." || Ascii.eqb c "/".

(** [/(\d{2})[-./](\d{2})[-./](\d{4})/] *)
Definition date_dmy : list (ascii -> bool) :=
  [is_digit; is_digit; is_date_separator; is_digit; is_digit; is_date_separator;
   is_digit; is_digit; is_digit; is_digit].

(** [/(\d{4})[-./](\d{2})[-./](\d{2})/] *)
Definition date_ymd : list (ascii -> bool) :=
  [is_digit; is_digit; is_digit; is_digit; is_date_separator; is_digit; is_digit;
   is_date_separator; is_digit; is_digit].

Fixpoint drop_chars (n : nat) (s : string) : string :=
  match n, s with
  | S n', String _ s' => drop_chars n' s'
  | _, _ => s
  end.

(** The capture of [([^\/]+)] right after [prefix] at the start of [s]. *)
Definition segment_after (fold_case : bool) (prefix s : string) : option string :=
  if startsWith (if fold_case then toLowerCase s else s) prefix then
    let seg := fst (span_until (fun c => Ascii.eqb c "/") (drop_chars (String.length prefix) s)) in
    if is_empty seg then None else Some seg
  else None.

(** The capture of [([^\/]+)] of the leftmost match of
    [/\/(alt1|alt2|...)\/([^\/]+)/], the alternatives tried in order. *)
Fixpoint match_segment (fold_case : bool) (alternatives : list string) (s : string)
    : option string :=
  match head (omap (fun alt => segment_after fold_case ("/" +:+ alt +:+ "/") s) alternatives) with
  | Some seg => Some seg
  | None =>
      match s with
      | String _ s' => match_segment fold_case alternatives s'
      | EmptyString => None
      end
  end.


End Js.

(** ** JSON bodies *)

Module Json.

(** What [await request.json()] resolves with: [JSON.parse] of the body.  A
    number is given by the string that [String] prints for it, which with
    its being zero or not is all that the handler reads of a number.  The
    members of an object come in the order of the text; of two members of
    one name the object keeps the later. *)
#[warnings="-register-all"]
Inductive value :=
| Null
| Bool (b : bool)
| Number (text : string)
| Str (s : string)
| Array (items : list value)
| Object (members : list (string * value)).

Definition named (name : string) (entry : string * value) : bool :=
  String.eqb (fst entry) name.

(** The member of the given name, when there is one. *)
Definition member (name : string) (members : list (string * value)) : option value :=
  snd <$> head (List.filter (named name) (rev members)).

(** [v[name]] for a name that the prototypes do not define; [None] is
    [undefined]. *)
Definition get (v : value) (name : string) : option value :=
  match v with
  | Object members => member name members
  | _ => None
  end.

(** [!!v] *)
Definition truthy (v : option value) : bool :=
  match v with
  | None | Some Null => false
  | Some (Bool b) => b
  | Some (Number text) => negb (String.eqb text "0")
  | Some (Str s) => negb (Js.is_empty s)
  | Some (Array _) | Some (Object _) => true
  end.

(** [String(v)].  An array joins the strings of its items with commas, an
    item [null] giving the empty string.  A parsed object has no function
    among its members: with a member named [toString] no conversion is
    left and a [TypeError] is thrown; without one it is printed by
    [Object.prototype.toString]. *)
Fixpoint ToString (v : value) : Result string :=
  match v with
  | Null => Ok "null"
  | Bool b => Ok (if b then "true" else "false")
  | Number text => Ok text
  | Str s => Ok s
  | Array items =>
      (fix join (items : list value) : Result string :=
         match items with
         | [] => Ok EmptyString
         | item :: rest =>
             text ← match item with
                    | Null => Ok EmptyString
                    | _ => ToString item
                    end;
             match rest with
             | [] => Ok text
             | _ => others ← join rest; Ok (text +:+ "," +:+ others)
             end
         end) items
  | Object members =>
      if existsb (named "toString") members
      then Throw (TypeError "Cannot convert object to primitive value")
      else Ok "[object Object]"
  end.

(** The string of an item of an array in [join], and the loop of [join]
    as a function of its own. *)
Definition item_string (item : value) : Result string :=
  match item with
  | Null => Ok EmptyString
  | _ => ToString item
  end.

Fixpoint join (items : list value) : Result string :=
  match items with
  | [] => Ok EmptyString
  | item :: rest =>
      text ← item_string item;
      match rest with
      | [] => Ok text
      | _ => others ← join rest; Ok (text +:+ "," +:+ others)
      end
  end.

(** A scalar as a parsed value; [None] is [undefined]. *)
Definition of_value (v : JsValue) : option value :=
  match v with
  | JsUndefined => None
  | JsNull => Some Null
  | JsBool b => Some (Bool b)
  | JsNumber z => Some (Number (Js.Number_toString z))
  | JsString s => Some (Str s)
  | JsObject => Some (Object [])
  end.

End Json.

(** ** The platform's URL class *)

Record URL := {
  protocol : string;   (* with its colon: [https:] *)
  host : string;
  pathname : string;
  search : string;
  hash : string
}.

Definition origin (u : URL) : string := protocol u +:+ "//" +:+ host u.
Definition href (u : URL) : string := origin u +:+ pathname u +:+ search u +:+ hash u.

(** The code reaches the URL parser of the platform through [new URL(s)]
    and [new URL(s, base)]; [None] stands for the [TypeError] they throw. *)
Record Platform := {
  new_URL : string -> option URL;
  new_URL_base : string -> string -> option URL
}.

Definition invalid_url : JsError := TypeError "Invalid URL".

Definition construct_URL (P : Platform) (s : string) : Result URL :=
  match new_URL P s with
  | Some u => Ok u
  | None => Throw invalid_url
  end.

(** ** The URL classifier *)

Section Classifier.

Variable P : Platform.

(** [categorizeUrl], lines 387-473. *)
Definition categorizeUrl (url : JsValue) : Result string :=
  match url with
  | JsString url =>
      if Js.is_empty url then Ok "static" else
      urlObj ← construct_URL P url;
      let pathname := pathname urlObj in
      if String.eqb pathname "/" then Ok "static"
      else if Js.startsWith pathname "/urun/" then Ok "product"
      else if Js.startsWith pathname "/blog/icerik/" then Ok "blog"
      else
        let categoryPatterns :=
          ["/kategori/"; "/category/"; "/blog/kategori/"; "/blog/category/";
           "/cat/"; "/collections/"] in
        if existsb (fun pattern => Js.startsWith pathname pattern) categoryPatterns
        then Ok "category"
        else
          let productCategoryPatterns :=
            ["/kategori/"; "/category/"; "/cat/"; "/collections/"] in
          if existsb (fun pattern => Js.startsWith pathname pattern
                                     && negb (Js.includes pathname "/blog/"))
                     productCategoryPatterns
          then Ok "category"
          else
            let productPatterns :=
              ["/urun/"; "/product/"; "/p/"; "/shop/"; "/item/"; "/product-detail/"] in
            if existsb (fun pattern => Js.startsWith pathname pattern) productPatterns
            then Ok "product"
            else
              let blogPatterns := ["/blog/icerik/"; "/icerik/"; "/blog/"] in
              if existsb (fun pattern => Js.startsWith pathname pattern) blogPatterns
                 && negb (Js.includes pathname "/blog/kategori/")
                 && negb (Js.includes pathname "/blog/category/")
              then Ok "blog"
              else
                let staticPatterns :=
                  ["/sayfa/"; "/page/"; "/about"; "/contact";
                   "/faq"; "/terms"; "/privacy"; "/hakkimizda";
                   "/iletisim"; "/yardim"; "/help"; "/support";
                   "/gizlilik"; "/sss"; "/sikca-sorulan-sorular";
                   "/shipping"; "/returns"; "/iade"; "/kargom-nerede";
                   "/indirimli-urunler"] in
                let cleanPath := hd EmptyString (Js.split "?" pathname) in
                if existsb (fun pattern => Js.startsWith cleanPath pattern) staticPatterns
                then Ok "static"
                else Ok "others"
  | _ => Ok "static"
  end.

End Classifier.

(** ** A model of the platform's URL parser

    [UrlModel.parse] follows the WHATWG URL Standard on the plain
    [http(s)://host/path?query#fragment] strings that need no
    normalisation, and on the strings that have no scheme (which the
    standard rejects).  It answers [Some] only when the string is of that
    plain form: a host of ASCII letters, digits, hyphens and dots whose
    last label starts with a letter, no credentials and no port, no dot
    segment, and only characters that the standard copies unchanged. *)

Module UrlModel.

Definition is_scheme_char (c : ascii) : bool :=
  Js.is_alpha c || Js.is_digit c || Ascii.eqb c "+" || Ascii.eqb c "-" || Ascii.eqb c ".".

Definition valid_scheme (s : string) : bool :=
  match s with
  | EmptyString => false
  | String c s' => Js.is_alpha c && Js.all_chars is_scheme_char s'
  end.

Definition mem_char (c : ascii) (s : string) : bool :=
  existsb (Ascii.eqb c) (String.list_ascii_of_string s).

Definition is_host_char (c : ascii) : bool :=
  Js.is_lower c || Js.is_digit c || Ascii.eqb c "-" || Ascii.eqb c ".".

Definition plain_host (h : string) : bool :=
  Js.all_chars is_host_char h
  && negb (Js.includes h "xn--")
  && match last (Js.split "." h) with
     | Some (String c _) => Js.is_lower c
     | _ => false
     end.

Definition is_path_char (c : ascii) : bool :=
  Js.is_alpha c || Js.is_digit c || mem_char c "-._~/!$&'()*+,;=:@".

Definition is_query_char (c : ascii) : bool :=
  Js.is_alpha c || Js.is_digit c || mem_char c "-._~/!$&()*+,;=:@?".

Definition no_dot_segment (path : string) : bool :=
  forallb (fun seg => negb (String.eqb seg "." || String.eqb seg ".."))
          (Js.split "/" path).

Definition plain_path (p : string) : bool :=
  match p with
  | EmptyString => true
  | String c _ => Ascii.eqb c "/" && Js.all_chars is_path_char p && no_dot_segment p
  end.

(** The text after a delimiter that is present must be plain and non-empty. *)
Definition plain_part (delim : ascii) (ok : ascii -> bool) (s : string) : bool :=
  match s with
  | EmptyString => true
  | String c rest => Ascii.eqb c delim && negb (Js.is_empty rest) && Js.all_chars ok rest
  end.

Definition parse (s : string) : option URL :=
  let '(scheme, rest) := Js.span_until (fun c => Ascii.eqb c ":") s in
  match rest with
  | String _ (String "/" (String "/" rest)) =>
      let scheme := Js.toLowerCase scheme in
      if valid_scheme scheme && (String.eqb scheme "http" || String.eqb scheme "https") then
        let '(authority, rest) := Js.span_until (fun c => mem_char c "/\?#") rest in
        let host := Js.toLowerCase authority in
        let '(path, rest) := Js.span_until (fun c => mem_char c "?#") rest in
        let '(query, fragment) := Js.span_until (fun c => Ascii.eqb c "#") rest in
        if plain_host host && plain_path path
           && plain_part "?" is_query_char query && plain_part "#" is_query_char fragment
        then Some {| protocol := scheme +:+ ":";
                     host := host;
                     pathname := if Js.is_empty path then "/" else path;
                     search := query;
                     hash := fragment |}
        else None
      else None
  | _ => None
  end.

(** [new URL(s, base)]: an absolute [s] stands for itself, a path that
    starts with one slash is taken at the origin of the base. *)
Definition parse_base (s base : string) : option URL :=
  match parse base with
  | None => None
  | Some b =>
      match parse s with
      | Some u => Some u
      | None =>
          if Js.startsWith s "/" && negb (Js.startsWith s "//")
          then parse (origin b +:+ s)
          else None
      end
  end.

Definition platform : Platform :=
  {| new_URL := parse; new_URL_base := parse_base |}.

End UrlModel.

(** ** The outside world: network, parsers, clock *)

(** What [xml2js] makes of a sitemap, as far as the code looks into it.
    An entry is the text of its first [loc] child ([entry.loc[0]]), or
    [None] when the entry has no [loc] child. *)
Inductive SitemapDoc :=
| SitemapIndex (sitemap : list (option string))   (* [result.sitemapindex.sitemap] *)
| UrlSet (url : list (option string))             (* [result.urlset.url] *)
| OtherXml.

(** A DOM element and a JSDOM document, as far as the code queries them. *)
Record Element := {
  getAttribute : string -> option string;
  textContent : string
}.

Record Document := {
  doc_title : string;                            (* [document.title] *)
  querySelectorAll : string -> list Element;
  innerHTML : string                             (* [document.documentElement.innerHTML] *)
}.

Definition querySelector (document : Document) (selector : string) : option Element :=
  head (querySelectorAll document selector).

(** One run's world.  Each request function gives the final outcome of a
    request that completes: [Throw] when axios rejects (network error,
    timeout, status outside 2xx) or when the parser applied to the body
    throws.  For the requests of [axiosInstance] this is the outcome once
    the interceptor of lines 19-31 has stopped repeating the request;
    [request_with_retry] below is that interceptor. *)
Record World := {
  now : string;                                   (* [new Date().toISOString()] *)
  http_head : string -> Result nat;               (* status of [axios.head(url)] *)
  http_get_text : string -> Result string;        (* [(await axios.get(url)).data] *)
  http_get_xml : string -> Result SitemapDoc;     (* ... parsed by [xml2js] *)
  http_get_dom : string -> Result Document        (* ... parsed by [JSDOM] *)
}.

(** [CRAWL_CONFIG.batchProcessing.maxConcurrent] *)
Definition maxConcurrent : nat := 10.

(** [items.slice(i, j)] for [0 <= i <= j] *)
Definition slice {A} (items : list A) (i j : nat) : list A :=
  take (j - i) (drop i items).

(** [Promise.all]: every promise has been started; the result rejects as
    soon as one of them does. *)
Fixpoint Promise_all {A} (promises : list (Result A)) : Result (list A) :=
  match promises with
  | [] => Ok []
  | p :: ps =>
      a ← p;
      rest ← Promise_all ps;
      Ok (a :: rest)
  end.

(** The batch loop shared by [fetchSitemapUrls] and [processInBatches]:
    [for (let i = 0; i < items.length; i += batchSize) { batch =
    items.slice(i, i + batchSize); ... }] with [batchSize = maxConcurrent];
    [body] is the loop body acting on the accumulated results.  The pause
    between two batches takes time and changes nothing else. *)
Equations? for_batches {A S} (items : list A) (body : list A -> S -> Result S)
    (i : nat) (acc : S) : Result S by wf (length items - i) lt :=
  for_batches items body i acc with lt_dec i (length items) => {
    | left _ =>
        acc' ← body (slice items i (i + maxConcurrent)) acc;
        for_batches items body (i + maxConcurrent) acc'
    | right _ => Ok acc }.
Proof. unfold maxConcurrent. lia. Qed.

(** What a slot of [processInBatches] holds: the handler's value, or the
    [{ error }] object made by [p.catch(error => ({ error }))]. *)
Inductive BatchItem (R : Type) :=
| Value (r : R)
| ErrorObject (error : JsError).
Arguments Value {R} r.
Arguments ErrorObject {R} error.

Definition catch_to_error_object {R} (p : Result R) : Result (BatchItem R) :=
  match p with
  | Ok r => Ok (Value r)
  | Throw error => Ok (ErrorObject error)
  end.

(** [processInBatches], lines 1151-1171.  The handler is an async function:
    its outcome for an item is a promise that resolves or rejects. *)
Definition processInBatches {T R} (items : list T) (handler : T -> Result R)
    : Result (list (BatchItem R)) :=
  for_batches items
    (fun batch results =>
       batchResults ← Promise_all (map catch_to_error_object (map handler batch));
       Ok (results ++ batchResults))
    0 [].

(** ** Sitemap discovery *)

Module Robots.

Definition is_line_terminator (c : ascii) : bool :=
  Ascii.eqb c (ascii_of_nat 10) || Ascii.eqb c (ascii_of_nat 13).

Fixpoint lines (s : string) : list string :=
  match s with
  | EmptyString => [EmptyString]
  | String c s' =>
      match lines s' with
      | [] => [EmptyString]
      | cur :: rest =>
          if is_line_terminator c then EmptyString :: cur :: rest
          else String c cur :: rest
      end
  end.

(** [data.match(/^Sitemap: (.+)$/m)?.[1]]: the rest of the first line that
    starts with [Sitemap: ] and goes on. *)
Definition sitemap_directive (data : string) : option string :=
  let rest_of line :=
    if Js.startsWith line "Sitemap: "
    then let r := Js.drop_chars 9 line in if Js.is_empty r then None else Some r
    else None in
  head (omap rest_of (lines data)).

End Robots.

Section Discovery.

Variable P : Platform.
Variable W : World.

(** [tryAlternativeSitemapUrls], lines 176-215. *)
Definition tryAlternativeSitemapUrls (baseUrl : string) : Result (option string) :=
  let normalizedUrl := Js.strip_one_trailing_slash baseUrl in
  let variations :=
    [baseUrl;
     normalizedUrl +:+ "/sitemap.xml";
     normalizedUrl +:+ "/sitemap_index.xml";
     normalizedUrl +:+ "/sitemap/sitemap.xml";
     normalizedUrl +:+ "/wp-sitemap.xml";
     normalizedUrl +:+ "/page-sitemap.xml"] in
  variations ←
    try_catch
      (base ← construct_URL P baseUrl;
       let robotsUrl := origin base +:+ "/robots.txt" in
       data ← http_get_text W robotsUrl;
       match Robots.sitemap_directive data with
       | Some found => Ok (found :: variations)
       | None => Ok variations
       end)
      (fun _ => Ok variations);
  let responds url :=
    match http_head W url with
    | Ok status => Nat.eqb status 200
    | Throw _ => false
    end in
  Ok (List.find responds variations).

(** [entries.map(entry => entry.loc[0])]: a [TypeError] at the first entry
    without a [loc]. *)
Fixpoint first_locs (entries : list (option string)) : Result (list string) :=
  match entries with
  | [] => Ok []
  | Some loc :: rest => (locs ← first_locs rest; Ok (loc :: locs))
  | None :: _ => Throw (TypeError "Cannot read properties of undefined (reading '0')")
  end.

Definition parses_as_URL (url : string) : bool :=
  match new_URL P url with Some _ => true | None => false end.

(** Lines 221-227: a URL that does not mention a sitemap is replaced by
    the alternative location that responds, when there is one. *)
Definition resolveSitemapUrl (sitemapUrl : string) : Result string :=
  if negb (Js.includes (Js.toLowerCase sitemapUrl) "sitemap") then
    foundUrl ← tryAlternativeSitemapUrls sitemapUrl;
    match foundUrl with
    | Some foundUrl => Ok foundUrl
    | None => Ok sitemapUrl
    end
  else Ok sitemapUrl.

(** The [try] block of [fetchSitemapUrls], lines 221-259; [child] is the
    recursive call [url => fetchSitemapUrls(url, depth + 1)]. *)
Definition fetch_node (child : string -> Result (list string)) (sitemapUrl : string)
    : Result (list string) :=
  sitemapUrl ← resolveSitemapUrl sitemapUrl;
  result ← http_get_xml W sitemapUrl;
  urls ←
    match result with
    | SitemapIndex sitemap =>
        sitemapUrls ← first_locs sitemap;
        for_batches sitemapUrls
          (fun batch urls =>
             batchResults ← Promise_all (map child batch);
             Ok (urls ++ concat batchResults))
          0 []
    | UrlSet url => first_locs url
    | OtherXml => Ok []
    end;
  Ok (List.filter parses_as_URL urls).

(** [fetchSitemapUrls], lines 217-264, at the depths the code calls it
    with, the natural numbers: its callers pass no depth, which is 0, and it
    calls itself at [depth + 1].  The other numbers that a caller of the
    exported function can pass are the matter of [Depth] below. *)
Equations? fetchSitemapUrls (sitemapUrl : string) (depth : nat)
    : Result (list string) by wf (6 - depth) lt :=
  fetchSitemapUrls sitemapUrl depth with le_lt_dec depth 5 => {
    | right _ => Ok []
    | left _ =>
        try_catch
          (fetch_node (fun url => fetchSitemapUrls url (S depth)) sitemapUrl)
          (fun _ => Ok []) }.
Proof. lia. Qed.

(** The same node with the nesting of the recursive calls counted down:
    [levels] is the number of nested calls still allowed to do any work. *)
Fixpoint fetch_levels (levels : nat) (sitemapUrl : string) (depth : nat)
    : Result (list string) :=
  match levels with
  | 0 => Ok []
  | S levels' =>
      if (5 <? depth)%nat then Ok []
      else try_catch
             (fetch_node (fun url => fetch_levels levels' url (S depth)) sitemapUrl)
             (fun _ => Ok [])
  end.

End Discovery.

(** *** The depth as a number, and the retries of a request

    In [fetchSitemapUrls P W sitemapUrl depth] the depth is a natural
    number, as in every call the code makes: the default 0 and [depth + 1].
    The function is exported and its parameter is an unchecked JavaScript
    number; what follows reads the two uses of [depth] on such a number. *)

Module Depth.

(** The values of [depth]: an integer, [NaN], [Infinity] or [-Infinity]. *)
Inductive t :=
| Finite (z : Z)
| NotANumber
| PlusInfinity
| MinusInfinity.

(** [depth > 5], line 218 *)
Definition exceeds_limit (depth : t) : bool :=
  match depth with
  | Finite z => (5 <? z)%Z
  | PlusInfinity => true
  | NotANumber | MinusInfinity => false
  end.

(** [depth + 1], line 241; exact on the integers from [-2^53] on. *)
Definition succ (depth : t) : t :=
  match depth with
  | Finite z => Finite (z + 1)
  | other => other
  end.

End Depth.

Section CallTree.

Variable P : Platform.
Variable W : World.

(** The sitemaps a call reads by a recursive call: the locations of the
    index it fetched, lines 233-241. *)
Definition child_sitemaps (sitemapUrl : string) : list string :=
  match resolveSitemapUrl P W sitemapUrl with
  | Ok resolved =>
      match http_get_xml W resolved with
      | Ok (SitemapIndex sitemap) =>
          match first_locs sitemap with
          | Ok sitemapUrls => sitemapUrls
          | Throw _ => []
          end
      | _ => []
      end
  | Throw _ => []
  end.

(** Whether the call [fetchSitemapUrls(sitemapUrl, depth)] opens a chain of
    more than [levels] nested calls.  A call returns once the calls nested
    in it have: it never returns when this holds for every [levels]. *)
Fixpoint nests_beyond (levels : nat) (sitemapUrl : string) (depth : Depth.t) : bool :=
  match levels with
  | 0 => true
  | S levels' =>
      if Depth.exceeds_limit depth then false
      else existsb (fun child => nests_beyond levels' child (Depth.succ depth))
                   (child_sitemaps sitemapUrl)
  end.

End CallTree.

(** What the server does with one attempt of a request: it answers, or the
    attempt fails, with the status of the response when there is one. *)
Inductive Attempt (A : Type) :=
| Responds (a : A)
| Fails (status : option nat) (error : JsError).
Arguments Responds {A} a.
Arguments Fails {A} status error.

(** [error.response?.status === 429] *)
Definition rate_limited {A} (attempt : Attempt A) : bool :=
  match attempt with
  | Fails (Some status) _ => Nat.eqb status 429
  | _ => false
  end.

(** One request through the response interceptor of lines 19-31:
    [answers n] is what the server does with the attempt number [n]; a
    rate-limited attempt is followed, after the delay, by a new one.  The
    result is [None] when [fuel] attempts have all been rate-limited.  The
    requests of a [World] are those that complete. *)
Fixpoint request_with_retry {A} (fuel : nat) (answers : nat -> Attempt A) (attempt : nat)
    : option (Result A) :=
  match fuel with
  | 0 => None
  | S fuel' =>
      if rate_limited (answers attempt)
      then request_with_retry fuel' answers (S attempt)
      else match answers attempt with
           | Responds a => Some (Ok a)
           | Fails _ error => Some (Throw error)
           end
  end.

(** ** Page records *)

Module Page.

(** [PageData], lines 41-59, with the fields the pipeline assigns. *)
Record PageData := {
  url : string;
  title : option string;
  description : option string;
  price : option string;
  stockStatus : option string;
  images : option (list string);
  category : option string;
  date : option string;
  features : option (list string);
  breadcrumb : option (list string);
  blogContent : option string;
  blogCategories : option (list string);
  timestamp : option string;
  error : option string;
  type : option string
}.

(** [{ url }]: a record with every other field unset. *)
Definition bare_page (u : string) : PageData :=
  {| url := u; title := None; description := None; price := None;
     stockStatus := None; images := None; category := None; date := None;
     features := None; breadcrumb := None; blogContent := None;
     blogCategories := None; timestamp := None; error := None; type := None |}.

(** [{ ...data, type: t }] *)
Definition with_type (data : PageData) (t : string) : PageData :=
  {| url := url data; title := title data; description := description data;
     price := price data; stockStatus := stockStatus data; images := images data;
     category := category data; date := date data; features := features data;
     breadcrumb := breadcrumb data; blogContent := blogContent data;
     blogCategories := blogCategories data; timestamp := timestamp data;
     error := error data; type := Some t |}.

(** [pageData.breadcrumb = b] *)
Definition with_breadcrumb (data : PageData) (b : list string) : PageData :=
  {| url := url data; title := title data; description := description data;
     price := price data; stockStatus := stockStatus data; images := images data;
     category := category data; date := date data; features := features data;
     breadcrumb := Some b; blogContent := blogContent data;
     blogCategories := blogCategories data; timestamp := timestamp data;
     error := error data; type := type data |}.

End Page.
Import Page.

(** ** The page content extractor *)

Module Dom.

(** [el.textContent?.trim()] *)
Definition text (el : Element) : string := Js.trim (textContent el).

(** [el.getAttribute('content') || el.textContent?.trim()] *)
Definition content_or_text (el : Element) : option string :=
  Js.or_else (getAttribute el "content") (Some (text el)).

(** [for (const selector of selectors) { const element =
    document.querySelector(selector); if (element) { ...; break; } }]:
    the element the loop stops at. *)
Definition first_element (document : Document) (selectors : list string) : option Element :=
  head (omap (querySelector document) selectors).

(** The same loop when the body breaks only if [pick] finds something in
    the element. *)
Definition first_picked {A} (document : Document) (selectors : list string)
    (pick : Element -> option A) : option A :=
  head (omap (fun selector => querySelector document selector ≫= pick) selectors).

(** [for (const selector of selectors) { const elements =
    document.querySelectorAll(selector); if (elements.length > 0) { found =
    collect(elements); if (found.length > 0) break; } }] *)
Definition first_collected {A} (document : Document) (selectors : list string)
    (collect : list Element -> list A) : list A :=
  default []
    (head (omap (fun selector =>
                   match querySelectorAll document selector with
                   | [] => None
                   | elements =>
                       match collect elements with
                       | [] => None
                       | found => Some found
                       end
                   end) selectors)).

End Dom.

(** [extractBreadcrumb], lines 1110-1128. *)
Definition extractBreadcrumb (document : Document) : list string :=
  let breadcrumbSelectors :=
    [".breadcrumb li"; ".breadcrumbs li";
     Js.quoted "nav[aria-label='breadcrumb'] li";
     Js.quoted "[itemtype*='BreadcrumbList'] [itemprop='itemListElement']"] in
  match head (omap (fun selector =>
                      match querySelectorAll document selector with
                      | [] => None
                      | elements => Some elements
                      end) breadcrumbSelectors) with
  | Some elements => Js.filter_Boolean (map (fun el => Some (Dom.text el)) elements)
  | None => []
  end.

Section Extractor.

Variable P : Platform.
Variable W : World.

(** [new Date().toISOString().split('T')[0]] *)
Definition today : string := hd EmptyString (Js.split "T" (now W)).

Definition is_nil {A} (l : list A) : bool :=
  match l with [] => true | _ => false end.

Definition positive_number (n : option Z) : bool :=
  match n with Some z => (0 <? z)%Z | None => false end.
Definition below_100 (n : option Z) : bool :=
  match n with Some z => (z <? 100)%Z | None => false end.

(** Lines 717-778: the featured images of a blog page when a selector
    finds some, else the images of its content. *)
Definition blogImageCandidates (document : Document) (images0 : list string)
    : list string :=
  let blogImageSelectors :=
    [".post-featured-image img"; ".blog-image img"; ".entry-image img";
     "article img"; ".post img"; ".blog-featured-image img"; ".icerik-resim img";
     ".blog-icerik-image img"; ".blog-cover img"] in
  let featured :=
    Dom.first_collected document blogImageSelectors
      (fun elements =>
         Js.filter_Boolean
           (map (fun img =>
                   let src :=
                     Js.or_else (Js.or_else (getAttribute img "src")
                                            (getAttribute img "data-src"))
                                (getAttribute img "data-original") in
                   let width :=
                     Js.parseInt (default EmptyString
                       (Js.or_else (getAttribute img "width") (Some "0"))) in
                   let height :=
                     Js.parseInt (default EmptyString
                       (Js.or_else (getAttribute img "height") (Some "0"))) in
                   if positive_number width && positive_number height
                      && (below_100 width || below_100 height)
                   then None else src) elements)) in
  let foundImage := negb (is_nil featured) in
  if foundImage then featured else
    match querySelectorAll document
            "article img, .post-content img, .blog-content img, .icerik img" with
    | [] => images0
    | contentImages =>
        List.filter
          (fun src =>
             negb (Js.includes src "icon") && negb (Js.includes src "logo")
             && negb (Js.includes src "avatar") && negb (Js.includes src "spinner")
             && negb (Js.includes src "loading"))
          (Js.filter_Boolean
             (map (fun img => Js.or_else (getAttribute img "src")
                                         (getAttribute img "data-src"))
                  contentImages))
    end.

(** Lines 783-791: a protocol-relative or relative image URL made
    absolute. *)
Definition absoluteImage (url img : string) : Result string :=
  if Js.is_empty img then Ok EmptyString
  else if Js.startsWith img "//" then Ok ("https:" +:+ img)
  else if negb (Js.startsWith img "http") && negb (Js.startsWith img "data:") then
    base ← construct_URL P url;
    let baseUrl := origin base in
    Ok (if Js.startsWith img "/" then baseUrl +:+ img else baseUrl +:+ "/" +:+ img)
  else Ok img.

(** The images of a blog page, lines 716-807: the images found so far when
    there are some, else the featured images or the images of the content,
    the Open Graph image, a placeholder. *)
Definition extractBlogImages (url : string) (document : Document)
    (images0 : list string) : Result (list string) :=
  if negb (is_nil images0) then Ok images0 else
    let images := blogImageCandidates document images0 in
    images ←
      (if is_nil images then Ok images else
         fixed ← Promise_all (map (absoluteImage url) images);
         Ok (List.filter (fun img => negb (Js.is_empty img)) fixed));
    let images :=
      if is_nil images then
        let ogImage :=
          querySelector document (Js.quoted "meta[property='og:image']")
            ≫= (fun el => getAttribute el "content") in
        match ogImage with
        | Some ogImage => if Js.is_empty ogImage then images else [ogImage]
        | None => images
        end
      else images in
    Ok (if is_nil images
        then ["https://via.placeholder.com/800x400?text=Blog+Post"]
        else images).

(** The blog branch of [extractPageData], lines 532-808. *)
Definition extractBlogPage (url : string) (document : Document) (pageData : PageData)
    : Result PageData :=
  let urlLower := Js.toLowerCase url in
  (* publication date *)
  let dateSelectors :=
    [Js.quoted "meta[property='article:published_time']"; "time[datetime]";
     ".post-date"; ".blog-date"; ".date"; Js.quoted "[itemprop='datePublished']";
     ".entry-date"; ".entry-meta time"; ".post-meta time"; ".blog-detail-date";
     ".article-date"; ".publish-date"; ".blog-icerik-date"; ".icerik-tarih";
     ".yayinlanma-tarihi"] in
  let date :=
    match Dom.first_element document dateSelectors with
    | Some element =>
        Js.or_else (Js.or_else (getAttribute element "datetime")
                               (getAttribute element "content"))
                   (Some (Dom.text element))
    | None => date pageData
    end in
  let date :=
    if Js.truthy date then date else
      let html := innerHTML document in
      let date := head (omap (fun regex => Js.match_first regex html)
                             [Js.date_dmy; Js.date_ymd]) in
      if Js.truthy date then date else Some today in
  (* description *)
  let descriptionSelectors :=
    [Js.quoted "meta[property='og:description']"; Js.quoted "meta[name='description']";
     ".blog-summary"; ".blog-excerpt"; ".post-summary"; ".article-summary";
     ".entry-summary"; ".post-content p:first-child"; ".blog-content p:first-child";
     ".icerik-ozet"; ".blog-icerik-ozet"; ".yazi-ozeti"] in
  let description :=
    match Dom.first_picked document descriptionSelectors
            (fun element =>
               match Dom.content_or_text element with
               | Some descriptionText =>
                   if negb (Js.is_empty descriptionText)
                      && (10 <? Js.length descriptionText)%nat
                   then Some descriptionText else None
               | None => None
               end) with
    | Some descriptionText => Some descriptionText
    | None => description pageData
    end in
  let description :=
    if Js.truthy description then description else
      let contentSelectors :=
        ["article p"; ".blog-content p"; ".post-content p"; ".entry-content p";
         ".icerik p"] in
      let generated :=
        head (omap (fun selector =>
                      match querySelectorAll document selector with
                      | [] => None
                      | paragraphs =>
                          let description :=
                            String.concat EmptyString
                              (map (fun p => Dom.text p +:+ " ") (take 2 paragraphs)) in
                          if (10 <? Js.length description)%nat
                          then Some (Js.substring0 160 description +:+ "...")
                          else None
                      end) contentSelectors) in
      let description := if Js.truthy generated then generated else description in
      if negb (Js.truthy description) && Js.truthy (title pageData)
      then Some (default EmptyString (title pageData) +:+ ": Blog post on this topic.")
      else description in
  (* categories *)
  let categorySelectors :=
    [".post-categories a"; ".blog-categories a"; ".categories a";
     Js.quoted "meta[property='article:section']"; ".entry-categories a";
     ".post-meta .category"; ".blog-detail-categories a"; ".post-category";
     ".article-categories"; ".kategori a"; ".blog-kategori a"; ".icerik-kategori";
     ".breadcrumb li a"] in
  let categories :=
    Dom.first_collected document categorySelectors
      (fun elements => Js.filter_Boolean (map Dom.content_or_text elements)) in
  let categories :=
    if Js.includes urlLower "toptanturkiye.com" then
      match Js.match_segment false ["blog/kategori"] url with
      | Some categorySlug => categories ++ [Js.title_case categorySlug]
      | None => categories
      end
    else categories in
  let blogCategories := if is_nil categories then ["Uncategorized"] else categories in
  (* content excerpt *)
  let contentSelectors :=
    ["article .content"; ".post-content"; ".blog-content"; ".entry-content";
     ".blog-detail-content"; ".article-content"; "article p"; ".post .entry";
     ".blog-text"; ".icerik-content"; ".blog-icerik"] in
  let blogContent :=
    match Dom.first_picked document contentSelectors
            (fun element =>
               let contentText := Dom.text element in
               if negb (Js.is_empty contentText) && (20 <? Js.length contentText)%nat
               then Some (Js.substring0 300 contentText +:+ "...") else None) with
    | Some excerpt => Some excerpt
    | None => blogContent pageData
    end in
  (* images *)
  images ← extractBlogImages url document (default [] (images pageData));
  Ok {| url := Page.url pageData; title := title pageData;
        description := description;
        price := price pageData; stockStatus := stockStatus pageData;
        images := Some images; category := category pageData; date := date;
        features := features pageData; breadcrumb := breadcrumb pageData;
        blogContent := blogContent; blogCategories := Some blogCategories;
        timestamp := timestamp pageData; error := error pageData;
        type := Some "blog" |}.

(** The product branch of [extractPageData], lines 815-980. *)
Definition extractProductPage (document : Document) (pageData : PageData) : PageData :=
  let priceSelectors :=
    [".product-price"; ".price"; Js.quoted "[itemprop='price']";
     Js.quoted "meta[property='product:price:amount']";
     ".product-price-container .product-price"; ".product-info .price";
     ".primary-price"; "#product-price"; ".current-price"; ".product-card__price"] in
  let price :=
    match Dom.first_element document priceSelectors with
    | Some element => Dom.content_or_text element
    | None => price pageData
    end in
  let stockSelectors :=
    [".stock"; Js.quoted "[itemprop='availability']"; ".availability"; ".stock-status";
     ".product-stock-status"; "[data-stock-status]"] in
  let stockStatus :=
    match Dom.first_element document stockSelectors with
    | Some element =>
        let stockText := Dom.text element in
        if negb (Js.is_empty stockText)
           && (Js.includes (Js.toLowerCase stockText) "out"
               || Js.includes (Js.toLowerCase stockText) "yok"
               || Js.includes (Js.toLowerCase stockText) "tükendi")
        then stockText
        else if negb (Js.is_empty stockText) then stockText
        else "Available"
    | None => "Available"
    end in
  let featureSelectors :=
    [".product-features li"; ".features li"; ".specifications li";
     Js.quoted "[itemprop='description'] li"; ".product-properties li";
     ".product-detail ul li"; ".product-tabs .tab-content li";
     ".product-detail-tab-content li"] in
  let features :=
    Dom.first_collected document featureSelectors
      (fun elements =>
         List.filter (fun text => negb (Js.is_empty text)) (map Dom.text elements)) in
  let features :=
    if is_nil features then
      let descriptionSelectors :=
        [".product-description p"; ".product-detail-description p";
         Js.quoted "[itemprop='description'] p"; ".product-info-description p"] in
      Dom.first_collected document descriptionSelectors
        (fun elements =>
           List.filter (fun text => negb (Js.is_empty text) && (10 <? Js.length text)%nat)
                       (map Dom.text elements))
    else features in
  let categorySelectors :=
    [".product-category"; Js.quoted "[itemprop='category']"; ".breadcrumb li:nth-child(2)";
     Js.quoted "meta[property='product:category']"; ".product-meta .category";
     ".product-detail .category a"; ".product-detail-category"] in
  let category :=
    match Dom.first_element document categorySelectors with
    | Some element => Dom.content_or_text element
    | None => category pageData
    end in
  let category :=
    if Js.truthy category then category else
      let breadcrumb := extractBreadcrumb document in
      if (1 <? length breadcrumb)%nat
      then breadcrumb !! (length breadcrumb - 2)%nat
      else category in
  let category := if Js.truthy category then category else Some "Products" in
  let images0 := default [] (images pageData) in
  let images :=
    if negb (is_nil images0) then images pageData else
      let imageSelectors :=
        [".product-images img[src]"; ".product-gallery img[src]";
         ".product-image img[src]"; ".product-detail-image img[src]";
         ".product-photos img[src]"; ".swiper-slide img[src]"; "#productImage";
         Js.quoted "[itemprop='image']"] in
      match Dom.first_collected document imageSelectors
              (fun elements =>
                 Js.filter_Boolean (map (fun img => getAttribute img "src") elements)) with
      | [] => images pageData
      | imageUrls => Some imageUrls
      end in
  {| url := Page.url pageData; title := title pageData;
     description := description pageData;
     price := price; stockStatus := Some stockStatus; images := images;
     category := category; date := date pageData; features := Some features;
     breadcrumb := breadcrumb pageData; blogContent := blogContent pageData;
     blogCategories := blogCategories pageData; timestamp := timestamp pageData;
     error := error pageData; type := Some "product" |}.

(** The category branch of [extractPageData], lines 993-1031. *)
Definition extractCategoryPage (url : string) (document : Document) (pageData : PageData)
    : PageData :=
  let category :=
    match Js.match_segment true
            ["kategori"; "category"; "cat"; "collections"; "product-category"] url with
    | Some categorySlug => Some (Js.title_case categorySlug)
    | None => category pageData
    end in
  let headingSelectors :=
    ["h1.category-title"; ".category-header h1"; ".page-title"; ".category-name";
     ".collection-title"; ".products-category h1"] in
  let category :=
    match Dom.first_element document headingSelectors with
    | Some element => Some (Dom.text element)
    | None => category
    end in
  let category :=
    if Js.truthy category then category else
      let urlParts := List.filter (fun part => negb (Js.is_empty part)) (Js.split "/" url) in
      match last urlParts with
      | Some lastPart => Some (Js.title_case lastPart)
      | None => category
      end in
  {| url := Page.url pageData; title := title pageData;
     description := description pageData;
     price := price pageData; stockStatus := stockStatus pageData;
     images := images pageData; category := category; date := date pageData;
     features := features pageData; breadcrumb := breadcrumb pageData;
     blogContent := blogContent pageData; blogCategories := blogCategories pageData;
     timestamp := timestamp pageData; error := error pageData;
     type := Some "category" |}.

(** The static branch of [extractPageData], lines 1036-1058. *)
Definition extractStaticPage (document : Document) (pageData : PageData) : PageData :=
  let title :=
    match querySelector document "h1" with
    | Some h1 =>
        if negb (Js.is_empty (textContent h1)) then Some (Js.trim (textContent h1))
        else title pageData
    | None => title pageData
    end in
  let contentSelectors := [".page-content"; ".entry-content"; "main"; ".content"] in
  let description :=
    match Dom.first_element document contentSelectors with
    | Some element => Some (Js.substring0 200 (Dom.text element) +:+ "...")
    | None => description pageData
    end in
  {| url := Page.url pageData; title := title; description := description;
     price := price pageData; stockStatus := stockStatus pageData;
     images := images pageData; category := category pageData; date := date pageData;
     features := features pageData; breadcrumb := breadcrumb pageData;
     blogContent := blogContent pageData; blogCategories := blogCategories pageData;
     timestamp := timestamp pageData; error := error pageData;
     type := Some "static" |}.

Definition is_Some_element (e : option Element) : bool :=
  match e with Some _ => true | None => false end.

(** The test that sends a page to the blog branch, lines 524-530. *)
Definition handled_as_blog (url : string) (document : Document) : bool :=
  let urlLower := Js.toLowerCase url in
  Js.includes urlLower "/blog/" || Js.includes urlLower "/icerik/"
  || Js.includes urlLower "/kategori/" || Js.includes urlLower "/news/"
  || Js.includes urlLower "/article/" || Js.includes urlLower "/post/"
  || is_Some_element (querySelector document "article, .post, .blog-post").

(** [extractPageData], lines 475-1081. *)
Definition extractPageData (url : string) : Result PageData :=
  try_catch
    (document ← http_get_dom W url;
     let title :=
       if negb (Js.is_empty (doc_title document)) then doc_title document
       else match last (Js.split "/" url) with
            | Some segment => if Js.is_empty segment then "Untitled" else segment
            | None => "Untitled"
            end in
     let description :=
       Js.or_else
         (Js.or_else
            (querySelector document (Js.quoted "meta[name='description']")
               ≫= (fun el => getAttribute el "content"))
            (querySelector document (Js.quoted "meta[property='og:description']")
               ≫= (fun el => getAttribute el "content")))
         (Some "No description available") in
     let ogImage :=
       querySelector document (Js.quoted "meta[property='og:image']")
         ≫= (fun el => getAttribute el "content") in
     let images :=
       if Js.truthy ogImage then [default EmptyString ogImage]
       else take 5 (Js.filter_Boolean
                      (map (fun img => getAttribute img "src")
                           (querySelectorAll document "img[src]"))) in
     let pageData :=
       {| url := url; title := Some title; description := description;
          price := None; stockStatus := None; images := Some images;
          category := None; date := None; features := None; breadcrumb := None;
          blogContent := None; blogCategories := None;
          timestamp := Some (now W); error := None; type := None |} in
     let urlLower := Js.toLowerCase url in
     pageData ←
       (if handled_as_blog url document then extractBlogPage url document pageData
        else if Js.includes urlLower "/product/" || Js.includes urlLower "/urun/"
                || is_Some_element
                     (querySelector document
                        (Js.quoted ".product-detail, .product, [itemtype*='Product']"))
        then Ok (extractProductPage document pageData)
        else if Js.includes urlLower "/category/" || Js.includes urlLower "/kategori/"
                || Js.includes urlLower "/blog/kategori/"
                || Js.includes urlLower "/blog/category/"
                || Js.includes urlLower "/cat/" || Js.includes urlLower "/collections/"
                || Js.includes urlLower "/product-category/"
                || is_Some_element
                     (querySelector document
                        ".category-description, .category-header, .products-category")
        then Ok (extractCategoryPage url document pageData)
        else Ok (extractStaticPage document pageData));
     let breadcrumb := extractBreadcrumb document in
     Ok (if negb (is_nil breadcrumb) then with_breadcrumb pageData breadcrumb
         else pageData))
    (fun error =>
       Ok {| url := url;
             title :=
               Js.or_else (Js.dashes_to_spaces <$> last (Js.split "/" url)) (Some url);
             description := None; price := None;
             stockStatus := Some "Available"; images := Some [];
             category := None; date := None; features := None; breadcrumb := None;
             blogContent := None; blogCategories := None;
             timestamp := Some (now W); error := Some (String_of_error error);
             type := Some "others" |}).

(** [ensureSingleUrlData], lines 1408-1431.  The extractor never rejects, so
    the [catch] branch only runs if it did. *)
Definition ensureSingleUrlData (url : string) (category : string) : Result PageData :=
  try_catch
    (data ← extractPageData url;
     Ok (with_type data category))
    (fun error =>
       urlObj ← construct_URL P url;
       let pathSegments :=
         List.filter (fun part => negb (Js.is_empty part))
                     (Js.split "/" (pathname urlObj)) in
       let lastSegment := default EmptyString (last pathSegments) in
       let title := Js.title_case lastSegment in
       Ok {| url := url; title := Some title; description := None; price := None;
             stockStatus := None; images := None; category := None; date := None;
             features := None; breadcrumb := None; blogContent := None;
             blogCategories := None; timestamp := Some (now W);
             error := Some (err_message error); type := Some category |}).

End Extractor.

(** ** The pipeline *)

(** A [Record<string, PageData>] object. *)
Abbreviation PageMap := (gmap string PageData).

(** [Object.keys(m)] and [Object.values(m)].  The object of the code lists
    its records in the order of their insertion; the map keeps no such
    order and lists them in the order of its keys.  What is stated of these
    lists holds in any order: the records are counted, tested and
    collected. *)
Definition Object_keys (m : PageMap) : list string := (map_to_list m).*1.
Definition Object_values (m : PageMap) : list PageData := (map_to_list m).*2.

(** The five buckets of [categorizeUrls] and [processAllUrls]. *)
Module Bucket.
Record Buckets := {
  product : list string;
  category : list string;
  blog : list string;
  static : list string;
  others : list string
}.

(** [categorizedUrls.product = urls] and [categorizedUrls.blog = urls] *)
Definition with_product (b : Buckets) (urls : list string) : Buckets :=
  {| product := urls; category := category b; blog := blog b;
     static := static b; others := others b |}.
Definition with_blog (b : Buckets) (urls : list string) : Buckets :=
  {| product := product b; category := category b; blog := urls;
     static := static b; others := others b |}.
Definition with_others (b : Buckets) (urls : list string) : Buckets :=
  {| product := product b; category := category b; blog := blog b;
     static := static b; others := urls |}.
End Bucket.
Export Bucket (Buckets, Build_Buckets).

Definition empty_buckets : Buckets :=
  {| Bucket.product := []; Bucket.category := []; Bucket.blog := [];
     Bucket.static := []; Bucket.others := [] |}.

(** [result[category].push(url)]: a [TypeError] when [result] has no such
    key. *)
Definition push_url (result : Buckets) (category url : string) : Result Buckets :=
  let 'Build_Buckets p c b s o := result in
  if String.eqb category "product" then Ok (Build_Buckets (p ++ [url]) c b s o)
  else if String.eqb category "category" then Ok (Build_Buckets p (c ++ [url]) b s o)
  else if String.eqb category "blog" then Ok (Build_Buckets p c (b ++ [url]) s o)
  else if String.eqb category "static" then Ok (Build_Buckets p c b (s ++ [url]) o)
  else if String.eqb category "others" then Ok (Build_Buckets p c b s (o ++ [url]))
  else Throw (TypeError "Cannot read properties of undefined (reading 'push')").

(** [Object.entries(categorizedUrls)], in the order the keys were written. *)
Definition bucket_entries (b : Buckets) : list (string * list string) :=
  [("product", Bucket.product b); ("category", Bucket.category b);
   ("blog", Bucket.blog b); ("static", Bucket.static b); ("others", Bucket.others b)].

Section Pipeline.

Variable P : Platform.
Variable W : World.

(** [categorizeUrls], lines 267-294. *)
Definition categorizeUrls (urls : list string) : Result Buckets :=
  Ok (fold_left
        (fun result url =>
           match category ← categorizeUrl P (JsString url); push_url result category url with
           | Ok result' => result'
           | Throw _ =>
               Bucket.with_others result (Bucket.others result ++ [url])
           end)
        urls empty_buckets).

(** [Array.from(document.querySelectorAll('a[href]'))] with their [href]. *)
Definition link_hrefs (document : Document) : list (option string) :=
  map (fun a => getAttribute a "href") (querySelectorAll document "a[href]").

(** [new URL(link, base).href] *)
Definition resolve (link base : string) : Result string :=
  match new_URL_base P link base with
  | Some u => Ok (href u)
  | None => Throw invalid_url
  end.

Definition mem_string (x : string) (l : list string) : bool :=
  existsb (String.eqb x) l.

(** The [links.forEach] body shared by [extractProductUrlsFromCategories]
    and [extractBlogUrlsFromSite]: keep the absolute form of a link that
    contains [wanted], does not contain [/kategori/] and is new. *)
Definition collect_links (wanted base : string) (document : Document)
    (found : list string) : list string :=
  fold_left
    (fun found href =>
       if Js.truthy href then
         match resolve (default EmptyString href) base with
         | Ok absolute =>
             if Js.includes absolute wanted
                && negb (Js.includes absolute "/kategori/")
                && negb (mem_string absolute found)
             then found ++ [absolute] else found
         | Throw _ => found
         end
       else found)
    (link_hrefs document) found.

(** [extractProductUrlsFromCategories], lines 1435-1485. *)
Definition extractProductUrlsFromCategories (categoryUrls : list string) : list string :=
  fold_left
    (fun productUrls url =>
       match http_get_dom W url with
       | Ok document => collect_links "/urun/" url document productUrls
       | Throw _ => productUrls
       end)
    (take 10 categoryUrls) [].

(** [extractBlogUrlsFromSite], lines 1488-1535. *)
Definition extractBlogUrlsFromSite (baseUrl : string) : list string :=
  let blogPageUrl := Js.strip_trailing_slashes baseUrl +:+ "/blog" in
  match http_get_dom W blogPageUrl with
  | Ok document => collect_links "/blog/icerik/" blogPageUrl document []
  | Throw _ => []
  end.

(** [CRAWL_CONFIG.urlPatterns.blog] *)
Definition blogPostPatterns : list string :=
  ["/blog/"; "/post/"; "/article/"; "/news/";
   "/makale/"; "/yazi/"; "/blog-detail/"; "/entry/";
   "/gundem/"; "/duyuru/"; "/haber/"; "/content/";
   "/blogs/"; "/articles/"; "/posts/"; "/news-item/";
   "/icerik/"].

(** [[...new Set(l)]]: the first occurrence of each string, in order. *)
Definition unique (l : list string) : list string :=
  fold_left (fun seen x => if mem_string x seen then seen else seen ++ [x]) l [].

(** [extractBlogPostUrls], lines 1083-1108. *)
Definition extractBlogPostUrls (categoryUrls : list string) : list string :=
  unique
    (fold_left
       (fun allBlogPostUrls url =>
          match
            document ← http_get_dom W url;
            let links :=
              List.filter
                (fun href =>
                   existsb (fun pattern =>
                              Js.includes (Js.toLowerCase href) (Js.toLowerCase pattern))
                           blogPostPatterns)
                (Js.filter_Boolean (link_hrefs document)) in
            Promise_all (map (fun link => resolve link url) links)
          with
          | Ok absoluteLinks => allBlogPostUrls ++ absoluteLinks
          | Throw _ => allBlogPostUrls
          end)
       categoryUrls []).

(** The items of [processInBatches] that carry a [data]: what
    [categoryData.forEach(({ url, data }) => { if (data) result[url] = data })]
    writes. *)
Definition merge_batch (result : PageMap) (categoryData : list (BatchItem (string * PageData)))
    : PageMap :=
  fold_left
    (fun result item =>
       match item with
       | Value (url, data) => <[url := data]> result
       | ErrorObject _ => result
       end)
    categoryData result.

(** [processAllUrls], lines 1543-1625. *)
Definition processAllUrls (urls : list string) : Result PageMap :=
  (* the tracing of the first five URLs parses each of them *)
  _ ← Promise_all (map (construct_URL P) (take 5 urls));
  categorizedUrls ←
    fold_left (fun acc url =>
                 categorizedUrls ← acc;
                 category ← categorizeUrl P (JsString url);
                 push_url categorizedUrls category url)
              urls (Ok empty_buckets);
  let categorizedUrls :=
    if negb (is_nil (Bucket.category categorizedUrls))
       && is_nil (Bucket.product categorizedUrls)
    then Bucket.with_product categorizedUrls
           (extractProductUrlsFromCategories (Bucket.category categorizedUrls))
    else categorizedUrls in
  categorizedUrls ←
    (if is_nil (Bucket.blog categorizedUrls) then
       (* [urls[0]] is [undefined] when there is no URL *)
       first ← construct_URL P (default "undefined" (head urls));
       let baseUrl := origin first in
       Ok (Bucket.with_blog categorizedUrls (extractBlogUrlsFromSite baseUrl))
     else Ok categorizedUrls);
  let blogCategoryUrls :=
    List.filter (fun url => Js.includes (Js.toLowerCase url) "/blog/")
                (Bucket.category categorizedUrls) in
  let categorizedUrls :=
    if negb (is_nil blogCategoryUrls) then
      let blogPostUrls := extractBlogPostUrls blogCategoryUrls in
      let newBlogPostUrls :=
        List.filter (fun url => negb (mem_string url (Bucket.blog categorizedUrls)))
                    blogPostUrls in
      Bucket.with_blog categorizedUrls (Bucket.blog categorizedUrls ++ newBlogPostUrls)
    else categorizedUrls in
  fold_left (fun acc '(category, categoryUrls) =>
               result ← acc;
               categoryData ←
                 processInBatches categoryUrls
                   (fun url =>
                      data ← ensureSingleUrlData P W url category;
                      Ok (url, data));
               Ok (merge_batch result categoryData))
            (bucket_entries categorizedUrls) (Ok ∅).

(** [addCommonStaticPages], lines 1267-1291. *)
Definition addCommonStaticPages (baseUrl : string) (urls : list string) : list string :=
  let staticPatterns :=
    ["about"; "contact"; "faq"; "terms"; "privacy";
     "hakkimizda"; "iletisim"; "sss"; "gizlilik-politikasi";
     "satis-sozlesmesi"; "kargo-takibi"; "siparis-sorgula";
     "sayfa"; "pages"; "page"] in
  let staticCandidates := map (fun pattern => baseUrl +:+ "/" +:+ pattern) staticPatterns in
  let additionalUrls :=
    List.filter
      (fun candidate =>
         match http_head W candidate with
         | Ok status => Nat.eqb status 200 && negb (mem_string candidate urls)
         | Throw _ => false
         end)
      staticCandidates in
  urls ++ additionalUrls.

End Pipeline.

(** ** Coverage guarantor and statistics *)

(** [data.type === t] *)
Definition has_type (t : string) (data : PageData) : bool :=
  match type data with
  | Some t' => String.eqb t' t
  | None => false
  end.

(** [Object.values(m).filter(item => item.type === t).length] *)
Definition count_type (t : string) (pages : list PageData) : nat :=
  length (List.filter (has_type t) pages).

(** [convertPageDataToArray], lines 1696-1703. *)
Definition convertPageDataToArray (pageData : PageMap) : list PageData :=
  map (fun data =>
         with_type data (default "others" (Js.or_else (type data) (Some "others"))))
      (Object_values pageData).

Module Stats.

(** The object [getPageStats] builds. *)
Record PageStats := {
  all : nat;
  product : nat;
  blog : nat;
  category : nat;
  static : nat
}.

End Stats.
Export Stats (PageStats).

(** The names every object inherits from [Object.prototype]: for them
    [stats[type]] is defined although [stats] has no such counter. *)
Definition inherited_names : list string :=
  ["constructor"; "__proto__"; "hasOwnProperty"; "isPrototypeOf";
   "propertyIsEnumerable"; "toLocaleString"; "toString"; "valueOf";
   "__defineGetter__"; "__defineSetter__"; "__lookupGetter__"; "__lookupSetter__"].

(** The body of the [forEach] of [getPageStats], lines 1720-1726. *)
Definition count_page (stats : PageStats) (data : PageData) : PageStats :=
  let 'Stats.Build_PageStats a p b c s := stats in
  let a := S a in
  let type := default "static" (Js.or_else (type data) (Some "static")) in
  if String.eqb type "all" then Stats.Build_PageStats (S a) p b c s
  else if String.eqb type "product" then Stats.Build_PageStats a (S p) b c s
  else if String.eqb type "blog" then Stats.Build_PageStats a p (S b) c s
  else if String.eqb type "category" then Stats.Build_PageStats a p b (S c) s
  else if String.eqb type "static" then Stats.Build_PageStats a p b c (S s)
  else if existsb (String.eqb type) inherited_names then Stats.Build_PageStats a p b c s
  else Stats.Build_PageStats a p b c (S s).

(** [getPageStats], lines 1710-1730. *)
Definition getPageStats (pageData : PageMap) : PageStats :=
  fold_left count_page (Object_values pageData)
    {| Stats.all := 0; Stats.product := 0; Stats.blog := 0;
       Stats.category := 0; Stats.static := 0 |}.

Section Coverage.

Variable W : World.

(** [ensureMinimumPageTypes], lines 1806-1940. *)
Definition ensureMinimumPageTypes (baseUrl : string) (processedData : PageMap) : PageMap :=
  let result := processedData in
  let normalizedBaseUrl := Js.strip_trailing_slashes baseUrl in
  let isTurkishSite :=
    existsb (fun url =>
               Js.includes url "/sayfa/" || Js.includes url "/kategori/"
               || Js.includes url "/icerik/" || Js.includes url "/hakkimizda"
               || Js.includes url "/iletisim")
            (Object_keys result) in
  let staticUrlPrefix := if isTurkishSite then "/sayfa/" else "/" in
  let blogUrlPrefix := if isTurkishSite then "/blog/icerik/" else "/blog/" in
  let categoryUrlPrefix := if isTurkishSite then "/kategori/" else "/category/" in
  let staticPages :=
    if isTurkishSite then
      [(staticUrlPrefix +:+ "hakkimizda", "Hakkımızda", "Şirketimiz hakkında bilgi edinin.");
       (staticUrlPrefix +:+ "iletisim", "İletişim", "Bizimle iletişime geçin.");
       (staticUrlPrefix +:+ "gizlilik-politikasi", "Gizlilik Politikası",
        "Gizlilik politikamız hakkında bilgi.");
       (staticUrlPrefix +:+ "satis-sozlesmesi", "Satış Sözleşmesi",
        "Satış koşullarımız ve şartlarımız.");
       (staticUrlPrefix +:+ "sikca-sorulan-sorular", "Sıkça Sorulan Sorular",
        "En çok sorulan sorular ve cevapları.")]
    else
      [(staticUrlPrefix +:+ "about-us", "About Us", "Learn about our company and mission.");
       (staticUrlPrefix +:+ "contact", "Contact Us", "Get in touch with our team.");
       (staticUrlPrefix +:+ "privacy-policy", "Privacy Policy",
        "How we handle and protect your data.");
       (staticUrlPrefix +:+ "terms-of-service", "Terms of Service",
        "Our terms and conditions.");
       (staticUrlPrefix +:+ "faq", "Frequently Asked Questions",
        "Answers to common questions.")] in
  let result :=
    fold_left
      (fun result '(path, title, desc) =>
         let url := normalizedBaseUrl +:+ path in
         <[url := {| url := url; title := Some title; description := Some desc;
                     price := None; stockStatus := None; images := None;
                     category := None; date := None; features := None;
                     breadcrumb := None; blogContent := None; blogCategories := None;
                     timestamp := Some (now W); error := None;
                     type := Some "static" |}]> result)
      staticPages result in
  let blogPosts :=
    if isTurkishSite then
      [("yeni-urunlerimiz-hakkinda", "Yeni Ürünlerimiz Hakkında", "Yeni ürünlerimizi inceleyin.");
       ("musteri-deneyimleri", "Müşteri Deneyimleri", "Müşterilerimizin deneyimlerini okuyun.");
       ("sektor-haberleri", "Sektör Haberleri", "Sektördeki son gelişmeler.")]
    else
      [("new-product-announcement", "New Product Announcement", "Check out our newest products.");
       ("customer-testimonials", "Customer Testimonials",
        "Read about our customers' experiences.");
       ("industry-news", "Industry News", "Latest developments in our industry.")] in
  let result :=
    fold_left
      (fun result '(slug, title, desc) =>
         let url := normalizedBaseUrl +:+ blogUrlPrefix +:+ slug in
         <[url := {| url := url; title := Some title; description := Some desc;
                     price := None; stockStatus := None;
                     images := Some ["https://via.placeholder.com/800x400?text="
                                     +:+ Js.encodeURIComponent title];
                     category := None; date := Some (today W); features := None;
                     breadcrumb := None;
                     blogContent := Some (if isTurkishSite
                                          then "Bu bir örnek blog yazısıdır."
                                          else "This is a sample blog post.");
                     blogCategories := Some (if isTurkishSite
                                             then ["Genel"; "Haberler"]
                                             else ["General"; "News"]);
                     timestamp := Some (now W); error := None;
                     type := Some "blog" |}]> result)
      blogPosts result in
  let blogIndexUrl := normalizedBaseUrl +:+ "/blog" in
  let result :=
    <[blogIndexUrl := {| url := blogIndexUrl; title := Some "Blog";
                         description := Some (if isTurkishSite then "Blog yazılarımız"
                                              else "Our blog posts");
                         price := None; stockStatus := None; images := None;
                         category := None; date := None; features := None;
                         breadcrumb := None; blogContent := None; blogCategories := None;
                         timestamp := Some (now W); error := None;
                         type := Some "static" |}]> result in
  if (count_type "category" (Object_values result) <? 3)%nat then
    let categories :=
      if isTurkishSite then
        [("yeni-gelenler", "Yeni Gelenler", "En yeni ürünlerimiz.");
         ("en-cok-satanlar", "En Çok Satanlar", "En popüler ürünlerimiz.");
         ("indirimli-urunler", "İndirimli Ürünler", "İndirimli ürünlerimiz.")]
      else
        [("new-arrivals", "New Arrivals", "Our newest products.");
         ("best-sellers", "Best Sellers", "Our most popular products.");
         ("sale-items", "Sale Items", "Products with special discounts.")] in
    fold_left
      (fun result '(slug, name, desc) =>
         let url := normalizedBaseUrl +:+ categoryUrlPrefix +:+ slug in
         <[url := {| url := url; title := Some name; description := Some desc;
                     price := None; stockStatus := None;
                     images := Some ["https://via.placeholder.com/800x400?text="
                                     +:+ Js.encodeURIComponent name];
                     category := Some name; date := None; features := None;
                     breadcrumb := None; blogContent := None; blogCategories := None;
                     timestamp := Some (now W); error := None;
                     type := Some "category" |}]> result)
      categories result
  else result.

End Coverage.

Section Aggregator.

Variable P : Platform.
Variable W : World.

(** [processSitemap], lines 1737-1782. *)
Definition processSitemap (siteUrl : string) : Result (PageMap * PageStats) :=
  urls ← fetchSitemapUrls P W siteUrl 0;
  let allUrls := addCommonStaticPages W siteUrl urls in
  pageData ← processAllUrls P W allUrls;
  let pageData := ensureMinimumPageTypes W siteUrl pageData in
  let pageData :=
    if negb (existsb (has_type "blog") (Object_values pageData)) then
      let blogUrl := Js.strip_trailing_slashes siteUrl +:+ "/blog/sample-post" in
      <[blogUrl := {| url := blogUrl; title := Some "Sample Blog Post";
                      description :=
                        Some "This is a sample blog post created automatically.";
                      price := None; stockStatus := None;
                      images :=
                        Some ["https://via.placeholder.com/800x400?text=Sample+Blog+Post"];
                      category := None; date := Some (today W); features := None;
                      breadcrumb := None;
                      blogContent :=
                        Some "This is a sample blog post content. The actual content would be fetched from the website.";
                      blogCategories := Some ["Sample"; "Blog"];
                      timestamp := Some (now W); error := None;
                      type := Some "blog" |}]> pageData
    else pageData in
  let stats := getPageStats pageData in
  Ok (pageData, stats).

End Aggregator.

(** ** The [POST /api/urls] route *)

Module Route.

(** [ToString(v)] for a scalar. *)
Definition ToString (v : JsValue) : string :=
  match v with
  | JsUndefined => "undefined"
  | JsNull => "null"
  | JsBool true => "true"
  | JsBool false => "false"
  | JsNumber z => Js.Number_toString z
  | JsString s => s
  | JsObject => "[object Object]"
  end.

(** [!v] is false *)
Definition truthy (v : JsValue) : bool :=
  match v with
  | JsUndefined | JsNull | JsBool false => false
  | JsNumber z => negb (z =? 0)%Z
  | JsString s => negb (Js.is_empty s)
  | JsBool true | JsObject => true
  end.

(** [items.slice(0, end)]; [None] is [NaN], which counts as 0; a negative
    end counts from the end of the array. *)
Definition slice_to {A} (items : list A) (end_ : option Z) : list A :=
  match end_ with
  | None => []
  | Some e =>
      if (e <? 0)%Z then take (Z.to_nat (Z.of_nat (length items) + e)) items
      else take (Z.to_nat e) items
  end.

(** Line 89: [maxUrls === 'all' ? urls : urls.slice(0, parseInt(maxUrls))]. *)
Definition limitedUrls (maxUrls : JsValue) (urls : list string) : list string :=
  match maxUrls with
  | JsString "all" => urls
  | _ => slice_to urls (Js.parseInt (ToString maxUrls))
  end.

(** The [stats] object of lines 114-123. *)
Record RouteStats := {
  total : nat;
  crawled : nat;
  failed : nat;
  product : nat;
  blog : nat;
  category : nat;
  static : nat;
  others : nat
}.

Definition page_stats (pageDataArray : list PageData) : RouteStats :=
  {| total := length pageDataArray;
     crawled := length pageDataArray;
     failed := 0;
     product := count_type "product" pageDataArray;
     blog := count_type "blog" pageDataArray;
     category := count_type "category" pageDataArray;
     static := count_type "static" pageDataArray;
     others := count_type "others" pageDataArray |}.

Record PostResult := {
  results : list PageData;
  categorized : Buckets;
  stats : RouteStats
}.

Inductive Response :=
| BadRequest (error : string)      (* status 400 *)
| Success (body : PostResult)      (* status 200 *)
| ServerError (error : string).    (* status 500 *)

Record RequestBody := { sitemapUrl : JsValue; maxUrls : JsValue }.

Section Handler.

Variable P : Platform.
Variable W : World.

(** Lines 91-155: the answer for the URLs selected, or for the error that
    was thrown on the way to them. *)
Definition answer (selection : Result (list string)) : Response :=
  match
    limitedUrls ← selection;
    categorizedUrls ← categorizeUrls P limitedUrls;
    pageData ← processAllUrls P W limitedUrls;
    let pageDataArray := convertPageDataToArray pageData in
    let stats := page_stats pageDataArray in
    updatedCategorized ←
      fold_left
        (fun acc page =>
           updatedCategorized ← acc;
           let type := default "others" (Js.or_else (type page) (Some "others")) in
           push_url updatedCategorized type (url page))
        pageDataArray (Ok empty_buckets);
    Ok {| results := pageDataArray; categorized := updatedCategorized; stats := stats |}
  with
  | Ok body => Success body
  | Throw error =>
      ServerError (if Js.is_empty (err_message error) then "Internal server error"
                   else err_message error)
  end.

(** [POST] from line 80 on: the handler once the two fields of the body are
    read, for fields that are scalars. *)
Definition POST (body : RequestBody) : Response :=
  if negb (truthy (sitemapUrl body)) then BadRequest "sitemapUrl parameter is required"
  else
    answer
      (urls ←
         match sitemapUrl body with
         | JsString sitemapUrl => fetchSitemapUrls P W sitemapUrl 0
         | _ => Ok []     (* [sitemapUrl.toLowerCase] is not a function: caught *)
         end;
       Ok (limitedUrls (maxUrls body) urls)).

End Handler.

End Route.

(** The handler as the server calls it, on whatever the request holds. *)
Module PostRoute.

Section Handler.

Variable P : Platform.
Variable W : World.

(** Line 78, [const { sitemapUrl, maxUrls } = ...]: [null] has no property
    to read (the wording of the error is the engine's); any other value
    gives [undefined] for a name it does not have. *)
Definition destructure (body : Json.value)
    : Result (option Json.value * option Json.value) :=
  match body with
  | Json.Null =>
      Throw (TypeError
               "Cannot destructure property 'sitemapUrl' of '(intermediate value)' as it is null.")
  | _ => Ok (Json.get body "sitemapUrl", Json.get body "maxUrls")
  end.

(** Line 88, [await fetchSitemapUrls(sitemapUrl)]. *)
Definition discover (sitemapUrl : option Json.value) : Result (list string) :=
  match sitemapUrl with
  | Some (Json.Str sitemapUrl) => fetchSitemapUrls P W sitemapUrl 0
  | _ => Ok []     (* [sitemapUrl.toLowerCase] is not a function: caught *)
  end.

(** Line 89: [maxUrls === 'all' ? urls : urls.slice(0, parseInt(maxUrls))]. *)
Definition limitedUrls (maxUrls : option Json.value) (urls : list string)
    : Result (list string) :=
  match maxUrls with
  | Some (Json.Str "all") => Ok urls
  | Some v => text ← Json.ToString v; Ok (Route.slice_to urls (Js.parseInt text))
  | None => Ok (Route.slice_to urls (Js.parseInt "undefined"))
  end.

(** Lines 88-89: the URLs the request selects. *)
Definition selection (body : Json.value) : Result (list string) :=
  urls ← discover (Json.get body "sitemapUrl");
  limitedUrls (Json.get body "maxUrls") urls.

(** [POST], lines 76-156.  [request] is the outcome of [await
    request.json()]: the parsed body, or the error of a body that cannot be
    read. *)
Definition POST (request : Result Json.value) : Route.Response :=
  match body ← request; fields ← destructure body; Ok (body, fields) with
  | Throw error =>
      Route.ServerError (if Js.is_empty (err_message error) then "Internal server error"
                         else err_message error)
  | Ok (body, (sitemapUrl, maxUrls)) =>
      if negb (Json.truthy sitemapUrl)
      then Route.BadRequest "sitemapUrl parameter is required"
      else Route.answer P W (selection body)
  end.

End Handler.

End PostRoute.

(** ** Vocabulary of the properties *)

(** What a slot holds once the rejection of its promise is caught. *)
Definition settled {R} (p : Result R) : BatchItem R :=
  match p with
  | Ok r => Value r
  | Throw error => ErrorObject error
  end.

(** The URLs a finished call contributes to its parent. *)
Definition urls_of (r : Result (list string)) : list string :=
  match r with
  | Ok urls => urls
  | Throw _ => []
  end.

(** The five category labels. *)
Definition labels : list string := ["product"; "category"; "blog"; "static"; "others"].

(** A record whose [type] is one of the five labels. *)
Definition is_labelled (data : PageData) : bool :=
  match type data with
  | Some t => mem_string t labels
  | None => false
  end.

(** A map all of whose records are labelled, as the pipeline builds them. *)
Definition labelled_map (m : PageMap) : Prop :=
  map_Forall (fun _ data => is_labelled data = true) m.

(** The paths of the synthetic pages of [ensureMinimumPageTypes], for the
    two locales. *)
Definition synthetic_paths : list string :=
  ["/sayfa/hakkimizda"; "/sayfa/iletisim"; "/sayfa/gizlilik-politikasi";
   "/sayfa/satis-sozlesmesi"; "/sayfa/sikca-sorulan-sorular";
   "/about-us"; "/contact"; "/privacy-policy"; "/terms-of-service"; "/faq";
   "/blog/icerik/yeni-urunlerimiz-hakkinda"; "/blog/icerik/musteri-deneyimleri";
   "/blog/icerik/sektor-haberleri";
   "/blog/new-product-announcement"; "/blog/customer-testimonials";
   "/blog/industry-news";
   "/blog";
   "/kategori/yeni-gelenler"; "/kategori/en-cok-satanlar"; "/kategori/indirimli-urunler";
   "/category/new-arrivals"; "/category/best-sellers"; "/category/sale-items"].

Definition synthetic_urls (baseUrl : string) : list string :=
  map (fun path => Js.strip_trailing_slashes baseUrl +:+ path) synthetic_paths.

(** The test [isTurkishSite] of [ensureMinimumPageTypes], lines 1811-1817. *)
Definition isTurkishSite (processedData : PageMap) : bool :=
  existsb (fun url =>
             Js.includes url "/sayfa/" || Js.includes url "/kategori/"
             || Js.includes url "/icerik/" || Js.includes url "/hakkimizda"
             || Js.includes url "/iletisim")
          (Object_keys processedData).

(** The records [ensureMinimumPageTypes] writes, as the three loops and the
    assignment of lines 1845-1935 build them. *)
Definition synthetic_static (W : World) (url title desc : string) : PageData :=
  {| url := url; title := Some title; description := Some desc;
     price := None; stockStatus := None; images := None; category := None;
     date := None; features := None; breadcrumb := None; blogContent := None;
     blogCategories := None; timestamp := Some (now W); error := None;
     type := Some "static" |}.

Definition synthetic_blog (W : World) (turkish : bool) (url title desc : string)
    : PageData :=
  {| url := url; title := Some title; description := Some desc;
     price := None; stockStatus := None;
     images := Some ["https://via.placeholder.com/800x400?text="
                     +:+ Js.encodeURIComponent title];
     category := None; date := Some (today W); features := None; breadcrumb := None;
     blogContent := Some (if turkish then "Bu bir örnek blog yazısıdır."
                          else "This is a sample blog post.");
     blogCategories := Some (if turkish then ["Genel"; "Haberler"]
                             else ["General"; "News"]);
     timestamp := Some (now W); error := None; type := Some "blog" |}.

Definition synthetic_category (W : World) (url name desc : string) : PageData :=
  {| url := url; title := Some name; description := Some desc;
     price := None; stockStatus := None;
     images := Some ["https://via.placeholder.com/800x400?text="
                     +:+ Js.encodeURIComponent name];
     category := Some name; date := None; features := None; breadcrumb := None;
     blogContent := None; blogCategories := None;
     timestamp := Some (now W); error := None; type := Some "category" |}.

(** The nine pages every call writes: five static pages and three blog
    posts of the locale of the site, and the blog index. *)
Definition essential_pages (W : World) (baseUrl : string) (processedData : PageMap)
    : list (string * PageData) :=
  let base := Js.strip_trailing_slashes baseUrl in
  let turkish := isTurkishSite processedData in
  let static url title desc := (base +:+ url, synthetic_static W (base +:+ url) title desc) in
  let blog url title desc :=
    (base +:+ url, synthetic_blog W turkish (base +:+ url) title desc) in
  (if turkish then
     [static "/sayfa/hakkimizda" "Hakkımızda" "Şirketimiz hakkında bilgi edinin.";
      static "/sayfa/iletisim" "İletişim" "Bizimle iletişime geçin.";
      static "/sayfa/gizlilik-politikasi" "Gizlilik Politikası"
             "Gizlilik politikamız hakkında bilgi.";
      static "/sayfa/satis-sozlesmesi" "Satış Sözleşmesi"
             "Satış koşullarımız ve şartlarımız.";
      static "/sayfa/sikca-sorulan-sorular" "Sıkça Sorulan Sorular"
             "En çok sorulan sorular ve cevapları.";
      blog "/blog/icerik/yeni-urunlerimiz-hakkinda" "Yeni Ürünlerimiz Hakkında"
           "Yeni ürünlerimizi inceleyin.";
      blog "/blog/icerik/musteri-deneyimleri" "Müşteri Deneyimleri"
           "Müşterilerimizin deneyimlerini okuyun.";
      blog "/blog/icerik/sektor-haberleri" "Sektör Haberleri"
           "Sektördeki son gelişmeler.";
      static "/blog" "Blog" "Blog yazılarımız"]
   else
     [static "/about-us" "About Us" "Learn about our company and mission.";
      static "/contact" "Contact Us" "Get in touch with our team.";
      static "/privacy-policy" "Privacy Policy" "How we handle and protect your data.";
      static "/terms-of-service" "Terms of Service" "Our terms and conditions.";
      static "/faq" "Frequently Asked Questions" "Answers to common questions.";
      blog "/blog/new-product-announcement" "New Product Announcement"
           "Check out our newest products.";
      blog "/blog/customer-testimonials" "Customer Testimonials"
           "Read about our customers' experiences.";
      blog "/blog/industry-news" "Industry News" "Latest developments in our industry.";
      static "/blog" "Blog" "Our blog posts"]).

(** The three category pages of the locale, written when fewer than three
    records have the type [category] once the nine pages are in. *)
Definition category_pages (W : World) (baseUrl : string) (processedData : PageMap)
    : list (string * PageData) :=
  let base := Js.strip_trailing_slashes baseUrl in
  let category url name desc :=
    (base +:+ url, synthetic_category W (base +:+ url) name desc) in
  if isTurkishSite processedData then
    [category "/kategori/yeni-gelenler" "Yeni Gelenler" "En yeni ürünlerimiz.";
     category "/kategori/en-cok-satanlar" "En Çok Satanlar" "En popüler ürünlerimiz.";
     category "/kategori/indirimli-urunler" "İndirimli Ürünler" "İndirimli ürünlerimiz."]
  else
    [category "/category/new-arrivals" "New Arrivals" "Our newest products.";
     category "/category/best-sellers" "Best Sellers" "Our most popular products.";
     category "/category/sale-items" "Sale Items" "Products with special discounts."].

(** [result[url] = record], for each page of a list in turn. *)
Definition write_pages (pages : list (string * PageData)) (result : PageMap) : PageMap :=
  fold_left (fun result '(url, record) => <[url := record]> result) pages result.

(** The pages one call writes. *)
Definition written_pages (W : World) (baseUrl : string) (processedData : PageMap)
    : list (string * PageData) :=
  let essential := essential_pages W baseUrl processedData in
  essential ++
  if (count_type "category" (Object_values (write_pages essential processedData)) <? 3)%nat
  then category_pages W baseUrl processedData
  else [].

(** ** Example worlds *)

Module Examples.

Definition network_error : JsError :=
  {| err_name := "Error"; err_message := "Network Error" |}.

(** A world in which every request fails. *)
Definition offline : World :=
  {| now := "2024-01-01T00:00:00.000Z";
     http_head := fun _ => Throw network_error;
     http_get_text := fun _ => Throw network_error;
     http_get_xml := fun _ => Throw network_error;
     http_get_dom := fun _ => Throw network_error |}.

(** A site whose sitemap lists two pages; no page of it can be fetched. *)
Definition small_site : World :=
  {| now := "2024-01-01T00:00:00.000Z";
     http_head := fun _ => Throw network_error;
     http_get_text := fun _ => Throw network_error;
     http_get_xml := fun url =>
       if String.eqb url "https://x/sitemap.xml"
       then Ok (UrlSet [Some "https://x/about"; Some "https://x/random/xyz"])
       else Throw network_error;
     http_get_dom := fun _ => Throw network_error |}.

(** A sitemap index that lists a URL set, a sitemap that is missing, and
    itself. *)
Definition cyclic_site : World :=
  {| now := "2024-01-01T00:00:00.000Z";
     http_head := fun _ => Throw network_error;
     http_get_text := fun _ => Throw network_error;
     http_get_xml := fun url =>
       if String.eqb url "https://x/sitemap.xml"
       then Ok (SitemapIndex [Some "https://x/sitemap-pages.xml";
                              Some "https://x/sitemap-missing.xml";
                              Some "https://x/sitemap.xml"])
       else if String.eqb url "https://x/sitemap-pages.xml"
       then Ok (UrlSet [Some "https://x/urun/1"; Some "not a url"])
       else Throw network_error;
     http_get_dom := fun _ => Throw network_error |}.

(** A document in which no selector matches anything. *)
Definition blank_document : Document :=
  {| doc_title := EmptyString;
     querySelectorAll := fun _ => [];
     innerHTML := EmptyString |}.

(** A site that serves a blank page for one blog post. *)
Definition blank_blog : World :=
  {| now := "2024-01-01T00:00:00.000Z";
     http_head := fun _ => Throw network_error;
     http_get_text := fun _ => Throw network_error;
     http_get_xml := fun _ => Throw network_error;
     http_get_dom := fun url =>
       if String.eqb url "https://x/blog/post-1" then Ok blank_document
       else Throw network_error |}.

(** A blog post with an Open Graph image and one category link. *)
Definition tagged_document : Document :=
  {| doc_title := "A post";
     querySelectorAll := fun selector =>
       if String.eqb selector (Js.quoted "meta[property='og:image']")
       then [{| getAttribute := fun name =>
                  if String.eqb name "content" then Some "https://x/cover.png" else None;
                textContent := EmptyString |}]
       else if String.eqb selector ".post-categories a"
       then [{| getAttribute := fun _ => None; textContent := " News " |}]
       else [];
     innerHTML := EmptyString |}.

(** A site that serves that page for one blog post. *)
Definition tagged_blog : World :=
  {| now := "2024-01-01T00:00:00.000Z";
     http_head := fun _ => Throw Examples.network_error;
     http_get_text := fun _ => Throw Examples.network_error;
     http_get_xml := fun _ => Throw Examples.network_error;
     http_get_dom := fun url =>
       if String.eqb url "https://x/blog/post-2" then Ok tagged_document
       else Throw Examples.network_error |}.

(** The record of a real blog index page, as the extractor could build it. *)
Definition real_blog_index : PageData :=
  {| url := "https://x/blog"; title := Some "Our journal";
     description := Some "Everything we have written so far."; price := None;
     stockStatus := None; images := Some ["https://x/img/journal.png"];
     category := None; date := Some "2023-11-05"; features := None;
     breadcrumb := None; blogContent := None;
     blogCategories := Some ["Uncategorized"];
     timestamp := Some "2024-01-01T00:00:00.000Z"; error := None;
     type := Some "blog" |}.

End Examples.

(** ** The rest of the page-data functions *)

Section Backfill.

Variable P : Platform.
Variable W : World.

(** [urls.filter(url => !result[url])]: the URLs that have no record yet.
    [result] is a plain object, so [result[url]] is also defined for the
    names it inherits from [Object.prototype]. *)
Definition without_record (result : PageMap) (urls : list string) : list string :=
  List.filter
    (fun url =>
       match result !! url with
       | Some _ => false
       | None => negb (existsb (String.eqb url) inherited_names)
       end)
    urls.

(** [ensureCategoryData], lines 1298-1327. *)
Definition ensureCategoryData (categoryUrls : list string) (extractedData : PageMap)
    : Result PageMap :=
  let result := extractedData in
  let urlsToProcess := without_record result categoryUrls in
  if is_nil urlsToProcess then Ok result else
    categoryData ←
      processInBatches urlsToProcess
        (fun url =>
           try_catch
             (data ← extractPageData P W url;
              Ok (url, with_type data "category"))
             (fun error =>
                Ok (url, {| url := url; title := None; description := None;
                            price := None; stockStatus := None; images := None;
                            category := None; date := None; features := None;
                            breadcrumb := None; blogContent := None;
                            blogCategories := None; timestamp := None;
                            error := Some (String_of_error error);
                            type := Some "category" |})));
    Ok (merge_batch result categoryData).

(** [ensureStaticPageData], lines 1335-1382. *)
Definition ensureStaticPageData (staticUrls : list string) (extractedData : PageMap)
    : Result PageMap :=
  let result := extractedData in
  let urlsToProcess := without_record result staticUrls in
  if is_nil urlsToProcess then Ok result else
    staticData ←
      processInBatches urlsToProcess
        (fun url =>
           try_catch
             (data ← extractPageData P W url;
              Ok (url, with_type data "static"))
             (fun error =>
                Ok (url, {| url := url;
                            title :=
                              Js.or_else (Js.dashes_to_spaces <$> last (Js.split "/" url))
                                         (Some "Static Page");
                            description := None;
                            price := None; stockStatus := None; images := None;
                            category := None; date := None; features := None;
                            breadcrumb := None; blogContent := None;
                            blogCategories := None; timestamp := Some (now W);
                            error := Some (String_of_error error);
                            type := Some "static" |})));
    Ok (merge_batch result staticData).

(** [ensureProductData], lines 1630-1657. *)
Definition ensureProductData (productUrls : list string) (extractedData : PageMap)
    : Result PageMap :=
  let result := extractedData in
  let urlsToProcess := without_record result productUrls in
  if is_nil urlsToProcess then Ok result else
    productData ←
      processInBatches urlsToProcess
        (fun url =>
           try_catch
             (data ← extractPageData P W url;
              Ok (url, with_type data "product"))
             (fun error =>
                Ok (url, {| url := url; title := None; description := None;
                            price := None; stockStatus := None; images := None;
                            category := None; date := None; features := None;
                            breadcrumb := None; blogContent := None;
                            blogCategories := None; timestamp := None;
                            error := Some (String_of_error error);
                            type := Some "product" |})));
    Ok (merge_batch result productData).

(** [result[url] = data] for each item of a batch that ran over arbitrary
    strings: the assignment to the name [__proto__] sets the prototype of
    [result] and adds no property. *)
Definition own_writes (items : list (BatchItem (string * PageData)))
    : list (BatchItem (string * PageData)) :=
  List.filter
    (fun item =>
       match item with
       | Value (url, _) => negb (String.eqb url "__proto__")
       | ErrorObject _ => true
       end)
    items.

(** [ensureBlogData], lines 1662-1689: once a blog URL has no record, the
    batch runs over [blogUrls], not over [urlsToProcess]. *)
Definition ensureBlogData (blogUrls : list string) (extractedData : PageMap)
    : Result PageMap :=
  let result := extractedData in
  let urlsToProcess := without_record result blogUrls in
  if is_nil urlsToProcess then Ok result else
    blogData ←
      processInBatches blogUrls
        (fun url =>
           try_catch
             (data ← extractPageData P W url;
              Ok (url, with_type data "blog"))
             (fun error =>
                Ok (url, {| url := url; title := None; description := None;
                            price := None; stockStatus := None; images := None;
                            category := None; date := None; features := None;
                            breadcrumb := None; blogContent := None;
                            blogCategories := None; timestamp := None;
                            error := Some (String_of_error error);
                            type := Some "blog" |})));
    Ok (merge_batch result (own_writes blogData)).

(** [createStaticPageData], lines 1785-1800. *)
Definition createStaticPageData (url : string) : Result PageData :=
  urlObj ← construct_URL P url;
  let pathParts :=
    List.filter (fun part => negb (Js.is_empty part)) (Js.split "/" (pathname urlObj)) in
  let lastSegment := default EmptyString (last pathParts) in
  let title := Js.title_case lastSegment in
  Ok {| url := url; title := Some title;
        description := Some ("Static page: " +:+ title);
        price := None; stockStatus := None; images := None; category := None;
        date := None; features := None; breadcrumb := None; blogContent := None;
        blogCategories := None; timestamp := Some (now W); error := None;
        type := Some "static" |}.

End Backfill.

(** ** The [GET /api/urls] route and the form that calls [POST] *)

Module GetRoute.

Inductive Response :=
| BadRequest (error : string)                    (* status 400 *)
| FetchFailed (error : string) (status : nat)    (* the body of lines 47-51 *)
| NoUrls                                         (* the warning of lines 55-58 *)
| Categorized (categorized : Buckets)
| ServerError (error : string).                  (* status 500 *)

Section Handler.

Variable P : Platform.
Variable W : World.

(** [GET], lines 9-75; [sitemapUrl] is [searchParams.get('sitemapUrl')].
    An error of the model carries no [response], so the status of line 36
    is 500. *)
Definition GET (sitemapUrl : option string) : Response :=
  if negb (Js.truthy sitemapUrl) then BadRequest "sitemapUrl parameter is required"
  else
    let sitemapUrl := default EmptyString sitemapUrl in
    match new_URL P sitemapUrl with
    | None =>
        BadRequest
          "Invalid URL format. Please provide a complete URL including http:// or https://"
    | Some _ =>
        match fetchSitemapUrls P W sitemapUrl 0 with
        | Throw _ => FetchFailed "Failed to fetch sitemap" 500
        | Ok urls =>
            if is_nil urls then NoUrls
            else
              match categorizeUrls P urls with
              | Ok categorized => Categorized categorized
              | Throw error =>
                  ServerError (if Js.is_empty (err_message error)
                               then "Internal server error" else err_message error)
              end
        end
    end.

End Handler.

End GetRoute.

Module Client.

(** [page.tsx], lines 59-67: the [maxUrls] the form sends for its
    [urlLimit] field, as [JSON.stringify] writes it ([NaN] becomes
    [null]). *)
Definition maxUrls_sent (urlLimit : string) : JsValue :=
  if String.eqb urlLimit "all" then JsString "all"
  else match Js.parseInt urlLimit with
       | Some z =>
           match Js.Number_value z with
           | Some _ => JsNumber z
           | None => JsNull
           end
       | None => JsNull
       end.

End Client.

(** [word.charAt(0).toUpperCase() + word.slice(1)] *)
Definition capitalize_first (word : string) : string :=
  match word with
  | String c rest => String (Js.upper_char c) rest
  | EmptyString => EmptyString
  end.

Definition underscore_to_space (c : ascii) : ascii :=
  if Ascii.eqb c "_" then " "%char else c.

(** [extractCategoryFromUrl], lines 2481-2497.  A pathname is made of
    ASCII characters: the parser percent-encodes the others. *)
Definition extractCategoryFromUrl (P : Platform) (url : string) : string :=
  match new_URL P url with
  | None => EmptyString
  | Some urlObj =>
      let pathParts :=
        List.filter (fun part => negb (Js.is_empty part))
                    (Js.split "/" (pathname urlObj)) in
      match last pathParts with
      | Some lastPart =>
          String.concat " "
            (map capitalize_first
                 (Js.split " " (Js.map_chars underscore_to_space
                                             (Js.dashes_to_spaces lastPart))))
      | None => EmptyString
      end
  end.

(** ** Vocabulary of the further properties *)

(** Text that can follow a string of digits without being read with it. *)
Definition ends_digits (rest : string) : bool :=
  match rest with
  | EmptyString => true
  | String c _ => negb (Js.is_digit c)
  end.

(** Text that starts with the [x] of the prefix [0x]. *)
Definition hex_mark (rest : string) : bool :=
  match rest with
  | String c _ => Ascii.eqb c "x" || Ascii.eqb c "X"
  | EmptyString => false
  end.

(** Text that can follow the decimal numeral of [n] without changing what
    [parseInt] reads: it does not go on with a digit, nor with the [x] that
    makes [0x] the prefix of a hexadecimal numeral. *)
Definition follows_numeral (n : nat) (rest : string) : bool :=
  match rest with
  | EmptyString => true
  | String c _ => negb (Js.is_digit c) && negb ((n =? 0)%nat && hex_mark rest)
  end.

(** The label [categorizeUrls] files a URL under: the label of
    [categorizeUrl], or [others] when it raises. *)
Definition filed_under (P : Platform) (url : string) : string :=
  match categorizeUrl P (JsString url) with
  | Ok category => category
  | Throw _ => "others"
  end.

(** The URLs of the pages of a given type, in order. *)
Definition urls_of_type (t : string) (pages : list PageData) : list string :=
  map url (List.filter (has_type t) pages).

(** The candidate locations [tryAlternativeSitemapUrls] probes, in order,
    given what [robots.txt] declares. *)
Definition sitemap_candidates (declared : option string) (baseUrl : string) : list string :=
  let normalizedUrl := Js.strip_one_trailing_slash baseUrl in
  match declared with Some found => [found] | None => [] end ++
  [baseUrl;
   normalizedUrl +:+ "/sitemap.xml";
   normalizedUrl +:+ "/sitemap_index.xml";
   normalizedUrl +:+ "/sitemap/sitemap.xml";
   normalizedUrl +:+ "/wp-sitemap.xml";
   normalizedUrl +:+ "/page-sitemap.xml"].

(** What [robots.txt] declares, when it can be read. *)
Definition robots_declared (P : Platform) (W : World) (baseUrl : string) : option string :=
  match new_URL P baseUrl with
  | Some base =>
      match http_get_text W (origin base +:+ "/robots.txt") with
      | Ok data => Robots.sitemap_directive data
      | Throw _ => None
      end
  | None => None
  end.

(** [axios.head(url)] answers with the status 200. *)
Definition responds_200 (W : World) (url : string) : bool :=
  match http_head W url with
  | Ok status => Nat.eqb status 200
  | Throw _ => false
  end.

(** The URLs of [urls] that [categorizeUrls] files under [label]. *)
Definition filed (P : Platform) (label : string) (urls : list string) : list string :=
  List.filter (fun url => String.eqb (filed_under P url) label) urls.

(** A URL is in one of the five buckets. *)
Definition in_buckets (u : string) (b : Buckets) : Prop :=
  In u (Bucket.product b) \/ In u (Bucket.category b) \/ In u (Bucket.blog b)
  \/ In u (Bucket.static b) \/ In u (Bucket.others b).

(** The URLs of a list of pages, grouped by the type of the page. *)
Definition by_type (pages : list PageData) : Buckets :=
  {| Bucket.product := urls_of_type "product" pages;
     Bucket.category := urls_of_type "category" pages;
     Bucket.blog := urls_of_type "blog" pages;
     Bucket.static := urls_of_type "static" pages;
     Bucket.others := urls_of_type "others" pages |}.

(** The record [extractPageData] resolves with. *)
Definition extracted (P : Platform) (W : World) (url : string) : PageData :=
  match extractPageData P W url with
  | Ok data => data
  | Throw _ => bare_page url
  end.

(** The body of the loop of [processAllUrls] over
    [Object.entries(categorizedUrls)], lines 1609-1622. *)
Definition extraction_step (P : Platform) (W : World) :=
  fun (acc : Result PageMap) '((category, categoryUrls) : string * list string) =>
    result ← acc;
    categoryData ←
      processInBatches categoryUrls
        (fun url =>
           data ← ensureSingleUrlData P W url category;
           Ok (url, data));
    Ok (merge_batch result categoryData).

(** The URLs the routes get from [fetchSitemapUrls], and the ones [POST]
    keeps of them. *)
Definition discovered (P : Platform) (W : World) (sitemapUrl : JsValue) : list string :=
  match sitemapUrl with
  | JsString sitemapUrl => urls_of (fetchSitemapUrls P W sitemapUrl 0)
  | _ => []
  end.

Definition selected (P : Platform) (W : World) (body : Route.RequestBody) : list string :=
  Route.limitedUrls (Route.maxUrls body) (discovered P W (Route.sitemapUrl body)).

(** [data.type || 'static'], the type [getPageStats] counts a record under. *)
Definition effective_type (data : PageData) : string :=
  default "static" (Js.or_else (type data) (Some "static")).

Definition count_where (p : PageData -> bool) (pages : list PageData) : nat :=
  length (List.filter p pages).

(** The types that [getPageStats] does not count under [static]: those it
    has a counter for, and the inherited names. *)
Definition uncounted_names : list string :=
  ["all"; "product"; "blog"; "category"] ++ inherited_names.

(** The [staticPatterns] of [addCommonStaticPages], lines 1268-1273. *)
Definition commonStaticPatterns : list string :=
  ["about"; "contact"; "faq"; "terms"; "privacy";
   "hakkimizda"; "iletisim"; "sss"; "gizlilik-politikasi";
   "satis-sozlesmesi"; "kargo-takibi"; "siparis-sorgula";
   "sayfa"; "pages"; "page"].

(** A link of a fetched page that [extractBlogPostUrls] follows to [url]. *)
Definition blog_link_of (P : Platform) (W : World) (page url : string) : Prop :=
  exists document link,
    http_get_dom W page = Ok document
    /\ In (Some link) (link_hrefs document)
    /\ existsb (fun pattern => Js.includes (Js.toLowerCase link) (Js.toLowerCase pattern))
               blogPostPatterns = true
    /\ resolve P link page = Ok url.

(** What a backfill leaves at a URL when it extracts the missing pages of
    [urls] as pages of type [label]. *)
Definition backfilled (P : Platform) (W : World) (label : string) (urls : list string)
    (extractedData : PageMap) (url : string) : option PageData :=
  match extractedData !! url with
  | Some data => Some data
  | None =>
      if mem_string url urls && negb (mem_string url inherited_names)
      then Some (with_type (extracted P W url) label)
      else None
  end.

(** The batches of the loop: windows of [maxConcurrent] items. *)
Fixpoint batches_of {A} (fuel : nat) (items : list A) : list (list A) :=
  match fuel with
  | 0 => []
  | S fuel' =>
      match items with
      | [] => []
      | _ => take maxConcurrent items :: batches_of fuel' (drop maxConcurrent items)
      end
  end.

Definition batches {A} (items : list A) : list (list A) :=
  batches_of (length items) items.

(** The two steps of [Js.title_case], on one character. *)
Definition dash_to_space (c : ascii) : ascii := if Ascii.eqb c "-" then " "%char else c.

Definition capitalized (boundary : bool) (c : ascii) : ascii :=
  if boundary && Js.is_word_char c then Js.upper_char c else c.

(** The conversion of [extractCategoryFromUrl] read character by character:
    a character is capitalized when it starts the string or follows a
    space. *)
Fixpoint capitalize_after_space (start : bool) (s : string) : string :=
  match s with
  | EmptyString => EmptyString
  | String c s' =>
      String (if start then Js.upper_char c else c)
             (capitalize_after_space (Ascii.eqb c " ") s')
  end.

(** A site that serves a page without content at every address. *)
Definition blank_site : World :=
  {| now := "2024-01-01T00:00:00.000Z";
     http_head := fun _ => Throw Examples.network_error;
     http_get_text := fun _ => Throw Examples.network_error;
     http_get_xml := fun _ => Throw Examples.network_error;
     http_get_dom := fun _ => Ok Examples.blank_document |}.

(** Two keys made of the same base URL and different paths differ. *)
Ltac distinct_keys :=
  let H := fresh in
  intros H; apply (inj (String.append _)) in H; discriminate H.

(** * Properties *)

(** ** The batch scheduler *)

Lemma for_batches_step {A S} (items : list A) (body : list A -> S -> Result S) i acc :
  for_batches items body i acc =
  if lt_dec i (length items)
  then acc' ← body (slice items i (i + maxConcurrent)) acc;
       for_batches items body (i + maxConcurrent) acc'
  else Ok acc.
Proof.
  rewrite for_batches_equation_1. destruct (lt_dec i (length items)); reflexivity.
Qed.

(** A loop whose body appends [g batch] to what was accumulated appends
    [g] of everything from [i] on. *)
Lemma for_batches_append {A B} (items : list A) (g : list A -> list B)
    (body : list A -> list B -> Result (list B)) :
  (forall batch acc, body batch acc = Ok (acc ++ g batch)) ->
  g [] = [] ->
  (forall l1 l2, g (l1 ++ l2) = g l1 ++ g l2) ->
  forall i acc, for_batches items body i acc = Ok (acc ++ g (drop i items)).
Proof.
  intros Hbody Hnil Happ i.
  remember (length items - i) as n eqn:Hn. revert i Hn.
  induction n as [n IH] using lt_wf_ind. intros i Hn acc.
  rewrite for_batches_step. destruct (lt_dec i (length items)) as [Hlt|Hge].
  - rewrite Hbody. cbn.
    rewrite (IH (length items - (i + maxConcurrent))); [| unfold maxConcurrent; lia | reflexivity].
    f_equal. rewrite <- app_assoc, <- Happ. do 2 f_equal.
    unfold slice. replace (i + maxConcurrent - i) with maxConcurrent by lia.
    rewrite <- drop_drop. apply take_drop.
  - rewrite drop_ge by lia. now rewrite Hnil, app_nil_r.
Qed.

Lemma for_batches_ext {A S} (items : list A) (body1 body2 : list A -> S -> Result S) :
  (forall batch acc, body1 batch acc = body2 batch acc) ->
  forall i acc, for_batches items body1 i acc = for_batches items body2 i acc.
Proof.
  intros Hbody i.
  remember (length items - i) as n eqn:Hn. revert i Hn.
  induction n as [n IH] using lt_wf_ind. intros i Hn acc.
  rewrite !for_batches_step. destruct (lt_dec i (length items)) as [Hlt|Hge]; [|reflexivity].
  rewrite Hbody. destruct (body2 _ acc) as [acc'|e]; [|reflexivity]. cbn.
  apply (IH (length items - (i + maxConcurrent))); [unfold maxConcurrent; lia | reflexivity].
Qed.

Lemma Promise_all_caught {R} (promises : list (Result R)) :
  Promise_all (map catch_to_error_object promises) = Ok (map settled promises).
Proof.
  induction promises as [|p ps IH]; [reflexivity|].
  cbn. destruct p; cbn; rewrite IH; reflexivity.
Qed.

Lemma processInBatches_map {T R} (items : list T) (handler : T -> Result R) :
  processInBatches items handler = Ok (map (fun item => settled (handler item)) items).
Proof.
  unfold processInBatches.
  rewrite (for_batches_append items (map (fun item => settled (handler item)))).
  - reflexivity.
  - intros batch acc. rewrite Promise_all_caught. cbn. now rewrite map_map.
  - reflexivity.
  - intros. apply map_app.
Qed.

(** C6. [processInBatches] resolves, for every list of N items and every
    handler, with a list of N results in the order of the items: the slot of
    an item whose handler resolved holds the value, the slot of an item whose
    handler rejected holds the [{ error }] object, and the other slots are
    not affected by it. *)
Theorem processInBatches_isolates_failures {T R} (items : list T) (handler : T -> Result R) :
  exists results,
    processInBatches items handler = Ok results
    /\ length results = length items
    /\ forall i : nat,
         results !! i =
         (fun item => match handler item with
                      | Ok r => Value r
                      | Throw error => ErrorObject error
                      end) <$> items !! i.
Proof.
  exists (map (fun item => settled (handler item)) items). split; [|split].
  - apply processInBatches_map.
  - apply length_map.
  - intros i. rewrite list_lookup_fmap. reflexivity.
Qed.

(** ** Sitemap discovery *)

Section DiscoveryFacts.

Variable P : Platform.
Variable W : World.

Lemma fetchSitemapUrls_deep sitemapUrl depth :
  5 < depth -> fetchSitemapUrls P W sitemapUrl depth = Ok [].
Proof.
  intros Hd. rewrite fetchSitemapUrls_equation_1.
  destruct (le_lt_dec depth 5); [lia | reflexivity].
Qed.

Lemma fetchSitemapUrls_shallow sitemapUrl depth :
  depth <= 5 ->
  fetchSitemapUrls P W sitemapUrl depth =
  try_catch (fetch_node P W (fun url => fetchSitemapUrls P W url (S depth)) sitemapUrl)
            (fun _ => Ok []).
Proof.
  intros Hd. rewrite fetchSitemapUrls_equation_1.
  destruct (le_lt_dec depth 5); [reflexivity | lia].
Qed.

Lemma try_catch_recovers {A} (body : Result A) (a : A) :
  exists r, try_catch body (fun _ => Ok a) = Ok r.
Proof. destruct body; cbn; eauto. Qed.

Lemma fetchSitemapUrls_resolves sitemapUrl depth :
  exists urls, fetchSitemapUrls P W sitemapUrl depth = Ok urls.
Proof.
  destruct (le_lt_dec depth 5).
  - rewrite fetchSitemapUrls_shallow by assumption. apply try_catch_recovers.
  - rewrite fetchSitemapUrls_deep by assumption. eauto.
Qed.

Lemma fetch_node_ext (child1 child2 : string -> Result (list string)) sitemapUrl :
  (forall url, child1 url = child2 url) ->
  fetch_node P W child1 sitemapUrl = fetch_node P W child2 sitemapUrl.
Proof.
  intros Hchild. unfold fetch_node.
  destruct (resolveSitemapUrl P W sitemapUrl) as [resolved|]; [cbn | reflexivity].
  destruct (http_get_xml W resolved) as [[sitemap|url|]|]; try reflexivity. cbn.
  destruct (first_locs sitemap) as [sitemapUrls|]; [cbn | reflexivity].
  f_equal. apply for_batches_ext. intros batch acc.
  replace (map child1 batch) with (map child2 batch); [reflexivity|].
  apply map_ext. intros. symmetry. apply Hchild.
Qed.

Lemma fetch_levels_S levels sitemapUrl depth :
  fetch_levels P W (S levels) sitemapUrl depth =
  if (5 <? depth)%nat then Ok []
  else try_catch
         (fetch_node P W (fun url => fetch_levels P W levels url (S depth)) sitemapUrl)
         (fun _ => Ok []).
Proof. reflexivity. Qed.

Lemma fetch_levels_enough levels sitemapUrl depth :
  6 - depth <= levels ->
  fetch_levels P W levels sitemapUrl depth = fetchSitemapUrls P W sitemapUrl depth.
Proof.
  revert sitemapUrl depth. induction levels as [|levels IH]; intros sitemapUrl depth Hl.
  - cbn. rewrite fetchSitemapUrls_deep by lia. reflexivity.
  - rewrite fetch_levels_S. destruct (5 <? depth) eqn:Hd.
    + apply Nat.ltb_lt in Hd. rewrite fetchSitemapUrls_deep by lia. reflexivity.
    + apply Nat.ltb_ge in Hd. rewrite fetchSitemapUrls_shallow by lia.
      f_equal. apply fetch_node_ext. intros url. apply IH. lia.
Qed.

Lemma fetch_node_valid child sitemapUrl urls :
  fetch_node P W child sitemapUrl = Ok urls ->
  Forall (fun url => parses_as_URL P url = true) urls.
Proof.
  unfold fetch_node. intros H.
  destruct (resolveSitemapUrl P W sitemapUrl) as [resolved|]; [cbn in H | discriminate].
  destruct (http_get_xml W resolved) as [result|]; [cbn in H | discriminate].
  match type of H with (?urls ≫= _) = _ => destruct urls as [found|] end;
    [cbn in H | discriminate].
  injection H as <-. apply Forall_forall. intros url Hin.
  apply list_elem_of_In, filter_In in Hin. tauto.
Qed.

Lemma fetchSitemapUrls_valid sitemapUrl depth urls :
  fetchSitemapUrls P W sitemapUrl depth = Ok urls ->
  Forall (fun url => parses_as_URL P url = true) urls.
Proof.
  destruct (le_lt_dec depth 5).
  - rewrite fetchSitemapUrls_shallow by assumption.
    destruct (fetch_node P W _ sitemapUrl) as [found|] eqn:Hnode; cbn; intros [= <-].
    + eapply fetch_node_valid, Hnode.
    + constructor.
  - rewrite fetchSitemapUrls_deep by assumption. intros [= <-]. constructor.
Qed.

Lemma filter_all_true {A} (f : A -> bool) (l : list A) :
  Forall (fun x => f x = true) l -> List.filter f l = l.
Proof.
  induction 1 as [|x l Hx _ IH]; cbn; [reflexivity|]. now rewrite Hx, IH.
Qed.

Lemma first_locs_all (children : list string) :
  first_locs (Some <$> children) = Ok children.
Proof.
  induction children as [|c cs IH]; cbn; [reflexivity|]. now rewrite IH.
Qed.

Lemma Promise_all_resolved {A} (promises : list (Result A)) (value : Result A -> A) :
  Forall (fun p => p = Ok (value p)) promises ->
  Promise_all promises = Ok (map value promises).
Proof.
  induction 1 as [|p ps Hp _ IH]; cbn; [reflexivity|].
  rewrite IH. rewrite Hp at 1. reflexivity.
Qed.

Lemma urls_of_fetch sitemapUrl depth :
  fetchSitemapUrls P W sitemapUrl depth = Ok (urls_of (fetchSitemapUrls P W sitemapUrl depth)).
Proof.
  destruct (fetchSitemapUrls_resolves sitemapUrl depth) as [urls ->]. reflexivity.
Qed.

(** A sitemap index contributes what its children contribute, in order. *)
Lemma fetchSitemapUrls_index sitemapUrl depth resolved children :
  depth <= 5 ->
  resolveSitemapUrl P W sitemapUrl = Ok resolved ->
  http_get_xml W resolved = Ok (SitemapIndex (Some <$> children)) ->
  fetchSitemapUrls P W sitemapUrl depth =
  Ok (concat (map (fun child => urls_of (fetchSitemapUrls P W child (S depth))) children)).
Proof.
  intros Hd Hres Hget. rewrite fetchSitemapUrls_shallow by assumption.
  unfold fetch_node. rewrite Hres. cbn. rewrite Hget. cbn.
  rewrite first_locs_all. cbn.
  rewrite (for_batches_append children
             (fun batch =>
                concat (map (fun child => urls_of (fetchSitemapUrls P W child (S depth)))
                            batch))).
  - cbn. rewrite filter_all_true; [reflexivity|].
    apply Forall_concat, Forall_map, Forall_forall. intros child _. cbn.
    apply (fetchSitemapUrls_valid child (S depth)), urls_of_fetch.
  - intros batch acc.
    rewrite (Promise_all_resolved _ urls_of).
    + cbn. now rewrite map_map.
    + apply Forall_map, Forall_forall. intros child _. cbn. apply urls_of_fetch.
  - reflexivity.
  - intros l1 l2. now rewrite map_app, concat_app.
Qed.

(** A URL set contributes the locations that parse, in order. *)
Lemma fetchSitemapUrls_urlset sitemapUrl depth resolved locs :
  depth <= 5 ->
  resolveSitemapUrl P W sitemapUrl = Ok resolved ->
  http_get_xml W resolved = Ok (UrlSet (Some <$> locs)) ->
  fetchSitemapUrls P W sitemapUrl depth = Ok (List.filter (parses_as_URL P) locs).
Proof.
  intros Hd Hres Hget. rewrite fetchSitemapUrls_shallow by assumption.
  unfold fetch_node. rewrite Hres. cbn. rewrite Hget. cbn.
  rewrite first_locs_all. reflexivity.
Qed.

(** A node whose sitemap cannot be fetched or parsed contributes nothing. *)
Lemma fetchSitemapUrls_failed_node sitemapUrl depth resolved e :
  resolveSitemapUrl P W sitemapUrl = Ok resolved ->
  http_get_xml W resolved = Throw e ->
  fetchSitemapUrls P W sitemapUrl depth = Ok [].
Proof.
  intros Hres Hget. destruct (le_lt_dec depth 5).
  - rewrite fetchSitemapUrls_shallow by assumption.
    unfold fetch_node. rewrite Hres. cbn. rewrite Hget. reflexivity.
  - apply fetchSitemapUrls_deep. assumption.
Qed.

Lemma tryAlternativeSitemapUrls_resolves baseUrl :
  exists found, tryAlternativeSitemapUrls P W baseUrl = Ok found.
Proof.
  unfold tryAlternativeSitemapUrls.
  match goal with |- context [try_catch ?body ?h] => destruct (try_catch_recovers body
    [baseUrl;
     Js.strip_one_trailing_slash baseUrl +:+ "/sitemap.xml";
     Js.strip_one_trailing_slash baseUrl +:+ "/sitemap_index.xml";
     Js.strip_one_trailing_slash baseUrl +:+ "/sitemap/sitemap.xml";
     Js.strip_one_trailing_slash baseUrl +:+ "/wp-sitemap.xml";
     Js.strip_one_trailing_slash baseUrl +:+ "/page-sitemap.xml"]) as [variations Hv] end.
  cbv zeta. rewrite Hv. cbn. eauto.
Qed.

Lemma resolveSitemapUrl_resolves sitemapUrl :
  exists resolved, resolveSitemapUrl P W sitemapUrl = Ok resolved.
Proof.
  unfold resolveSitemapUrl.
  destruct (negb _); [|eauto].
  destruct (tryAlternativeSitemapUrls_resolves sitemapUrl) as [[found|] ->]; cbn; eauto.
Qed.

End DiscoveryFacts.

(** C7. [fetchSitemapUrls] never rejects: it resolves with a list, every
    string of which the URL parser accepts.  When the sitemap of the node
    cannot be fetched or parsed the list is empty; a URL set contributes
    its locations without those that do not parse; and a sitemap index
    contributes, in order, what each of its children contributes, a child
    that failed contributing the empty list. *)
Theorem fetchSitemapUrls_never_raises (P : Platform) (W : World) (sitemapUrl : string)
    (depth : nat) :
  exists urls resolved,
    fetchSitemapUrls P W sitemapUrl depth = Ok urls
    /\ Forall (fun url => is_Some (new_URL P url)) urls
    /\ resolveSitemapUrl P W sitemapUrl = Ok resolved
    /\ (forall e, http_get_xml W resolved = Throw e -> urls = [])
    /\ (forall locs,
          depth <= 5 ->
          http_get_xml W resolved = Ok (UrlSet (Some <$> locs)) ->
          urls = List.filter (parses_as_URL P) locs)
    /\ (forall children,
          depth <= 5 ->
          http_get_xml W resolved = Ok (SitemapIndex (Some <$> children)) ->
          urls = concat (map (fun child => urls_of (fetchSitemapUrls P W child (S depth)))
                             children)).
Proof.
  destruct (fetchSitemapUrls_resolves P W sitemapUrl depth) as [urls Hurls].
  destruct (resolveSitemapUrl_resolves P W sitemapUrl) as [resolved Hres].
  exists urls, resolved. repeat split; try assumption.
  - eapply Forall_impl; [eapply fetchSitemapUrls_valid, Hurls|].
    intros url. unfold parses_as_URL. cbn. destruct (new_URL P url); [eauto | discriminate].
  - intros e Hget. rewrite (fetchSitemapUrls_failed_node P W _ _ _ _ Hres Hget) in Hurls.
    congruence.
  - intros locs Hd Hget.
    rewrite (fetchSitemapUrls_urlset P W _ _ _ _ Hd Hres Hget) in Hurls. congruence.
  - intros children Hd Hget.
    rewrite (fetchSitemapUrls_index P W _ _ _ _ Hd Hres Hget) in Hurls. congruence.
Qed.

Lemma nests_beyond_S (P : Platform) (W : World) levels sitemapUrl depth :
  nests_beyond P W (S levels) sitemapUrl depth =
  if Depth.exceeds_limit depth then false
  else existsb (fun child => nests_beyond P W levels child (Depth.succ depth))
               (child_sitemaps P W sitemapUrl).
Proof. reflexivity. Qed.

Lemma nests_beyond_finite (P : Platform) (W : World) (n : nat) :
  forall sitemapUrl z,
    (6 - z <= Z.of_nat n)%Z ->
    nests_beyond P W (S n) sitemapUrl (Depth.Finite z) = false.
Proof.
  induction n as [|n IH]; intros sitemapUrl z Hz; rewrite nests_beyond_S;
    unfold Depth.exceeds_limit.
  - destruct (5 <? z)%Z eqn:E; [reflexivity|]. apply Z.ltb_ge in E. lia.
  - destruct (5 <? z)%Z eqn:E; [reflexivity|].
    destruct (existsb _ _) eqn:Ex; [|reflexivity].
    apply existsb_exists in Ex as (child & _ & Hchild).
    unfold Depth.succ in Hchild. rewrite IH in Hchild by lia. discriminate.
Qed.

Lemma nests_beyond_stuck (P : Platform) (W : World) sitemapUrl depth :
  Depth.exceeds_limit depth = false ->
  Depth.succ depth = depth ->
  In sitemapUrl (child_sitemaps P W sitemapUrl) ->
  forall levels, nests_beyond P W levels sitemapUrl depth = true.
Proof.
  intros Hlimit Hsucc Hself levels. induction levels as [|levels IH]; [reflexivity|].
  rewrite nests_beyond_S, Hlimit. apply existsb_exists.
  exists sitemapUrl. rewrite Hsucc. auto.
Qed.

Lemma request_with_retry_completes {A} (answers : nat -> Attempt A) (n : nat) :
  forall attempt,
    rate_limited (answers (attempt + n)) = false ->
    is_Some (request_with_retry (S n) answers attempt).
Proof.
  induction n as [|n IH]; intros attempt Hn.
  - rewrite Nat.add_0_r in Hn. cbn. rewrite Hn. destruct (answers attempt); eauto.
  - cbn [request_with_retry]. destruct (rate_limited (answers attempt)) eqn:E.
    + apply IH. now replace (S attempt + n) with (attempt + S n) by lia.
    + destruct (answers attempt); eauto.
Qed.

Lemma request_with_retry_rate_limited {A} (answers : nat -> Attempt A) :
  (forall n, rate_limited (answers n) = true) ->
  forall fuel attempt, request_with_retry fuel answers attempt = None.
Proof.
  intros Hall fuel. induction fuel as [|fuel IH]; intros attempt; [reflexivity|].
  cbn. rewrite Hall. apply IH.
Qed.



(** ** The URL classifier *)

(** C3 (as the code has it). [categorizeUrl] returns ['static'] for every
    value that is not a string and for the empty string; for a string the
    URL parser accepts it returns exactly one of the five labels; for a
    non-empty string the parser rejects it raises the parser's [TypeError]. *)
Theorem categorizeUrl_outcomes (P : Platform) (url : JsValue) :
  match url with
  | JsString s =>
      if Js.is_empty s then categorizeUrl P url = Ok "static"
      else match new_URL P s with
           | Some _ => exists label, In label labels /\ categorizeUrl P url = Ok label
           | None => categorizeUrl P url = Throw (TypeError "Invalid URL")
           end
  | _ => categorizeUrl P url = Ok "static"
  end.
Proof.
  destruct url as [| | | |s|]; try reflexivity.
  unfold categorizeUrl, construct_URL.
  destruct (Js.is_empty s); [reflexivity|].
  destruct (new_URL P s) as [urlObj|]; [|reflexivity].
  cbn -[existsb Js.startsWith Js.includes String.eqb Js.split].
  unfold labels.
  repeat match goal with
         | |- context [if ?c then _ else _] => destruct c
         end;
    eexists; (split; [|reflexivity]); cbn; tauto.
Qed.

(** C3, counterexample: on a string that is not a URL the classifier
    raises instead of returning a label. *)
Lemma categorizeUrl_raises_on_malformed_url :
  categorizeUrl UrlModel.platform (JsString "not a url") = Throw (TypeError "Invalid URL").
Proof. reflexivity. Qed.

(** C4. The five reference inputs get the labels of the specification. *)
Theorem categorizeUrl_reference_inputs :
  categorizeUrl UrlModel.platform (JsString "https://x/") = Ok "static"
  /\ categorizeUrl UrlModel.platform (JsString "https://x/urun/123") = Ok "product"
  /\ categorizeUrl UrlModel.platform (JsString "https://x/blog/icerik/abc") = Ok "blog"
  /\ categorizeUrl UrlModel.platform (JsString "https://x/kategori/ayakkabi") = Ok "category"
  /\ categorizeUrl UrlModel.platform (JsString "https://x/random/xyz") = Ok "others".
Proof. repeat split. Qed.

(** ** The cap on the number of URLs *)

Lemma digit_value_pretty_char (d : N) :
  (d < 10)%N -> Js.digit_value 10 (pretty_N_char d) = Some (Z.of_N d)
               /\ Js.is_digit (pretty_N_char d) = true.
Proof.
  intros Hd.
  assert (d = 0 \/ d = 1 \/ d = 2 \/ d = 3 \/ d = 4 \/ d = 5 \/ d = 6 \/ d = 7
          \/ d = 8 \/ d = 9)%N as Hcases by lia.
  repeat (destruct Hcases as [-> | Hcases]; [split; reflexivity|]).
  subst. split; reflexivity.
Qed.

(** Reading the digits [pretty_N_go] writes for [x] shifts what was read
    before by as many places and adds [x]. *)
Lemma digits_value_pretty_go (x : N) :
  (0 < x)%N ->
  exists k : Z, (0 <= k)%Z /\
    forall acc s,
      Js.digits_value 10 acc (pretty_N_go x s) =
      Js.digits_value 10 (Some (default 0 acc * 10 ^ k + Z.of_N x)%Z) s.
Proof.
  induction (N.lt_wf_0 x) as [x _ IH]. intros Hx.
  assert (Hmod : (x `mod` 10 < 10)%N) by (apply N.mod_lt; lia).
  destruct (digit_value_pretty_char _ Hmod) as [Hdigit _].
  assert (Hdec : (Z.of_N x = Z.of_N (x `div` 10) * 10 + Z.of_N (x `mod` 10))%Z).
  { rewrite (N.div_mod x 10) at 1 by lia. lia. }
  destruct (decide (x `div` 10 = 0)%N) as [Hq|Hq].
  - exists 1%Z. split; [lia|]. intros acc s.
    rewrite pretty_N_go_step by assumption. rewrite Hq, pretty_N_go_0.
    cbn [Js.digits_value]. rewrite Hdigit. do 2 f_equal. rewrite Hdec, Hq, Z.pow_1_r. cbn [Z.of_N]. ring.
  - destruct (IH (x `div` 10)%N) as (k & Hk & Hread).
    { apply N.div_lt; lia. }
    { now apply N.neq_0_lt_0. }
    exists (k + 1)%Z. split; [lia|]. intros acc s.
    rewrite pretty_N_go_step by assumption. rewrite Hread.
    cbn [Js.digits_value]. rewrite Hdigit. do 2 f_equal. cbn [default].
    rewrite Z.pow_add_r, Z.pow_1_r by lia. rewrite Hdec. unfold id. ring.
Qed.

Lemma all_digits_pretty_go (x : N) (s : string) :
  Js.all_chars Js.is_digit s = true -> Js.all_chars Js.is_digit (pretty_N_go x s) = true.
Proof.
  revert s. induction (N.lt_wf_0 x) as [x _ IH]. intros s Hs.
  destruct (decide (x = 0)%N) as [->|Hx]; [now rewrite pretty_N_go_0|].
  rewrite pretty_N_go_step by lia. apply IH.
  - apply N.div_lt; lia.
  - cbn. rewrite Hs, andb_true_r.
    apply digit_value_pretty_char, N.mod_lt. lia.
Qed.

Lemma pretty_go_nonempty (x : N) (s : string) :
  (0 < x)%N -> exists c rest, pretty_N_go x s = String c rest.
Proof.
  revert s. induction (N.lt_wf_0 x) as [x _ IH]. intros s Hx.
  rewrite pretty_N_go_step by assumption.
  destruct (decide (x `div` 10 = 0)%N) as [->|Hq].
  - rewrite pretty_N_go_0. eauto.
  - apply IH; [apply N.div_lt; lia | now apply N.neq_0_lt_0].
Qed.

Lemma fmap_times_one (o : option Z) : (fun v => (1 * v)%Z) <$> o = o.
Proof. destruct o as [v|]; [|reflexivity]. cbn. f_equal. lia. Qed.

(** Nothing is trimmed in front of an ASCII character that is not white
    space. *)
Lemma trim_start_ascii (c : ascii) (s : string) :
  (nat_of_ascii c <? 128)%nat = true -> Js.is_space c = false ->
  Js.trim_start (String c s) = String c s.
Proof.
  intros Hc Hs. cbn [Js.trim_start]. rewrite Hs.
  assert (H2 : forall c2, Js.is_space2 c c2 = false).
  { intros c2. unfold Js.is_space2.
    destruct (Nat.eqb_spec (nat_of_ascii c) 194) as [E|]; [|reflexivity].
    rewrite E in Hc. discriminate Hc. }
  assert (H3 : forall c2 c3, Js.is_space3 c c2 c3 = false).
  { intros c2 c3. unfold Js.is_space3. cbv zeta.
    destruct (Nat.eqb_spec (nat_of_ascii c) 225) as [E|];
      [rewrite E in Hc; discriminate Hc|].
    destruct (Nat.eqb_spec (nat_of_ascii c) 226) as [E|];
      [rewrite E in Hc; discriminate Hc|].
    destruct (Nat.eqb_spec (nat_of_ascii c) 227) as [E|];
      [rewrite E in Hc; discriminate Hc|].
    destruct (Nat.eqb_spec (nat_of_ascii c) 239) as [E|];
      [rewrite E in Hc; discriminate Hc|].
    reflexivity. }
  destruct s as [|c2 [|c3 s]]; rewrite ?H2, ?H3; reflexivity.
Qed.

(** On a string of decimal digits [parseInt] reads the digits. *)
Lemma parseInt_digits (s : string) :
  Js.all_chars Js.is_digit s = true -> Js.parseInt s = Js.digits_value 10 None s.
Proof.
  intros Hs. destruct s as [|c s]; [reflexivity|].
  cbn in Hs. apply andb_true_iff in Hs as [Hc Hs].
  destruct c as [[] [] [] [] [] [] [] []]; try discriminate Hc;
    try (unfold Js.parseInt; rewrite trim_start_ascii by reflexivity;
         cbv beta iota zeta; apply fmap_times_one).
  (* the digit 0: the next character is a digit too, so there is no [0x] *)
  destruct s as [|c2 s]; [reflexivity|].
  cbn in Hs. apply andb_true_iff in Hs as [Hc2 Hs].
  destruct c2 as [[] [] [] [] [] [] [] []]; try discriminate Hc2;
    unfold Js.parseInt; rewrite trim_start_ascii by reflexivity;
    cbv beta iota zeta; apply fmap_times_one.
Qed.

Lemma parseInt_pretty (n : N) : Js.parseInt (pretty n) = Some (Z.of_N n).
Proof.
  unfold pretty, pretty_N. destruct (decide (n = 0)%N) as [->|Hn]; [reflexivity|].
  rewrite parseInt_digits by (apply all_digits_pretty_go; reflexivity).
  destruct (digits_value_pretty_go n) as (k & _ & Hread); [lia|].
  rewrite Hread. cbn. f_equal.
Qed.

Lemma Number_value_safe (z : Z) : (Z.abs z < 2 ^ 53)%Z -> Js.Number_value z = Some z.
Proof.
  intros Hz. unfold Js.Number_value. cbv zeta.
  assert (H : (Z.log2 (Z.abs z) + 1 - 53 <=? 0)%Z = true).
  { apply Z.leb_le. destruct (Z.eq_dec (Z.abs z) 0%Z) as [->|Hne]; [cbn; lia|].
    assert (Z.log2 (Z.abs z) < 53)%Z by (apply Z.log2_lt_pow2; lia). lia. }
  now rewrite H.
Qed.

Lemma Number_toString_safe (z : Z) :
  (Z.abs z < 2 ^ 53)%Z -> Js.Number_toString z = pretty z.
Proof.
  intros Hz. unfold Js.Number_toString. rewrite Number_value_safe by assumption.
  destruct z as [|p|p].
  - reflexivity.
  - change (Z.pos p <? 0)%Z with false. cbv iota. unfold Js.positive_toString.
    destruct (Z.pos p <=? 2 ^ 53)%Z eqn:E; [reflexivity|]. apply Z.leb_gt in E. lia.
  - change (Z.neg p <? 0)%Z with true. cbv iota. change (- Z.neg p)%Z with (Z.pos p).
    unfold Js.positive_toString.
    destruct (Z.pos p <=? 2 ^ 53)%Z eqn:E; [reflexivity|]. apply Z.leb_gt in E. lia.
Qed.

Lemma digit_value_range radix c d :
  Js.digit_value radix c = Some d -> (0 <= d < radix)%Z.
Proof.
  unfold Js.digit_value. cbv zeta.
  destruct (Js.is_digit c) eqn:E1;
    [|destruct (Js.is_lower c) eqn:E2; [|destruct (Js.is_upper c) eqn:E3; [|discriminate]]];
    (destruct (_ <? radix)%Z eqn:E; [|discriminate]);
    intros [= <-]; apply Z.ltb_lt in E;
    unfold Js.is_digit, Js.is_lower, Js.is_upper in *;
    match goal with
    | H : (_ && _)%bool = true |- _ =>
        apply andb_true_iff in H as [H1 _]; apply Nat.leb_le in H1
    end; lia.
Qed.

Lemma digits_value_bound radix s :
  (2 <= radix)%Z ->
  forall acc r,
    (0 <= default 0 acc)%Z ->
    Js.digits_value radix acc s = Some r ->
    (0 <= r < (default 0 acc + 1) * radix ^ Z.of_nat (String.length s))%Z.
Proof.
  intros Hradix. induction s as [|c s IH]; intros acc r Hacc Hr.
  - cbn in Hr. subst acc. cbn [default String.length Z.of_nat] in *. unfold id in *.
    rewrite Z.pow_0_r. lia.
  - cbn [Js.digits_value] in Hr.
    assert (Hpow : (0 < radix ^ Z.of_nat (String.length s))%Z)
      by (apply Z.pow_pos_nonneg; lia).
    cbn [String.length]. rewrite Nat2Z.inj_succ, Z.pow_succ_r by lia.
    destruct (Js.digit_value radix c) as [d|] eqn:Hd.
    + apply digit_value_range in Hd.
      apply IH in Hr; cbn [default] in *; unfold id in *; [|nia]. nia.
    + subst acc. cbn [default] in *. unfold id in *. nia.
Qed.

Lemma trim_start_length (s : string) :
  String.length (Js.trim_start s) <= String.length s.
Proof.
  induction s as [s IH] using (induction_ltof1 _ String.length). unfold ltof in IH.
  destruct s as [|c1 s1]; [reflexivity|]. cbn [Js.trim_start].
  destruct (Js.is_space c1).
  { specialize (IH s1). cbn [String.length] in *. lia. }
  destruct s1 as [|c2 s2]; [reflexivity|].
  destruct (Js.is_space2 c1 c2).
  { specialize (IH s2). cbn [String.length] in *. lia. }
  destruct s2 as [|c3 s3]; [reflexivity|].
  destruct (Js.is_space3 c1 c2 c3); [|reflexivity].
  specialize (IH s3). cbn [String.length] in *. lia.
Qed.

Lemma parseInt_sign (t : string) :
  exists sign rest,
    (sign = 1 \/ sign = -1)%Z
    /\ String.length rest <= String.length t
    /\ match t with
       | String "-" s' => ((-1)%Z, s')
       | String "+" s' => (1%Z, s')
       | _ => (1%Z, t)
       end = (sign, rest).
Proof.
  destruct t as [|c t]; [exists 1%Z, EmptyString; auto|].
  destruct c as [[] [] [] [] [] [] [] []];
    (eexists _, _; split; [|split; [|reflexivity]]; [auto | cbn; lia]).
Qed.

Lemma parseInt_radix (t : string) :
  exists radix digits,
    ((radix = 10%Z /\ String.length digits <= String.length t)
     \/ (radix = 16%Z /\ String.length digits + 2 <= String.length t))
    /\ match t with
       | String "0" (String "x" s') => (16%Z, s')
       | String "0" (String "X" s') => (16%Z, s')
       | _ => (10%Z, t)
       end = (radix, digits).
Proof.
  destruct t as [|c t]; [exists 10%Z, EmptyString; auto|].
  destruct c as [[] [] [] [] [] [] [] []];
    try (eexists _, _; split; [|reflexivity]; left; split; [reflexivity | cbn; lia]).
  destruct t as [|c t]; [eexists _, _; split; [|reflexivity]; left; auto|].
  destruct c as [[] [] [] [] [] [] [] []];
    (eexists _, _; split; [|reflexivity];
     first [left; split; [reflexivity | cbn; lia] | right; split; [reflexivity | cbn; lia]]).
Qed.

(** [parseInt] reads a sign and the digits of one radix. *)
Lemma parseInt_reads (s : string) :
  exists sign radix digits,
    (sign = 1 \/ sign = -1)%Z
    /\ ((radix = 10%Z /\ String.length digits <= String.length s)
        \/ (radix = 16%Z /\ String.length digits + 2 <= String.length s))
    /\ Js.parseInt s = (fun v => (sign * v)%Z) <$> Js.digits_value radix None digits.
Proof.
  unfold Js.parseInt. cbv zeta.
  pose proof (trim_start_length s) as Ht.
  destruct (parseInt_sign (Js.trim_start s)) as (sign & rest & Hsign & Hrest & ->).
  destruct (parseInt_radix rest) as (radix & digits & Hradix & ->).
  exists sign, radix, digits. split; [exact Hsign|]. split; [lia|reflexivity].
Qed.

(** A numeral of at most 15 characters is a safe integer. *)
Lemma parseInt_safe (s : string) (z : Z) :
  String.length s <= 15 -> Js.parseInt s = Some z -> (Z.abs z < 2 ^ 53)%Z.
Proof.
  intros Hlen Hz.
  destruct (parseInt_reads s) as (sign & radix & digits & Hsign & Hradix & Heq).
  rewrite Heq in Hz.
  destruct (Js.digits_value radix None digits) as [v|] eqn:Hv; [|discriminate].
  injection Hz as <-.
  apply digits_value_bound in Hv; cbn [default] in *; [|lia..].
  assert (Hv' : (0 <= v < 2 ^ 53)%Z).
  { destruct Hradix as [[-> Hd]|[-> Hd]].
    - assert ((10 ^ Z.of_nat (String.length digits) <= 10 ^ 15)%Z)
        by (apply Z.pow_le_mono_r; lia). lia.
    - assert ((16 ^ Z.of_nat (String.length digits) <= 16 ^ 13)%Z)
        by (apply Z.pow_le_mono_r; lia). lia. }
  destruct Hsign as [->| ->]; lia.
Qed.

(** A string that does not start with a numeral reads as [NaN]. *)
Lemma parseInt_NaN (s : string) :
  Js.starts_with_numeral s = false -> Js.parseInt s = None.
Proof.
  unfold Js.starts_with_numeral, Js.parseInt.
  destruct (Js.trim_start s) as [|c rest]; [reflexivity|].
  destruct c as [[] [] [] [] [] [] [] []]; cbn; intros Hnum;
    try discriminate Hnum; try reflexivity;
    (destruct rest as [|d t]; [reflexivity|];
     destruct d as [[] [] [] [] [] [] [] []]; try discriminate Hnum; reflexivity).
Qed.

Lemma slice_to_nat {A} (items : list A) (n : nat) :
  Route.slice_to items (Some (Z.of_nat n)) = take n items.
Proof.
  unfold Route.slice_to. destruct (Z.of_nat n <? 0)%Z eqn:E; [apply Z.ltb_lt in E; lia|].
  now rewrite Nat2Z.id.
Qed.

Lemma limitedUrls_not_all (s : string) (urls : list string) :
  s <> "all" ->
  Route.limitedUrls (JsString s) urls = Route.slice_to urls (Js.parseInt s).
Proof.
  intros Hne. unfold Route.limitedUrls.
  repeat (match goal with
          | |- context [match ?x with _ => _ end] => is_var x; destruct x
          end; try reflexivity; try congruence).
Qed.

Lemma limitedUrls_number (z : Z) (urls : list string) :
  Route.limitedUrls (JsNumber z) urls
  = Route.slice_to urls (Js.parseInt (Js.Number_toString z)).
Proof. reflexivity. Qed.

Lemma parseInt_pretty_nat (n : nat) : Js.parseInt (pretty (Z.of_nat n)) = Some (Z.of_nat n).
Proof.
  destruct n as [|n]; [reflexivity|].
  change (pretty (Z.of_nat (S n))) with (pretty (Npos (Pos.of_succ_nat n))).
  rewrite parseInt_pretty. reflexivity.
Qed.

(** *** Numerals followed by other text *)

Lemma digit_value_not_digit c :
  Js.is_digit c = false -> Js.digit_value 10 c = None.
Proof.
  intros Hc. unfold Js.digit_value. cbv zeta. rewrite Hc.
  destruct (Js.is_lower c) eqn:E2.
  - unfold Js.is_lower in E2. apply andb_true_iff in E2 as [H1 _]. apply Nat.leb_le in H1.
    destruct (_ <? 10)%Z eqn:E; [|reflexivity]. apply Z.ltb_lt in E. lia.
  - destruct (Js.is_upper c) eqn:E3; [|reflexivity].
    unfold Js.is_upper in E3. apply andb_true_iff in E3 as [H1 _]. apply Nat.leb_le in H1.
    destruct (_ <? 10)%Z eqn:E; [|reflexivity]. apply Z.ltb_lt in E. lia.
Qed.

Lemma digits_value_then digits rest :
  Js.all_chars Js.is_digit digits = true ->
  ends_digits rest = true ->
  forall acc,
    Js.digits_value 10 acc (digits +:+ rest) = Js.digits_value 10 acc digits.
Proof.
  intros Hd Hrest. induction digits as [|c digits IH]; intros acc.
  - change (EmptyString +:+ rest) with rest.
    destruct rest as [|r rest]; [reflexivity|]. cbn in Hrest.
    cbn [Js.digits_value]. rewrite digit_value_not_digit; [reflexivity|].
    now destruct (Js.is_digit r).
  - cbn in Hd. apply andb_true_iff in Hd as [Hc Hd].
    change (String c digits +:+ rest) with (String c (digits +:+ rest)).
    cbn [Js.digits_value]. destruct (Js.digit_value 10 c); [|reflexivity].
    apply IH, Hd.
Qed.

Lemma parseInt_leading_digits digits rest :
  Js.all_chars Js.is_digit digits = true ->
  digits <> EmptyString ->
  (digits = "0" -> hex_mark rest = false) ->
  Js.parseInt (digits +:+ rest) = Js.digits_value 10 None (digits +:+ rest).
Proof.
  intros Hd Hne Hx. destruct digits as [|c digits]; [contradiction|].
  cbn in Hd. apply andb_true_iff in Hd as [Hc Hd].
  change (String c digits +:+ rest) with (String c (digits +:+ rest)).
  destruct c as [[] [] [] [] [] [] [] []]; try discriminate Hc;
    try (unfold Js.parseInt; rewrite trim_start_ascii by reflexivity;
         cbv beta iota zeta; apply fmap_times_one).
  destruct digits as [|c2 digits].
  - change (EmptyString +:+ rest) with rest.
    specialize (Hx eq_refl). destruct rest as [|r rest]; [reflexivity|].
    cbn in Hx.
    destruct r as [[] [] [] [] [] [] [] []]; try discriminate Hx;
      unfold Js.parseInt; rewrite trim_start_ascii by reflexivity;
      cbv beta iota zeta; apply fmap_times_one.
  - cbn in Hd. apply andb_true_iff in Hd as [Hc2 Hd].
    change (String c2 digits +:+ rest) with (String c2 (digits +:+ rest)).
    destruct c2 as [[] [] [] [] [] [] [] []]; try discriminate Hc2;
      unfold Js.parseInt; rewrite trim_start_ascii by reflexivity;
      cbv beta iota zeta; apply fmap_times_one.
Qed.

(** The numeral of [n] is read as [n] whatever text follows it. *)
Lemma parseInt_numeral_then (n : nat) (rest : string) :
  follows_numeral n rest = true ->
  Js.parseInt (pretty n +:+ rest) = Some (Z.of_nat n).
Proof.
  intros Hrest.
  assert (Hend : ends_digits rest = true).
  { destruct rest as [|c rest]; [reflexivity|]. cbn in Hrest |- *.
    apply andb_true_iff in Hrest as [H _]. exact H. }
  assert (Hdigits : Js.all_chars Js.is_digit (pretty n) = true).
  { unfold pretty, pretty_nat, pretty, pretty_N.
    destruct (decide _); [reflexivity|]. apply all_digits_pretty_go. reflexivity. }
  assert (Hvalue : Js.digits_value 10 None (pretty n) = Some (Z.of_nat n)).
  { rewrite <- parseInt_digits by exact Hdigits.
    unfold pretty, pretty_nat. rewrite parseInt_pretty. f_equal. lia. }
  rewrite parseInt_leading_digits, digits_value_then; auto.
  - intros Hempty. rewrite Hempty in Hvalue. discriminate Hvalue.
  - intros Hzero. rewrite Hzero in Hvalue.
    change (Js.digits_value 10 None "0") with (Some 0%Z) in Hvalue.
    injection Hvalue as Hn. assert (n = 0) as -> by lia.
    destruct rest as [|c rest]; [reflexivity|]. cbn in Hrest |- *.
    apply andb_true_iff in Hrest as [_ H]. now destruct (_ || _).
Qed.

(** What [String] prints for some numbers, and what [parseInt] reads after
    a no-break space. *)
Example Number_toString_values :
  Js.Number_toString 0 = "0"
  /\ Js.Number_toString (-7) = "-7"
  /\ Js.Number_toString (2 ^ 53 + 1) = "9007199254740992"
  /\ Js.Number_toString (2 ^ 64) = "18446744073709552000"
  /\ Js.Number_toString (10 ^ 21 - 1) = "1e+21"
  /\ Js.Number_toString (2 ^ 70) = "1.1805916207174113e+21"
  /\ Js.Number_toString (10 ^ 23) = "1e+23"
  /\ Js.Number_toString (2 ^ 1024 - 2 ^ 971) = "1.7976931348623157e+308"
  /\ Js.Number_toString (10 ^ 309) = "Infinity".
Proof. vm_compute. repeat split. Qed.

Example parseInt_after_no_break_space :
  Js.parseInt (String (ascii_of_nat 194) (String (ascii_of_nat 160) "1")) = Some 1%Z.
Proof. reflexivity. Qed.

(** *** Strings of parsed values *)

Lemma ToString_Array (items : list Json.value) :
  Json.ToString (Json.Array items) = Json.join items.
Proof. induction items as [|item rest IH]; reflexivity. Qed.

(** Induction on a parsed value, through the items of its arrays. *)
Lemma value_induction (Q : Json.value -> Prop) :
  Q Json.Null ->
  (forall b, Q (Json.Bool b)) ->
  (forall text, Q (Json.Number text)) ->
  (forall s, Q (Json.Str s)) ->
  (forall items, Forall Q items -> Q (Json.Array items)) ->
  (forall members, Q (Json.Object members)) ->
  forall v, Q v.
Proof.
  intros HNull HBool HNumber HStr HArray HObject. fix IH 1.
  intros [|b|text|s|items|members];
    [exact HNull | apply HBool | apply HNumber | apply HStr | | apply HObject].
  apply HArray. induction items as [|item rest IHrest]; constructor;
    [apply IH | exact IHrest].
Qed.

(** The one error of [String] on a parsed value. *)
Lemma ToString_Throw (v : Json.value) (e : JsError) :
  Json.ToString v = Throw e ->
  e = TypeError "Cannot convert object to primitive value".
Proof.
  revert e. induction v as [|b|text|s|items IH|members] using value_induction;
    intros e; try discriminate.
  - rewrite ToString_Array. induction IH as [|item rest Hitem _ IHrest]; [discriminate|].
    cbn [Json.join]. destruct (Json.item_string item) as [text|e0] eqn:Hstring.
    + cbn [mbind Result_bind]. destruct rest as [|item' rest']; [discriminate|].
      destruct (Json.join (item' :: rest')) as [others|e1]; [discriminate|].
      cbn [mbind Result_bind]. intros [= <-]. apply IHrest. reflexivity.
    + cbn [mbind Result_bind]. intros [= <-].
      destruct item; try discriminate Hstring; apply (Hitem _ Hstring).
  - cbn [Json.ToString]. destruct (existsb _ _); [|discriminate]. intros [= <-]. reflexivity.
Qed.

(** *** Zero is the one number that prints as [0] *)

Lemma pretty_zero (z : Z) : pretty z = "0" -> z = 0%Z.
Proof. intros H. apply (inj pretty). exact H. Qed.

Lemma shortest_positive (x d : Z) (fuel : nat) :
  (0 < x)%Z -> forall k, (0 < Js.shortest x d fuel k)%Z.
Proof.
  intros Hx. induction fuel as [|fuel IH]; intros k; cbn [Js.shortest]; [exact Hx|].
  cbv zeta.
  set (p := (10 ^ Z.max 0 (d - k))%Z).
  assert (Hp : (0 < p)%Z) by (apply Z.pow_pos_nonneg; lia).
  assert (Hlo : (0 <= x / p * p)%Z).
  { apply Z.mul_nonneg_nonneg; [apply Z.div_pos|]; lia. }
  assert (Hzero : Js.rounds_to x (x / p * p) = true -> (0 < x / p * p)%Z).
  { intros Hr. destruct (Z.eq_dec (x / p * p)%Z 0%Z) as [E|]; [|lia].
    rewrite E in Hr. unfold Js.rounds_to in Hr. cbn in Hr.
    apply Z.eqb_eq in Hr. lia. }
  destruct (Js.rounds_to x (x / p * p)) eqn:E1, (Js.rounds_to x (x / p * p + p)) eqn:E2;
    try apply IH; try (specialize (Hzero eq_refl)); try lia.
  repeat match goal with |- context [if ?c then _ else _] => destruct c end; lia.
Qed.

Lemma Number_value_sign (z x : Z) :
  Js.Number_value z = Some x -> (z = 0 <-> x = 0)%Z.
Proof.
  unfold Js.Number_value. cbv zeta.
  destruct (_ <=? 0)%Z eqn:E; [intros [= <-]; tauto|].
  apply Z.leb_gt in E. intros H.
  destruct (2 ^ 1024 <=? _)%Z; [discriminate|]. injection H as <-.
  set (a := Z.abs z) in *. set (e := (Z.log2 a + 1 - 53)%Z) in *.
  assert (Ha : (0 < a)%Z).
  { destruct (Z.eq_dec a 0%Z) as [E0|]; [|subst a; lia].
    subst e. rewrite E0 in E. cbn in E. lia. }
  assert (Hq : (1 <= Z.shiftr a e)%Z).
  { rewrite Z.shiftr_div_pow2 by lia.
    apply Z.div_le_lower_bound; [apply Z.pow_pos_nonneg; lia|].
    rewrite Z.mul_1_r. transitivity (2 ^ Z.log2 a)%Z.
    - apply Z.pow_le_mono_r; lia.
    - apply Z.log2_spec. exact Ha. }
  match goal with
  | |- context [Z.shiftl ?q e] =>
      assert (Hx : (0 < Z.shiftl q e)%Z)
  end.
  { rewrite Z.shiftl_mul_pow2 by lia. apply Z.mul_pos_pos; [|apply Z.pow_pos_nonneg; lia].
    destruct (_ || _); lia. }
  subst a. split; intros H0; [subst z; cbn in Ha; lia|].
  destruct z; cbn in H0; lia.
Qed.

Lemma Number_toString_zero (z : Z) :
  String.eqb (Js.Number_toString z) "0" = (z =? 0)%Z.
Proof.
  destruct (Z.eqb_spec z 0%Z) as [->|Hz]; [reflexivity|].
  apply String.eqb_neq. unfold Js.Number_toString.
  destruct (Js.Number_value z) as [x|] eqn:Hx.
  2:{ destruct (z <? 0)%Z; discriminate. }
  apply Number_value_sign in Hx.
  destruct (x <? 0)%Z eqn:Hneg; [discriminate|]. apply Z.ltb_ge in Hneg.
  assert (Hpos : (0 < x)%Z) by (destruct (Z.eq_dec x 0%Z); [tauto|lia]).
  unfold Js.positive_toString.
  destruct (x <=? 2 ^ 53)%Z; [intros H; apply pretty_zero in H; lia|].
  cbv zeta.
  set (v := Js.shortest x _ 17 1).
  assert (Hv : (0 < v)%Z) by apply shortest_positive, Hpos.
  destruct (_ <=? 21)%Z; [intros H; apply pretty_zero in H; lia|].
  destruct (Js.significant v) as [|c [|c2 rest]]; discriminate.
Qed.

(** *** The handler on a request *)

Section PostFacts.

Variable P : Platform.
Variable W : World.

Lemma POST_body (body : Json.value) :
  body <> Json.Null ->
  PostRoute.POST P W (Ok body) =
  if negb (Json.truthy (Json.get body "sitemapUrl"))
  then Route.BadRequest "sitemapUrl parameter is required"
  else Route.answer P W (PostRoute.selection P W body).
Proof. destruct body; try reflexivity. contradiction. Qed.

Lemma selection_of_string (body : Json.value) (sitemapUrl : string) :
  Json.get body "sitemapUrl" = Some (Json.Str sitemapUrl) ->
  PostRoute.selection P W body =
  PostRoute.limitedUrls (Json.get body "maxUrls")
    (urls_of (fetchSitemapUrls P W sitemapUrl 0)).
Proof.
  intros H. unfold PostRoute.selection, PostRoute.discover. rewrite H.
  rewrite urls_of_fetch. reflexivity.
Qed.

Lemma PostRoute_limitedUrls_string (s : string) (urls : list string) :
  s <> "all" ->
  PostRoute.limitedUrls (Some (Json.Str s)) urls
  = Ok (Route.slice_to urls (Js.parseInt s)).
Proof.
  intros Hne. unfold PostRoute.limitedUrls.
  repeat (match goal with
          | |- context [match ?x with _ => _ end] => is_var x; destruct x
          end; try reflexivity; try congruence).
Qed.

Lemma PostRoute_limitedUrls_value (v : Json.value) (urls : list string) :
  v <> Json.Str "all" ->
  PostRoute.limitedUrls (Some v) urls
  = (text ← Json.ToString v; Ok (Route.slice_to urls (Js.parseInt text))).
Proof.
  intros Hne. destruct v; try reflexivity.
  rewrite PostRoute_limitedUrls_string by congruence. reflexivity.
Qed.

End PostFacts.

Section PostOutcomes.

Variable P : Platform.
Variable W : World.

Lemma truthy_of_value (v : JsValue) : Json.truthy (Json.of_value v) = Route.truthy v.
Proof.
  destruct v as [| |[]|z|s|]; try reflexivity.
  cbn. now rewrite Number_toString_zero.
Qed.

Lemma discover_resolves (sitemapUrl : option Json.value) :
  exists urls, PostRoute.discover P W sitemapUrl = Ok urls.
Proof.
  unfold PostRoute.discover. destruct sitemapUrl as [[| | |s| |]|]; eauto.
  rewrite urls_of_fetch. eauto.
Qed.

Lemma limitedUrls_Throw (v : option Json.value) (urls : list string) (e : JsError) :
  PostRoute.limitedUrls v urls = Throw e ->
  exists value, v = Some value /\ Json.ToString value = Throw e.
Proof.
  destruct v as [v|]; [|discriminate]. intros H. exists v. split; [reflexivity|].
  destruct (Json.ToString v) as [text|e0] eqn:Hv.
  - exfalso. destruct v; try discriminate H.
    + destruct (String.eqb_spec s "all") as [->|Hs]; [discriminate H|].
      rewrite PostRoute_limitedUrls_string in H by exact Hs. discriminate H.
    + rewrite PostRoute_limitedUrls_value, Hv in H by discriminate. discriminate H.
    + rewrite PostRoute_limitedUrls_value, Hv in H by discriminate. discriminate H.
  - rewrite PostRoute_limitedUrls_value, Hv in H by (intros ->; discriminate Hv).
    cbn [mbind Result_bind] in H. now injection H as ->.
Qed.

Lemma limitedUrls_of_value (v : JsValue) (urls : list string) :
  PostRoute.limitedUrls (Json.of_value v) urls = Ok (Route.limitedUrls v urls).
Proof.
  destruct v as [| |[]|z|s|]; try reflexivity.
  destruct (String.eqb_spec s "all") as [->|Hs]; [reflexivity|].
  cbn [Json.of_value]. rewrite PostRoute_limitedUrls_string, limitedUrls_not_all by exact Hs.
  reflexivity.
Qed.

(** On a body whose two fields are scalars the handler is [Route.POST]. *)
Lemma POST_of_scalars (body : Json.value) (fields : Route.RequestBody) :
  body <> Json.Null ->
  Json.get body "sitemapUrl" = Json.of_value (Route.sitemapUrl fields) ->
  Json.get body "maxUrls" = Json.of_value (Route.maxUrls fields) ->
  PostRoute.POST P W (Ok body) = Route.POST P W fields.
Proof.
  intros Hbody Hurl Hmax. rewrite (POST_body P W body Hbody), Hurl, truthy_of_value.
  unfold Route.POST. destruct (Route.truthy (Route.sitemapUrl fields)); [|reflexivity].
  cbn [negb]. f_equal. unfold PostRoute.selection. rewrite Hurl, Hmax.
  assert (Hd : PostRoute.discover P W (Json.of_value (Route.sitemapUrl fields))
               = match Route.sitemapUrl fields with
                 | JsString sitemapUrl => fetchSitemapUrls P W sitemapUrl 0
                 | _ => Ok []
                 end) by (destruct (Route.sitemapUrl fields); reflexivity).
  rewrite Hd.
  destruct (match Route.sitemapUrl fields with
            | JsString sitemapUrl => fetchSitemapUrls P W sitemapUrl 0
            | _ => Ok []
            end) as [urls|e]; [|reflexivity].
  cbn [mbind Result_bind]. apply limitedUrls_of_value.
Qed.

End PostOutcomes.

(** ** The page content extractor *)

Section ExtractorFacts.

Variable P : Platform.
Variable W : World.

Lemma Promise_all_Ok {A B} (f : A -> Result B) (l : list A) :
  (forall a, exists b, f a = Ok b) -> exists bs, Promise_all (map f l) = Ok bs.
Proof.
  intros Hf. induction l as [|a l [bs IH]]; cbn; [eauto|].
  destruct (Hf a) as [b ->]. cbn. rewrite IH. cbn. eauto.
Qed.

Lemma absoluteImage_resolves url img :
  is_Some (new_URL P url) -> exists image, absoluteImage P url img = Ok image.
Proof.
  intros [base Hbase]. unfold absoluteImage, construct_URL. rewrite Hbase. cbn.
  repeat match goal with |- context [if ?c then _ else _] => destruct c end; eauto.
Qed.

(** The images of a blog page are never empty once the URL of the page
    parses. *)
Lemma extractBlogImages_nonempty url document images0 :
  is_Some (new_URL P url) ->
  exists image others, extractBlogImages P url document images0 = Ok (image :: others).
Proof.
  intros Hurl. unfold extractBlogImages.
  destruct images0 as [|image0 others0]; [|cbn; eauto].
  cbv beta iota zeta delta [is_nil negb].
  generalize (blogImageCandidates document []). intros images.
  assert (Hfinal : forall fixed : list string,
             exists image others,
               Ok (let images :=
                     if is_nil fixed then
                       let ogImage :=
                         querySelector document (Js.quoted "meta[property='og:image']")
                           ≫= (fun el => getAttribute el "content") in
                       match ogImage with
                       | Some ogImage => if Js.is_empty ogImage then fixed else [ogImage]
                       | None => fixed
                       end
                     else fixed in
                   if is_nil images
                   then ["https://via.placeholder.com/800x400?text=Blog+Post"]
                   else images) = Ok (image :: others) :> Result (list string)).
  { intros [|i l]; [|cbn; eauto]. cbv beta iota zeta delta [is_nil].
    destruct (querySelector document _ ≫= _) as [ogImage|]; [|cbn; eauto].
    destruct (Js.is_empty ogImage); cbn; eauto. }
  destruct images as [|i l]; [apply (Hfinal [])|].
  destruct (Promise_all_Ok (absoluteImage P url) (i :: l)) as [fixed Hfixed].
  { intros img. apply absoluteImage_resolves, Hurl. }
  rewrite Hfixed. apply (Hfinal (List.filter _ fixed)).
Qed.

Lemma first_picked_Some {A} document selectors (pick : Element -> option A) a :
  Dom.first_picked document selectors pick = Some a -> exists el, pick el = Some a.
Proof.
  unfold Dom.first_picked. induction selectors as [|sel sels IH]; cbn; [discriminate|].
  destruct (querySelector document sel ≫= pick) as [a'|] eqn:E; cbn.
  - intros [= ->]. destruct (querySelector document sel) as [el|]; [|discriminate].
    exists el. exact E.
  - exact IH.
Qed.

(** What the blog branch leaves in the always-populated fields. *)
Lemma extractBlogPage_populated url document pageData :
  is_Some (new_URL P url) ->
  Js.truthy (description pageData) = true ->
  exists pd,
    extractBlogPage P W url document pageData = Ok pd
    /\ type pd = Some "blog"
    /\ title pd = title pageData
    /\ Js.truthy (description pd) = true
    /\ (exists c cs, blogCategories pd = Some (c :: cs))
    /\ (exists image others, images pd = Some (image :: others)).
Proof.
  intros Hurl Hdesc. unfold extractBlogPage.
  destruct (extractBlogImages_nonempty url document (default [] (images pageData)) Hurl)
    as (image & others & ->).
  cbn [mbind Result_bind].
  eexists. split; [reflexivity|]. cbn [type title description blogCategories images].
  split; [reflexivity|]. split; [reflexivity|]. split; [|split].
  - match goal with
    | |- context [Dom.first_picked document ?sels ?pick] =>
        destruct (Dom.first_picked document sels pick) as [text|] eqn:Hpick
    end.
    + apply first_picked_Some in Hpick as [el Hel].
      destruct (Dom.content_or_text el) as [t|]; [|discriminate].
      destruct (negb (Js.is_empty t) && _) eqn:Hcond; [|discriminate].
      injection Hel as <-. apply andb_true_iff in Hcond as [Hne _].
      cbn. rewrite Hne. cbn. exact Hne.
    + rewrite Hdesc. exact Hdesc.
  - match goal with
    | |- context [if is_nil ?l then _ else _] => destruct l as [|c cs]
    end; cbn; eauto.
  - eauto.
Qed.

Lemma or_else_truthy_r (a b : option string) :
  Js.truthy b = true -> Js.truthy (Js.or_else a b) = true.
Proof. unfold Js.or_else. destruct (Js.truthy a) eqn:E; auto. Qed.

End ExtractorFacts.

(** A page in which no selector matches anything. *)
Section Blank.

Variable document : Document.
Hypothesis Hblank : forall selector, querySelectorAll document selector = [].

Lemma querySelector_blank selector : querySelector document selector = None.
Proof. unfold querySelector. now rewrite Hblank. Qed.

Lemma first_element_blank selectors : Dom.first_element document selectors = None.
Proof.
  unfold Dom.first_element. induction selectors as [|s l IH]; [reflexivity|].
  cbn [omap list_omap]. rewrite querySelector_blank. exact IH.
Qed.

Lemma first_picked_blank {A} selectors (pick : Element -> option A) :
  Dom.first_picked document selectors pick = None.
Proof.
  unfold Dom.first_picked. induction selectors as [|s l IH]; [reflexivity|].
  cbn [omap list_omap]. rewrite querySelector_blank. exact IH.
Qed.

Lemma first_collected_blank {A} selectors (collect : list Element -> list A) :
  Dom.first_collected document selectors collect = [].
Proof.
  unfold Dom.first_collected.
  assert (H : omap (fun selector =>
                      match querySelectorAll document selector with
                      | [] => None
                      | elements =>
                          match collect elements with
                          | [] => None
                          | found => Some found
                          end
                      end) selectors = []).
  { induction selectors as [|s l IH]; [reflexivity|].
    cbn [omap list_omap]. rewrite Hblank. exact IH. }
  rewrite H. reflexivity.
Qed.

End Blank.

(** The blog branch: what it records when the page gives a value, and
    what when it gives none. *)
Section BlogDefaults.

Variable P : Platform.
Variable W : World.

Lemma extractBlogImages_given url document image others :
  extractBlogImages P url document (image :: others) = Ok (image :: others).
Proof. reflexivity. Qed.

Lemma extractBlogImages_blank url document :
  (forall selector, querySelectorAll document selector = []) ->
  extractBlogImages P url document []
  = Ok ["https://via.placeholder.com/800x400?text=Blog+Post"].
Proof.
  intros Hblank. unfold extractBlogImages, blogImageCandidates. cbv zeta.
  rewrite first_collected_blank by assumption. rewrite Hblank.
  cbn. rewrite querySelector_blank by assumption. reflexivity.
Qed.

Lemma first_collected_first {A} document selector selectors
    (collect : list Element -> list A) element elements found others :
  querySelectorAll document selector = element :: elements ->
  collect (element :: elements) = found :: others ->
  Dom.first_collected document (selector :: selectors) collect = found :: others.
Proof.
  intros Hq Hc. unfold Dom.first_collected. cbn [omap list_omap].
  rewrite Hq, Hc. reflexivity.
Qed.

Lemma extractBlogPage_defaults url document pageData :
  is_Some (new_URL P url) ->
  Js.truthy (description pageData) = true ->
  exists pd imgs,
    extractBlogPage P W url document pageData = Ok pd
    /\ extractBlogImages P url document (default [] (images pageData)) = Ok imgs
    /\ type pd = Some "blog"
    /\ title pd = title pageData
    /\ images pd = Some imgs
    /\ ((forall selector, querySelectorAll document selector = []) ->
        description pd = description pageData)
    /\ ((forall selector, querySelectorAll document selector = []) ->
        Js.includes (Js.toLowerCase url) "toptanturkiye.com" = false ->
        blogCategories pd = Some ["Uncategorized"])
    /\ (forall element elements c cs,
          querySelectorAll document ".post-categories a" = element :: elements ->
          Js.filter_Boolean (map Dom.content_or_text (element :: elements)) = c :: cs ->
          Js.includes (Js.toLowerCase url) "toptanturkiye.com" = false ->
          blogCategories pd = Some (c :: cs)).
Proof.
  intros Hurl Hdesc. unfold extractBlogPage.
  destruct (extractBlogImages_nonempty P url document (default [] (images pageData)) Hurl)
    as (image & others & Himg).
  rewrite Himg. cbn [mbind Result_bind].
  eexists _, _. split; [reflexivity|]. split; [reflexivity|].
  cbn [type title description blogCategories images].
  split; [reflexivity|]. split; [reflexivity|]. split; [reflexivity|].
  split; [|split].
  - intros Hblank. rewrite (first_picked_blank document Hblank).
    rewrite Hdesc. reflexivity.
  - intros Hblank Hsite. rewrite (first_collected_blank document Hblank), Hsite.
    reflexivity.
  - intros element elements c cs Hq Hfound Hsite.
    rewrite (first_collected_first document _ _ _ element elements c cs Hq Hfound), Hsite.
    reflexivity.
Qed.

End BlogDefaults.



(** ** The coverage guarantor *)

Lemma write_pages_app pages1 pages2 (m : PageMap) :
  write_pages (pages1 ++ pages2) m = write_pages pages2 (write_pages pages1 m).
Proof. unfold write_pages. apply fold_left_app. Qed.

Lemma write_pages_unwritten pages (m : PageMap) u :
  ~ In u (map fst pages) -> write_pages pages m !! u = m !! u.
Proof.
  revert m. induction pages as [|[k d] pages IH]; intros m Hu; [reflexivity|].
  cbn in Hu. change (write_pages pages (<[k := d]> m) !! u = m !! u).
  rewrite IH by tauto. apply lookup_insert_ne. tauto.
Qed.

Lemma write_pages_written pages (m : PageMap) u record :
  NoDup (map fst pages) -> In (u, record) pages ->
  write_pages pages m !! u = Some record.
Proof.
  revert m. induction pages as [|[k d] pages IH]; intros m Hnd Hin; [destruct Hin|].
  cbn [map fst] in Hnd. apply NoDup_cons in Hnd as [Hk Hnd].
  change (write_pages pages (<[k := d]> m) !! u = Some record).
  destruct Hin as [[= -> ->]|Hin].
  - rewrite write_pages_unwritten; [apply lookup_insert_eq|].
    intros H. apply Hk. now apply list_elem_of_In.
  - now apply IH.
Qed.

Section CoverageFacts.

Variable W : World.

Lemma mem_string_false (x : string) (l : list string) :
  mem_string x l = false -> Forall (fun y => y <> x) l.
Proof.
  unfold mem_string. induction l as [|y l IH]; cbn; [constructor|].
  destruct (String.eqb_spec x y) as [|Hne]; [discriminate|].
  intros H. constructor; [congruence | auto].
Qed.

Lemma ensureMinimumPageTypes_writes baseUrl (processedData : PageMap) :
  ensureMinimumPageTypes W baseUrl processedData =
  write_pages (written_pages W baseUrl processedData) processedData.
Proof.
  unfold written_pages. rewrite write_pages_app.
  unfold ensureMinimumPageTypes, essential_pages, category_pages. cbv zeta.
  fold (isTurkishSite processedData).
  destruct (isTurkishSite processedData);
    match goal with
    | |- (if ?c1 then _ else _) = write_pages (if ?c2 then _ else _) _ =>
        change c1 with c2; destruct c2
    end; reflexivity.
Qed.

Lemma written_pages_urls baseUrl (processedData : PageMap) :
  exists paths,
    map fst (written_pages W baseUrl processedData)
    = map (String.append (Js.strip_trailing_slashes baseUrl)) paths
    /\ NoDup paths
    /\ (length paths = 9 \/ length paths = 12)
    /\ (forall path, In path paths -> In path synthetic_paths)
    /\ Forall (fun '(u, record) => Page.url record = u)
               (written_pages W baseUrl processedData).
Proof.
  pose (tr := ["/sayfa/hakkimizda"; "/sayfa/iletisim"; "/sayfa/gizlilik-politikasi";
               "/sayfa/satis-sozlesmesi"; "/sayfa/sikca-sorulan-sorular";
               "/blog/icerik/yeni-urunlerimiz-hakkinda"; "/blog/icerik/musteri-deneyimleri";
               "/blog/icerik/sektor-haberleri"; "/blog"]).
  pose (en := ["/about-us"; "/contact"; "/privacy-policy"; "/terms-of-service"; "/faq";
               "/blog/new-product-announcement"; "/blog/customer-testimonials";
               "/blog/industry-news"; "/blog"]).
  pose (trc := ["/kategori/yeni-gelenler"; "/kategori/en-cok-satanlar";
                "/kategori/indirimli-urunler"]).
  pose (enc := ["/category/new-arrivals"; "/category/best-sellers";
                "/category/sale-items"]).
  unfold written_pages, essential_pages, category_pages. cbv zeta.
  destruct (isTurkishSite processedData);
    match goal with
    | |- context [if ?c then _ else _] => destruct c
    end;
    cbn [app map fst];
    first [ exists (tr ++ trc); split; [reflexivity|]
          | exists (tr ++ []); split; [reflexivity|]
          | exists (en ++ enc); split; [reflexivity|]
          | exists (en ++ []); split; [reflexivity|] ];
    (split; [apply (bool_decide_unpack _); vm_compute; exact I|]);
    (split; [cbn; auto|]);
    (split; [|repeat constructor]);
    intros path Hpath; subst tr en trc enc; cbn [In app] in Hpath;
    unfold synthetic_paths; cbn [In];
    intuition (subst; auto 30).
Qed.

(** C1 (as the code has it). One call writes the pages of [written_pages]:
    the five static pages and the three blog posts of the locale of the site,
    the blog index and, when fewer than three records have the type
    [category] once these are in, the three category pages of the locale;
    9 or 12 pages at pairwise distinct URLs, all among the synthetic URLs.
    The injection leaves alone every URL it does not write: a record
    already present there stays as it is.  At a URL it writes the result
    holds the synthetic record, whatever record was there before. *)
Theorem ensureMinimumPageTypes_frame (baseUrl : string) (processedData : PageMap) :
  let written := written_pages W baseUrl processedData in
  let result := ensureMinimumPageTypes W baseUrl processedData in
  result = write_pages written processedData
  /\ (forall u, ~ In u (map fst written) -> result !! u = processedData !! u)
  /\ (forall u record,
        In (u, record) written -> result !! u = Some record /\ Page.url record = u)
  /\ NoDup (map fst written)
  /\ (length written = 9 \/ length written = 12)
  /\ (forall u, In u (map fst written) -> In u (synthetic_urls baseUrl)).
Proof.
  cbv zeta. rewrite ensureMinimumPageTypes_writes.
  destruct (written_pages_urls baseUrl processedData)
    as (paths & Hurls & Hnd & Hlen & Hpaths & Hkeyed).
  assert (Hnodup : NoDup (map fst (written_pages W baseUrl processedData))).
  { rewrite Hurls. apply (NoDup_fmap_2 (String.append _)). exact Hnd. }
  split; [reflexivity|]. split; [|split; [|split; [exact Hnodup|split]]].
  - intros u. apply write_pages_unwritten.
  - intros u record Hin. split; [now apply write_pages_written|].
    rewrite Forall_forall in Hkeyed. apply list_elem_of_In in Hin.
    exact (Hkeyed _ Hin).
  - rewrite <- (length_map fst), Hurls, length_map. exact Hlen.
  - intros u. rewrite Hurls. unfold synthetic_urls. rewrite !in_map_iff.
    intros (path & <- & Hp). eauto.
Qed.

End CoverageFacts.

(** C1, a run of the theorem: a page at [/about] survives the injection,
    which writes 12 pages, the static page at [/blog] among them. *)
Lemma ensureMinimumPageTypes_frame_witness :
  let processedData : PageMap := {[ "https://x/about" := bare_page "https://x/about" ]} in
  let result := ensureMinimumPageTypes Examples.offline "https://x/" processedData in
  result !! "https://x/about" = Some (bare_page "https://x/about")
  /\ type <$> result !! "https://x/blog" = Some (Some "static")
  /\ length (written_pages Examples.offline "https://x/" processedData) = 12.
Proof.
  intros processedData result.
  destruct (ensureMinimumPageTypes_frame Examples.offline "https://x/" processedData)
    as (_ & Hframe & Hwritten & _).
  split; [|split].
  - subst result. rewrite Hframe; [apply lookup_singleton_eq|].
    vm_compute. intuition discriminate.
  - subst result.
    destruct (Hwritten "https://x/blog"
                (synthetic_static Examples.offline "https://x/blog" "Blog" "Our blog posts"))
      as [-> _]; [|reflexivity].
    vm_compute. auto 20.
  - vm_compute. reflexivity.
Defined.

(** C1, counterexample: the record of a real blog index page at [/blog] is
    replaced by the synthetic static page. *)
Lemma injection_overwrites_existing_record :
  let processedData : PageMap := {[ "https://x/blog" := Examples.real_blog_index ]} in
  processedData !! "https://x/blog" = Some Examples.real_blog_index
  /\ exists record,
       ensureMinimumPageTypes Examples.offline "https://x" processedData !! "https://x/blog"
       = Some record
       /\ title record = Some "Blog"
       /\ description record = Some "Our blog posts"
       /\ type record = Some "static"
       /\ record <> Examples.real_blog_index.
Proof.
  split; [reflexivity|].
  eexists. split; [vm_compute; reflexivity|].
  repeat split. discriminate.
Qed.

(** ** Statistics *)

Lemma count_type_cons t d l :
  count_type t (d :: l) = Nat.b2n (has_type t d) + count_type t l.
Proof. unfold count_type. cbn. destruct (has_type t d); reflexivity. Qed.

Lemma count_type_nil t : count_type t [] = 0.
Proof. reflexivity. Qed.

(** A labelled record carries one of the five labels. *)
Lemma is_labelled_cases d :
  is_labelled d = true ->
  type d = Some "product" \/ type d = Some "category" \/ type d = Some "blog"
  \/ type d = Some "static" \/ type d = Some "others".
Proof.
  unfold is_labelled, mem_string, labels. destruct (type d) as [t|]; [|discriminate].
  cbn [existsb]. intros H.
  repeat (apply orb_true_iff in H as [H|H]); try discriminate;
    apply String.eqb_eq in H; subst t; tauto.
Qed.

Lemma count_page_labelled st d :
  is_labelled d = true ->
  count_page st d =
  {| Stats.all := S (Stats.all st);
     Stats.product := Stats.product st + Nat.b2n (has_type "product" d);
     Stats.blog := Stats.blog st + Nat.b2n (has_type "blog" d);
     Stats.category := Stats.category st + Nat.b2n (has_type "category" d);
     Stats.static := Stats.static st + Nat.b2n (has_type "static" d)
                     + Nat.b2n (has_type "others" d) |}.
Proof.
  intros Hd. destruct st as [a p b c s]. unfold count_page, has_type.
  destruct (is_labelled_cases d Hd) as [H|[H|[H|[H|H]]]]; rewrite H; cbn;
    f_equal; lia.
Qed.

Lemma getPageStats_fold_labelled l st :
  Forall (fun d => is_labelled d = true) l ->
  fold_left count_page l st =
  {| Stats.all := Stats.all st + length l;
     Stats.product := Stats.product st + count_type "product" l;
     Stats.blog := Stats.blog st + count_type "blog" l;
     Stats.category := Stats.category st + count_type "category" l;
     Stats.static := Stats.static st + count_type "static" l + count_type "others" l |}.
Proof.
  intros Hl. revert st. induction Hl as [|d l Hd _ IH]; intros st.
  - destruct st. cbn. f_equal; lia.
  - cbn [fold_left]. rewrite IH, (count_page_labelled st d Hd), !count_type_cons.
    cbn [Stats.all Stats.product Stats.blog Stats.category Stats.static length].
    f_equal; lia.
Qed.

(** Each labelled record is counted under exactly one label. *)
Lemma labelled_counts_sum l :
  Forall (fun d => is_labelled d = true) l ->
  length l = count_type "product" l + count_type "blog" l + count_type "category" l
             + count_type "static" l + count_type "others" l.
Proof.
  induction 1 as [|d l Hd _ IH]; [reflexivity|].
  rewrite !count_type_cons. cbn [length]. rewrite IH.
  unfold has_type.
  destruct (is_labelled_cases d Hd) as [H|[H|[H|[H|H]]]]; rewrite H; cbn; lia.
Qed.

Lemma has_type_normalized t d :
  is_labelled d = true ->
  has_type t (with_type d (default "others" (Js.or_else (type d) (Some "others"))))
  = has_type t d.
Proof.
  intros Hd. unfold has_type.
  destruct (is_labelled_cases d Hd) as [H|[H|[H|[H|H]]]]; rewrite H; reflexivity.
Qed.

Lemma count_type_converted t (m : PageMap) :
  labelled_map m ->
  count_type t (convertPageDataToArray m) = count_type t (Object_values m).
Proof.
  intros Hm. unfold convertPageDataToArray.
  assert (Hl : Forall (fun d => is_labelled d = true) (Object_values m)).
  { apply Forall_forall. intros d Hd. unfold Object_values in Hd.
    apply list_elem_of_fmap in Hd as [[u d'] [-> Hin]].
    apply elem_of_map_to_list in Hin. exact (Hm u d' Hin). }
  induction Hl as [|d l Hd _ IH]; [reflexivity|].
  cbn [map]. rewrite !count_type_cons, IH, has_type_normalized by assumption.
  reflexivity.
Qed.

Lemma labelled_values (m : PageMap) :
  labelled_map m -> Forall (fun d => is_labelled d = true) (Object_values m).
Proof.
  intros Hm. apply Forall_forall. intros d Hd. unfold Object_values in Hd.
  apply list_elem_of_fmap in Hd as [[u d'] [-> Hin]].
  apply elem_of_map_to_list in Hin. exact (Hm u d' Hin).
Qed.

Lemma length_Object_values (m : PageMap) : length (Object_values m) = size m.
Proof. unfold Object_values. now rewrite length_fmap, length_map_to_list. Qed.

(** C2 (as the code has it). For a map of labelled records, which is what
    the pipeline builds: the count [all] of [getPageStats] is the number of
    keys and the sum of its four counters, each of [product], [blog] and
    [category] counting the records of that type and [static] counting the
    records of type [static] and those of type [others]; the [total] of the
    route is the number of keys and the sum of its five counters, each
    counting the records of its own type. *)
Theorem stats_summary (pageData : PageMap) :
  labelled_map pageData ->
  let values := Object_values pageData in
  let stats := getPageStats pageData in
  let route := Route.page_stats (convertPageDataToArray pageData) in
  (Stats.all stats = size pageData
   /\ Stats.all stats = Stats.product stats + Stats.blog stats + Stats.category stats
                        + Stats.static stats
   /\ Stats.product stats = count_type "product" values
   /\ Stats.blog stats = count_type "blog" values
   /\ Stats.category stats = count_type "category" values
   /\ Stats.static stats = count_type "static" values + count_type "others" values)
  /\ (Route.total route = size pageData
      /\ Route.total route = Route.product route + Route.blog route + Route.category route
                             + Route.static route + Route.others route
      /\ Route.product route = count_type "product" values
      /\ Route.blog route = count_type "blog" values
      /\ Route.category route = count_type "category" values
      /\ Route.static route = count_type "static" values
      /\ Route.others route = count_type "others" values).
Proof.
  intros Hm values stats route.
  pose proof (labelled_values pageData Hm) as Hl. fold values in Hl.
  pose proof (labelled_counts_sum values Hl) as Hsum.
  pose proof (length_Object_values pageData) as Hsize. fold values in Hsize.
  split.
  - subst stats. unfold getPageStats. fold values.
    rewrite (getPageStats_fold_labelled values _ Hl).
    cbn [Stats.all Stats.product Stats.blog Stats.category Stats.static].
    repeat split; lia.
  - subst route. unfold Route.page_stats.
    cbn [Route.total Route.product Route.blog Route.category Route.static Route.others].
    rewrite !count_type_converted by assumption. fold values.
    assert (length (convertPageDataToArray pageData) = size pageData) as ->.
    { unfold convertPageDataToArray. rewrite length_map. exact Hsize. }
    repeat split; lia.
Qed.

(** C2, a run of the theorem: a static page and a page of type [others]. *)
Lemma stats_summary_witness :
  let pageData : PageMap :=
    {[ "https://x/about" := with_type (bare_page "https://x/about") "static";
       "https://x/random/xyz" := with_type (bare_page "https://x/random/xyz") "others" ]} in
  Stats.all (getPageStats pageData) = 2
  /\ Stats.static (getPageStats pageData) = 2
  /\ Route.static (Route.page_stats (convertPageDataToArray pageData)) = 1
  /\ Route.others (Route.page_stats (convertPageDataToArray pageData)) = 1.
Proof.
  intros pageData.
  assert (Hm : labelled_map pageData).
  { subst pageData. apply map_Forall_insert_2; [reflexivity|].
    apply map_Forall_singleton. reflexivity. }
  destruct (stats_summary pageData Hm)
    as ((Hall & _ & _ & _ & _ & Hstatic) & (_ & _ & _ & _ & _ & Hrstatic & Hrothers)).
  rewrite Hall, Hstatic, Hrstatic, Hrothers. repeat split.
Defined.

(** C2, counterexample: in a run of the pipeline on a site with one static
    page and one page of type [others], [getPageStats] counts the page of
    type [others] under [static]: it counts 8 where 7 records have the type
    [static]. *)
Lemma getPageStats_counts_others_as_static :
  exists pageData stats,
    processSitemap UrlModel.platform Examples.small_site "https://x/sitemap.xml"
    = Ok (pageData, stats)
    /\ type <$> pageData !! "https://x/random/xyz" = Some (Some "others")
    /\ count_type "others" (Object_values pageData) = 1
    /\ count_type "static" (Object_values pageData) = 7
    /\ Stats.static stats = 8.
Proof.
  assert (Hfacts :
            match processSitemap UrlModel.platform Examples.small_site
                    "https://x/sitemap.xml" with
            | Ok (m, st) =>
                (type <$> m !! "https://x/random/xyz",
                 count_type "others" (Object_values m),
                 count_type "static" (Object_values m),
                 Stats.static st)
            | Throw _ => (None, 0, 0, 0)
            end = (Some (Some "others"), 1, 7, 8)) by (vm_compute; reflexivity).
  destruct (processSitemap _ _ _) as [[pageData stats]|]; [|discriminate Hfacts].
  exists pageData, stats. split; [reflexivity|].
  injection Hfacts as -> -> -> ->. repeat split.
Qed.

(** ** The maps of the pipeline are labelled *)

Section PipelineFacts.

Variable P : Platform.
Variable W : World.

Lemma ensureSingleUrlData_type url category data :
  ensureSingleUrlData P W url category = Ok data -> type data = Some category.
Proof.
  unfold ensureSingleUrlData.
  destruct (extractPageData P W url) as [extracted|e]; cbn.
  - intros [= <-]. reflexivity.
  - destruct (construct_URL P url); cbn; [|discriminate]. intros [= <-]. reflexivity.
Qed.

Lemma merge_batch_labelled result (categoryData : list (BatchItem (string * PageData))) :
  labelled_map result ->
  Forall (fun item => match item with
                      | Value (_, data) => is_labelled data = true
                      | ErrorObject _ => True
                      end) categoryData ->
  labelled_map (merge_batch result categoryData).
Proof.
  intros Hres Hitems. revert result Hres. unfold merge_batch.
  induction Hitems as [|item items Hitem _ IH]; intros result Hres; [exact Hres|].
  cbn [fold_left]. apply IH.
  destruct item as [[url data]|]; [|exact Hres].
  apply map_Forall_insert_2; assumption.
Qed.

Lemma fold_Throw {A B} (step : Result A -> B -> Result A) (l : list B) e :
  (forall b, step (Throw e) b = Throw e) -> fold_left step l (Throw e) = Throw e.
Proof. intros Hstep. induction l as [|b l IH]; cbn; [reflexivity|]. now rewrite Hstep. Qed.

Lemma extraction_fold_labelled (entries : list (string * list string)) m0 m :
  Forall (fun entry => mem_string (fst entry) labels = true) entries ->
  labelled_map m0 ->
  fold_left (fun acc '(category, categoryUrls) =>
               result ← acc;
               categoryData ←
                 processInBatches categoryUrls
                   (fun url =>
                      data ← ensureSingleUrlData P W url category;
                      Ok (url, data));
               Ok (merge_batch result categoryData))
            entries (Ok m0) = Ok m ->
  labelled_map m.
Proof.
  intros Hentries. revert m0. induction Hentries as [|[category urls] entries Hc _ IH];
    intros m0 Hm0; cbn [fold_left].
  - intros [= <-]. exact Hm0.
  - cbn [mbind Result_bind]. rewrite processInBatches_map. cbn [mbind Result_bind].
    apply IH. apply merge_batch_labelled; [exact Hm0|].
    apply Forall_map, Forall_forall. intros url _.
    destruct (ensureSingleUrlData P W url category) as [data|] eqn:E; cbn; [|exact I].
    unfold is_labelled. rewrite (ensureSingleUrlData_type _ _ _ E). exact Hc.
Qed.

Lemma processAllUrls_labelled urls m :
  processAllUrls P W urls = Ok m -> labelled_map m.
Proof.
  unfold processAllUrls. intros H.
  destruct (Promise_all _) as [?|]; [cbn [mbind Result_bind] in H | discriminate].
  destruct (fold_left _ urls _) as [categorizedUrls|];
    [cbn [mbind Result_bind] in H | discriminate].
  cbv zeta in H.
  match type of H with
  | (?step ≫= _) = _ => destruct step as [categorizedUrls'|]
  end; [cbn [mbind Result_bind] in H | discriminate].
  eapply extraction_fold_labelled; [| |exact H].
  - unfold bucket_entries. repeat constructor.
  - apply map_Forall_empty.
Qed.

Lemma ensureMinimumPageTypes_labelled baseUrl m :
  labelled_map m -> labelled_map (ensureMinimumPageTypes W baseUrl m).
Proof.
  intros Hm. unfold ensureMinimumPageTypes. cbv zeta.
  destruct (existsb _ (Object_keys m));
    match goal with
    | |- context [if ?c then _ else _] => destruct c
    end;
    cbn [fold_left];
    repeat (apply map_Forall_insert_2; [reflexivity|]); exact Hm.
Qed.

(** Every record of a finished [processSitemap] has one of the five labels. *)
Lemma processSitemap_labelled siteUrl pageData stats :
  processSitemap P W siteUrl = Ok (pageData, stats) -> labelled_map pageData.
Proof.
  unfold processSitemap. intros H.
  destruct (fetchSitemapUrls P W siteUrl 0) as [urls|];
    [cbn [mbind Result_bind] in H | discriminate].
  destruct (processAllUrls P W _) as [m|] eqn:Hm;
    [cbn [mbind Result_bind] in H | discriminate].
  cbv zeta in H. injection H as <- _.
  pose proof (ensureMinimumPageTypes_labelled siteUrl m (processAllUrls_labelled _ _ Hm)).
  destruct (negb _); [|assumption].
  apply map_Forall_insert_2; [reflexivity | assumption].
Qed.


(** *** What the injection guarantees *)

Lemma count_type_pos (m : PageMap) u d t :
  m !! u = Some d -> type d = Some t -> 1 <= count_type t (Object_values m).
Proof.
  intros Hu Ht.
  assert (Hin : In d (List.filter (has_type t) (Object_values m))).
  { apply filter_In. split.
    - apply list_elem_of_In. unfold Object_values. apply list_elem_of_fmap.
      exists (u, d). split; [reflexivity|]. now apply elem_of_map_to_list.
    - unfold has_type. rewrite Ht. apply String.eqb_refl. }
  unfold count_type. destruct (List.filter _ _); [destruct Hin | cbn; lia].
Qed.

Lemma count_type_pos_inv t (l : list PageData) :
  1 <= count_type t l -> existsb (has_type t) l = true.
Proof.
  unfold count_type. induction l as [|d l IH]; cbn; [lia|].
  destruct (has_type t d); [reflexivity|]. exact IH.
Qed.

Lemma ensureMinimumPageTypes_has_static baseUrl m :
  exists d,
    ensureMinimumPageTypes W baseUrl m !! (Js.strip_trailing_slashes baseUrl +:+ "/blog")
    = Some d
    /\ type d = Some "static".
Proof.
  unfold ensureMinimumPageTypes. cbv zeta.
  destruct (existsb _ (Object_keys m));
    match goal with
    | |- context [if ?c then _ else _] => destruct c
    end;
    cbn [fold_left String.append];
    rewrite ?lookup_insert_ne by distinct_keys;
    rewrite lookup_insert_eq; eexists; (split; [reflexivity|]); reflexivity.
Qed.

Lemma ensureMinimumPageTypes_has_blog baseUrl m :
  exists u d,
    ensureMinimumPageTypes W baseUrl m !! u = Some d /\ type d = Some "blog".
Proof.
  unfold ensureMinimumPageTypes. cbv zeta.
  destruct (existsb _ (Object_keys m)).
  - exists (Js.strip_trailing_slashes baseUrl +:+ "/blog/icerik/sektor-haberleri").
    match goal with
    | |- context [if ?c then _ else _] => destruct c
    end;
    cbn [fold_left String.append];
    rewrite ?lookup_insert_ne by distinct_keys;
    rewrite lookup_insert_eq; eexists; (split; [reflexivity|]); reflexivity.
  - exists (Js.strip_trailing_slashes baseUrl +:+ "/blog/industry-news").
    match goal with
    | |- context [if ?c then _ else _] => destruct c
    end;
    cbn [fold_left String.append];
    rewrite ?lookup_insert_ne by distinct_keys;
    rewrite lookup_insert_eq; eexists; (split; [reflexivity|]); reflexivity.
Qed.

Lemma ensureMinimumPageTypes_has_category baseUrl m :
  1 <= count_type "category" (Object_values (ensureMinimumPageTypes W baseUrl m)).
Proof.
  unfold ensureMinimumPageTypes. cbv zeta.
  destruct (existsb _ (Object_keys m));
    match goal with
    | |- context [if (?n <? 3) then _ else _] => destruct (n <? 3) eqn:Hcount
    end;
    try (apply Nat.ltb_ge in Hcount; lia);
    cbn [fold_left String.append];
    apply (count_type_pos _ _ _ _ (lookup_insert_eq _ _ _)); reflexivity.
Qed.

End PipelineFacts.

(** C8 (as the code has it). When [processSitemap] completes, its counters
    [static], [blog] and [category] are at least 1, and the map holds a
    record of type [static] and a record of type [blog]. *)
Theorem processSitemap_coverage (P : Platform) (W : World) (siteUrl : string)
    (pageData : PageMap) (stats : PageStats) :
  processSitemap P W siteUrl = Ok (pageData, stats) ->
  1 <= Stats.static stats
  /\ 1 <= Stats.blog stats
  /\ 1 <= Stats.category stats
  /\ (exists u d, pageData !! u = Some d /\ type d = Some "static")
  /\ (exists u d, pageData !! u = Some d /\ type d = Some "blog").
Proof.
  intros Hrun. pose proof (processSitemap_labelled P W _ _ _ Hrun) as Hlabelled.
  unfold processSitemap in Hrun.
  destruct (fetchSitemapUrls P W siteUrl 0) as [urls|];
    [cbn [mbind Result_bind] in Hrun | discriminate].
  destruct (processAllUrls P W _) as [m|];
    [cbn [mbind Result_bind] in Hrun | discriminate].
  cbv zeta in Hrun.
  destruct (ensureMinimumPageTypes_has_blog W siteUrl m) as (ub & db & Hub & Hdb).
  destruct (ensureMinimumPageTypes_has_static W siteUrl m) as (ds & Hus & Hds).
  pose proof (ensureMinimumPageTypes_has_category W siteUrl m) as Hcat.
  rewrite (count_type_pos_inv "blog" _ (count_type_pos _ _ _ _ Hub Hdb)) in Hrun.
  cbn [negb] in Hrun. injection Hrun as <- <-.
  unfold getPageStats.
  rewrite (getPageStats_fold_labelled _ _ (labelled_values _ Hlabelled)).
  cbn [Stats.all Stats.product Stats.blog Stats.category Stats.static].
  pose proof (count_type_pos _ _ _ _ Hub Hdb).
  pose proof (count_type_pos _ _ _ _ Hus Hds).
  repeat split; try lia; eauto.
Qed.

(** C8, a run of the theorem on a site with two pages. *)
Lemma processSitemap_coverage_witness :
  exists pageData stats,
    processSitemap UrlModel.platform Examples.small_site "https://x/sitemap.xml"
    = Ok (pageData, stats)
    /\ 1 <= Stats.static stats /\ 1 <= Stats.blog stats /\ 1 <= Stats.category stats.
Proof.
  assert (Hok : match processSitemap UrlModel.platform Examples.small_site
                        "https://x/sitemap.xml" with
                | Ok _ => true
                | Throw _ => false
                end = true) by (vm_compute; reflexivity).
  destruct (processSitemap _ _ _) as [[pageData stats]|] eqn:Hrun; [|discriminate Hok].
  exists pageData, stats. split; [reflexivity|].
  destruct (processSitemap_coverage _ _ _ _ _ Hrun) as (Hs & Hb & Hc & _).
  auto.
Defined.

(** C8, counterexample: in a run in which a URL was classified (as
    [static]), the counter of the category [product] stays at 0. *)
Lemma processSitemap_leaves_product_empty :
  exists pageData stats,
    fetchSitemapUrls UrlModel.platform Examples.small_site "https://x/sitemap.xml" 0
    = Ok ["https://x/about"; "https://x/random/xyz"]
    /\ categorizeUrl UrlModel.platform (JsString "https://x/about") = Ok "static"
    /\ processSitemap UrlModel.platform Examples.small_site "https://x/sitemap.xml"
       = Ok (pageData, stats)
    /\ Stats.product stats = 0
    /\ count_type "product" (Object_values pageData) = 0.
Proof.
  assert (Hfacts :
            match processSitemap UrlModel.platform Examples.small_site
                    "https://x/sitemap.xml" with
            | Ok (m, st) => (Stats.product st, count_type "product" (Object_values m))
            | Throw _ => (1, 1)
            end = (0, 0)) by (vm_compute; reflexivity).
  destruct (processSitemap _ _ _) as [[pageData stats]|]; [|discriminate Hfacts].
  exists pageData, stats. injection Hfacts as -> ->.
  repeat split.
Qed.

(** ** Runs of the pipeline *)

(** A sitemap index that lists itself is followed down to depth 5: each of
    the five levels below the entry contributes the one page of the URL set,
    the string that is not a URL is dropped, and the missing sitemap
    contributes nothing. *)
Example fetchSitemapUrls_on_a_cycle :
  fetchSitemapUrls UrlModel.platform Examples.cyclic_site "https://x/sitemap.xml" 0
  = Ok ["https://x/urun/1"; "https://x/urun/1"; "https://x/urun/1"; "https://x/urun/1";
        "https://x/urun/1"].
Proof. vm_compute. reflexivity. Qed.

(** A negative numeral counts from the end of the list, as [slice] does. *)
Example limitedUrls_negative_numeral :
  Route.limitedUrls (JsString "-1") ["https://x/a"; "https://x/b"; "https://x/c"]
  = ["https://x/a"; "https://x/b"].
Proof. reflexivity. Qed.

(** Without a cap the route hands the empty list to [processAllUrls], whose
    [new URL(urls[0])] then throws: the answer is the status 500. *)
Example POST_without_cap :
  Route.POST UrlModel.platform Examples.small_site
    {| Route.sitemapUrl := JsString "https://x/sitemap.xml"; Route.maxUrls := JsUndefined |}
  = Route.ServerError "Invalid URL".
Proof. vm_compute. reflexivity. Qed.

(** * Further properties of the code *)

(** ** Classification of a list of URLs *)

Section ClassifierFacts.

Variable P : Platform.

Lemma categorizeUrl_label url category :
  categorizeUrl P url = Ok category -> In category labels.
Proof.
  unfold categorizeUrl, labels. destruct url; try (intros [= <-]; cbn; tauto).
  destruct (Js.is_empty s); [intros [= <-]; cbn; tauto|].
  destruct (construct_URL P s) as [u|]; [cbn|discriminate].
  repeat match goal with
         | |- context [if ?b then _ else _] => destruct b
         end; intros [= <-]; cbn; tauto.
Qed.

Lemma filed_under_label url : In (filed_under P url) labels.
Proof.
  unfold filed_under. destruct (categorizeUrl P (JsString url)) eqn:E.
  - eapply categorizeUrl_label, E.
  - cbn. tauto.
Qed.

Lemma categorizeUrls_fold urls b0 :
  fold_left
    (fun result url =>
       match category ← categorizeUrl P (JsString url); push_url result category url with
       | Ok result' => result'
       | Throw _ => Bucket.with_others result (Bucket.others result ++ [url])
       end)
    urls b0 =
  {| Bucket.product := Bucket.product b0 ++ filed P "product" urls;
     Bucket.category := Bucket.category b0 ++ filed P "category" urls;
     Bucket.blog := Bucket.blog b0 ++ filed P "blog" urls;
     Bucket.static := Bucket.static b0 ++ filed P "static" urls;
     Bucket.others := Bucket.others b0 ++ filed P "others" urls |}.
Proof.
  revert b0. induction urls as [|url urls IH]; intros [p c b s o].
  - cbn. now rewrite !app_nil_r.
  - cbn [fold_left]. rewrite IH. clear IH.
    unfold filed, filed_under. cbn [List.filter].
    destruct (categorizeUrl P (JsString url)) as [label|e] eqn:E.
    + apply categorizeUrl_label in E. cbn in E.
      destruct E as [<-|[<-|[<-|[<-|[<-|[]]]]]]; cbn; rewrite <- ?app_assoc; reflexivity.
    + cbn. rewrite <- ?app_assoc. reflexivity.
Qed.

(** X1. [categorizeUrls] never rejects, and it files every URL of its input
    exactly once: each of the five buckets holds, in input order, the URLs
    that [categorizeUrl] labels with the name of the bucket, a URL on which
    [categorizeUrl] raises going to [others]; so the sizes of the five
    buckets add up to the number of URLs. *)
Theorem categorizeUrls_partition urls :
  categorizeUrls P urls =
  Ok {| Bucket.product := filed P "product" urls;
        Bucket.category := filed P "category" urls;
        Bucket.blog := filed P "blog" urls;
        Bucket.static := filed P "static" urls;
        Bucket.others := filed P "others" urls |}
  /\ length (filed P "product" urls) + length (filed P "category" urls)
     + length (filed P "blog" urls) + length (filed P "static" urls)
     + length (filed P "others" urls) = length urls.
Proof.
  split.
  - unfold categorizeUrls. rewrite categorizeUrls_fold. reflexivity.
  - unfold filed. induction urls as [|url urls IH]; [reflexivity|].
    cbn [List.filter]. pose proof (filed_under_label url) as Hl. cbn in Hl.
    destruct Hl as [<-|[<-|[<-|[<-|[<-|[]]]]]]; cbn; lia.
Qed.

End ClassifierFacts.

(** ** Discovery: alternative locations and the depth limit *)

Section DiscoveryMore.

Variable P : Platform.
Variable W : World.

Lemma tryAlternativeSitemapUrls_find baseUrl :
  tryAlternativeSitemapUrls P W baseUrl =
  Ok (List.find (responds_200 W)
                (sitemap_candidates (robots_declared P W baseUrl) baseUrl)).
Proof.
  unfold tryAlternativeSitemapUrls, robots_declared, sitemap_candidates, construct_URL.
  destruct (new_URL P baseUrl) as [base|]; [|reflexivity]. cbn.
  destruct (http_get_text W (origin base +:+ "/robots.txt")) as [data|]; [|reflexivity].
  cbn. destruct (Robots.sitemap_directive data); reflexivity.
Qed.


Lemma first_locs_Ok entries locs :
  first_locs entries = Ok locs -> entries = Some <$> locs.
Proof.
  revert locs. induction entries as [|[loc|] rest IH]; cbn; intros locs H.
  - now injection H as <-.
  - destruct (first_locs rest) as [ls|]; [|discriminate]. cbn in H.
    injection H as <-. cbn. f_equal. now apply IH.
  - discriminate.
Qed.

(** X3. A sitemap index read at depth 5 contributes no URL: its children
    would be read at depth 6, beyond the limit, whatever they list. *)
Theorem fetchSitemapUrls_index_at_depth_limit sitemapUrl resolved entries :
  resolveSitemapUrl P W sitemapUrl = Ok resolved ->
  http_get_xml W resolved = Ok (SitemapIndex entries) ->
  fetchSitemapUrls P W sitemapUrl 5 = Ok [].
Proof.
  intros Hres Hget.
  destruct (first_locs entries) as [children|e] eqn:Hlocs.
  - apply first_locs_Ok in Hlocs. subst entries.
    rewrite (fetchSitemapUrls_index P W sitemapUrl 5 resolved children); [|lia|assumption..].
    f_equal. clear Hget. induction children as [|c cs IH]; [reflexivity|].
    cbn [map concat]. rewrite fetchSitemapUrls_deep by lia. cbn.
    apply IH.
  - rewrite fetchSitemapUrls_shallow by lia.
    unfold fetch_node. rewrite Hres. cbn. rewrite Hget. cbn. rewrite Hlocs. reflexivity.
Qed.

End DiscoveryMore.

(** X3, on the index of the cyclic site. *)
Lemma fetchSitemapUrls_index_at_depth_limit_witness :
  fetchSitemapUrls UrlModel.platform Examples.cyclic_site "https://x/sitemap.xml" 5 = Ok [].
Proof.
  apply (fetchSitemapUrls_index_at_depth_limit UrlModel.platform Examples.cyclic_site
           "https://x/sitemap.xml" "https://x/sitemap.xml"
           [Some "https://x/sitemap-pages.xml"; Some "https://x/sitemap-missing.xml";
            Some "https://x/sitemap.xml"]).
  - reflexivity.
  - reflexivity.
Defined.

(** ** The records of the extractor *)

Section ExtractorMore.

Variable P : Platform.
Variable W : World.

Lemma extractBlogPage_fields url document pageData pd :
  extractBlogPage P W url document pageData = Ok pd ->
  Page.url pd = Page.url pageData /\ type pd = Some "blog"
  /\ error pd = error pageData /\ timestamp pd = timestamp pageData.
Proof.
  unfold extractBlogPage.
  destruct (extractBlogImages P url document (default [] (images pageData))); cbn;
    [|discriminate].
  intros [= <-]. cbn. auto.
Qed.

(** X4. [extractPageData] never rejects.  Its record carries the URL it
    was asked for and the time of the call.  Either the record has no
    [error], the page was fetched and the type is one of [blog], [product],
    [category], [static]; or the record is the fallback one: type [others],
    no image, stock status [Available], and an [error] that is the message
    of the failed request when the request failed. *)
Theorem extractPageData_outcomes url :
  exists data,
    extractPageData P W url = Ok data
    /\ Page.url data = url
    /\ timestamp data = Some (now W)
    /\ match error data with
       | None =>
           (exists document, http_get_dom W url = Ok document)
           /\ In (type data) [Some "blog"; Some "product"; Some "category"; Some "static"]
       | Some message =>
           type data = Some "others" /\ images data = Some []
           /\ stockStatus data = Some "Available"
           /\ forall e, http_get_dom W url = Throw e -> message = String_of_error e
       end.
Proof.
  unfold extractPageData.
  destruct (http_get_dom W url) as [document|e0].
  2:{ cbn. eexists. split; [reflexivity|]. cbn. repeat split.
      intros e [= <-]. reflexivity. }
  cbn [mbind Result_bind]. cbv zeta.
  destruct (handled_as_blog url document).
  - match goal with
    | |- context [extractBlogPage P W url document ?pd] =>
        destruct (extractBlogPage P W url document pd) as [pd1|e1] eqn:E
    end.
    + apply extractBlogPage_fields in E as (Hu & Ht & He & Hs). cbn in Hu, He, Hs.
      cbn [try_catch]. eexists. split; [reflexivity|].
      destruct (negb (is_nil (extractBreadcrumb document))); cbn;
        rewrite ?Hu, ?Ht, ?He, ?Hs; repeat split; eauto; cbn; tauto.
    + cbn. eexists. split; [reflexivity|]. cbn. repeat split. intros e [=].
  - match goal with
    | |- context [if ?c then Ok (extractProductPage _ _) else _] => destruct c
    end.
    + cbn. eexists. split; [reflexivity|].
      destruct (negb (is_nil (extractBreadcrumb document))); cbn;
        repeat split; eauto; cbn; tauto.
    + match goal with
      | |- context [if ?c then Ok (extractCategoryPage _ _ _) else _] => destruct c
      end.
      * cbn. eexists. split; [reflexivity|].
        destruct (negb (is_nil (extractBreadcrumb document))); cbn;
          repeat split; eauto; cbn; tauto.
      * cbn. eexists. split; [reflexivity|].
        destruct (negb (is_nil (extractBreadcrumb document))); cbn;
          repeat split; eauto; cbn; tauto.
Qed.

Lemma extractPageData_url url :
  exists data, extractPageData P W url = Ok data /\ Page.url data = url.
Proof.
  unfold extractPageData.
  destruct (http_get_dom W url) as [document|e0]; [|cbn; eauto].
  cbn [mbind Result_bind]. cbv zeta.
  match goal with
  | |- context [try_catch (?branch ≫= _) _] => destruct branch as [pd|e] eqn:E
  end; [|cbn; eauto].
  cbn. eexists. split; [reflexivity|].
  assert (Hpd : Page.url pd = url).
  { revert E. destruct (handled_as_blog url document).
    - intros E. apply extractBlogPage_fields in E as [-> _]. reflexivity.
    - match goal with
      | |- context [if ?c then Ok (extractProductPage _ _) else _] => destruct c
      end; [intros [= <-]; reflexivity|].
      match goal with
      | |- context [if ?c then Ok (extractCategoryPage _ _ _) else _] => destruct c
      end; intros [= <-]; reflexivity. }
  destruct (negb (is_nil (extractBreadcrumb document))); cbn; exact Hpd.
Qed.

Lemma extractPageData_extracted url :
  extractPageData P W url = Ok (extracted P W url).
Proof.
  unfold extracted. destruct (extractPageData_url url) as (data & -> & _). reflexivity.
Qed.

Lemma extractPageData_blog_branch url document :
  http_get_dom W url = Ok document ->
  handled_as_blog url document = true ->
  exists data,
    extractPageData P W url = Ok data
    /\ (type data = Some "blog" \/ (type data = Some "others" /\ is_Some (error data))).
Proof.
  intros Hget Hblog. unfold extractPageData. rewrite Hget.
  cbn [mbind Result_bind]. cbv zeta. rewrite Hblog.
  match goal with
  | |- context [extractBlogPage P W url document ?pd] =>
      destruct (extractBlogPage P W url document pd) as [pd1|e1] eqn:E
  end.
  - apply extractBlogPage_fields in E as (_ & Ht & _).
    cbn. eexists. split; [reflexivity|]. left.
    destruct (negb (is_nil (extractBreadcrumb document))); cbn; exact Ht.
  - cbn. eexists. split; [reflexivity|]. right. cbn. eauto.
Qed.

(** X5. [ensureSingleUrlData] never rejects either: its [catch] branch,
    which parses the URL, is never entered.  It resolves with the record of
    [extractPageData] for the URL, its type replaced by the category that
    was passed in. *)
Theorem ensureSingleUrlData_overrides_type url category :
  exists data,
    extractPageData P W url = Ok data
    /\ ensureSingleUrlData P W url category = Ok (with_type data category)
    /\ Page.url (with_type data category) = url
    /\ type (with_type data category) = Some category.
Proof.
  destruct (extractPageData_url url) as (data & Hdata & Hurl).
  exists data. unfold ensureSingleUrlData. rewrite Hdata. cbn. auto.
Qed.

End ExtractorMore.

Lemma startsWith_app s p :
  Js.startsWith s p = true <-> exists rest, s = p +:+ rest.
Proof.
  unfold Js.startsWith. revert s. induction p as [|c p IH]; intros s.
  - split; [intros _; exists s; reflexivity | intros _; destruct s; reflexivity].
  - destruct s as [|d s]; [split; [discriminate | intros [? [=]]]|].
    cbn [String.prefix]. destruct (Ascii.ascii_dec c d) as [->|Hne].
    + rewrite IH. split; intros [rest H]; exists rest; [now rewrite H | now injection H].
    + split; [discriminate|]. intros [rest H]. injection H as H _. congruence.
Qed.

Lemma includes_app s sub :
  Js.includes s sub = true <-> exists before rest, s = before +:+ sub +:+ rest.
Proof.
  induction s as [|c s IH]; cbn [Js.includes]; rewrite orb_true_iff, startsWith_app.
  - split.
    + intros [[rest H]|[=]]. exists EmptyString, rest. exact H.
    + intros (before & rest & H). left. destruct before; [eauto|discriminate].
  - rewrite IH. split.
    + intros [[rest H]|(before & rest & H)].
      * exists EmptyString, rest. exact H.
      * exists (String c before), rest. cbn. now rewrite H.
    + intros ([|d before] & rest & H).
      * left. eauto.
      * right. injection H as _ H. eauto.
Qed.

Lemma append_assoc (a b c : string) : (a +:+ b) +:+ c = a +:+ (b +:+ c).
Proof.
  induction a as [|x a IH]; [reflexivity | exact (f_equal (String x) IH)].
Qed.

Lemma includes_part s a b c :
  Js.includes s (a +:+ b +:+ c) = true -> Js.includes s b = true.
Proof.
  rewrite !includes_app. intros (before & rest & ->).
  exists (before +:+ a), (c +:+ rest).
  now rewrite !append_assoc.
Qed.

Section ExtractorShadow.

Variable P : Platform.
Variable W : World.

(** X6. The tests of the category branch of [extractPageData] for
    [/kategori/], [/blog/kategori/] and [/blog/category/] never decide: a
    page whose lower-cased URL contains one of them is sent to the blog
    branch, so its record has the type [blog] (or is the fallback record of
    type [others], with an error), never the type [category]. *)
Theorem extractPageData_shadowed_category_patterns url pattern :
  In pattern ["/kategori/"; "/blog/kategori/"; "/blog/category/"] ->
  Js.includes (Js.toLowerCase url) pattern = true ->
  exists data,
    extractPageData P W url = Ok data
    /\ (type data = Some "blog" \/ (type data = Some "others" /\ is_Some (error data))).
Proof.
  intros Hin Hinc.
  destruct (http_get_dom W url) as [document|e] eqn:Hget.
  - apply (extractPageData_blog_branch P W url document Hget).
    unfold handled_as_blog. cbv zeta.
    assert (H : Js.includes (Js.toLowerCase url) "/blog/" = true
                \/ Js.includes (Js.toLowerCase url) "/kategori/" = true).
    { cbn in Hin. destruct Hin as [<-|[<-|[<-|[]]]].
      - now right.
      - right. exact (includes_part _ "/blog" "/kategori/" EmptyString Hinc).
      - left. exact (includes_part _ EmptyString "/blog/" "category/" Hinc). }
    destruct H as [-> | ->]; rewrite ?orb_true_r; reflexivity.
  - unfold extractPageData. rewrite Hget. cbn. eexists. split; [reflexivity|].
    right. cbn. eauto.
Qed.

End ExtractorShadow.

(** X6, on a category page of a site that serves blank pages. *)
Lemma extractPageData_shadowed_category_patterns_witness :
  exists data,
    extractPageData UrlModel.platform blank_site "https://x/kategori/shoes" = Ok data
    /\ (type data = Some "blog" \/ (type data = Some "others" /\ is_Some (error data))).
Proof.
  apply (extractPageData_shadowed_category_patterns UrlModel.platform blank_site
           "https://x/kategori/shoes" "/kategori/").
  - left. reflexivity.
  - reflexivity.
Defined.

(** ** The extraction pipeline *)

Section PipelineMore.

Variable P : Platform.
Variable W : World.

Lemma construct_URL_Throw url e : construct_URL P url = Throw e -> e = invalid_url.
Proof. unfold construct_URL. destruct (new_URL P url); [discriminate|]. now intros [= <-]. Qed.

Lemma categorizeUrl_Throw url e : categorizeUrl P url = Throw e -> e = invalid_url.
Proof.
  unfold categorizeUrl. destruct url; try discriminate.
  destruct (Js.is_empty s); [discriminate|].
  destruct (construct_URL P s) as [u|e'] eqn:E; cbn.
  - repeat match goal with
           | |- context [if ?b then _ else _] => destruct b
           end; discriminate.
  - intros [= <-]. eapply construct_URL_Throw, E.
Qed.

Lemma categorizeUrl_malformed url :
  Js.is_empty url = false -> new_URL P url = None ->
  categorizeUrl P (JsString url) = Throw invalid_url.
Proof.
  intros Hne Hnone. unfold categorizeUrl, construct_URL. rewrite Hne, Hnone. reflexivity.
Qed.

Lemma Promise_all_Throw {A B} (f : A -> Result B) (l : list A) e0 e :
  (forall a e', f a = Throw e' -> e' = e0) ->
  Promise_all (map f l) = Throw e -> e = e0.
Proof.
  intros Hf. induction l as [|a l IH]; cbn; [discriminate|].
  destruct (f a) as [b|e'] eqn:E; cbn.
  - destruct (Promise_all (map f l)); cbn; [discriminate|].
    intros [= <-]. now apply IH.
  - intros [= <-]. eapply Hf, E.
Qed.

(** The strict classification loop of [processAllUrls]. *)
Lemma strict_fold urls b0 :
  match fold_left (fun acc url =>
                     categorizedUrls ← acc;
                     category ← categorizeUrl P (JsString url);
                     push_url categorizedUrls category url)
                  urls (Ok b0) with
  | Ok b =>
      Forall (fun url => categorizeUrl P (JsString url) = Ok (filed_under P url)) urls
      /\ b = {| Bucket.product := Bucket.product b0 ++ filed P "product" urls;
                Bucket.category := Bucket.category b0 ++ filed P "category" urls;
                Bucket.blog := Bucket.blog b0 ++ filed P "blog" urls;
                Bucket.static := Bucket.static b0 ++ filed P "static" urls;
                Bucket.others := Bucket.others b0 ++ filed P "others" urls |}
  | Throw e =>
      e = invalid_url
      /\ Exists (fun url => categorizeUrl P (JsString url) = Throw invalid_url) urls
  end.
Proof.
  revert b0. induction urls as [|url urls IH]; intros [p c b s o].
  - cbn. split; [constructor|]. now rewrite !app_nil_r.
  - cbn [fold_left mbind Result_bind].
    destruct (categorizeUrl P (JsString url)) as [label|e] eqn:E.
    + pose proof (categorizeUrl_label P _ _ E) as Hl. cbn in Hl.
      assert (Hfu : filed_under P url = label) by (unfold filed_under; now rewrite E).
      assert (Hhead : categorizeUrl P (JsString url) = Ok (filed_under P url))
        by now rewrite Hfu.
      cbn in IH; destruct Hl as [<-|[<-|[<-|[<-|[<-|[]]]]]]; cbn;
        match goal with
        | |- context [fold_left ?f urls (Ok ?b1)] =>
            specialize (IH b1); destruct (fold_left f urls (Ok b1)) as [b'|e']
        end;
        try (destruct IH as [-> Hex]; split; [reflexivity | now apply Exists_cons_tl]);
        destruct IH as [Hall ->]; (split; [constructor; [exact Hhead | exact Hall]|]);
        unfold filed; cbn [List.filter Bucket.product Bucket.category Bucket.blog
                             Bucket.static Bucket.others];
        rewrite Hfu; cbn; rewrite <- ?app_assoc; reflexivity.
    + apply categorizeUrl_Throw in E as Heq. subst e.
      cbn [mbind Result_bind]. rewrite fold_Throw by reflexivity.
      split; [reflexivity | now apply Exists_cons_hd].
Qed.

(** X7. Unlike [categorizeUrls], [processAllUrls] does not catch the error
    of its classification loop: if one URL of the input is a non-empty
    string that the URL parser refuses, the whole call rejects with that
    [TypeError], whatever the other URLs are. *)
Theorem processAllUrls_rejects_malformed urls url :
  In url urls -> Js.is_empty url = false -> new_URL P url = None ->
  processAllUrls P W urls = Throw invalid_url.
Proof.
  intros Hin Hne Hnone. unfold processAllUrls.
  destruct (Promise_all _) as [parsed|e] eqn:Hparsed.
  2:{ apply (Promise_all_Throw _ _ invalid_url) in Hparsed; [now subst|].
      apply construct_URL_Throw. }
  cbn [mbind Result_bind].
  pose proof (strict_fold urls empty_buckets) as Hfold.
  destruct (fold_left _ urls (Ok empty_buckets)) as [b|e].
  - destruct Hfold as [Hall _]. exfalso.
    rewrite Forall_forall in Hall. apply list_elem_of_In in Hin.
    specialize (Hall url Hin). rewrite categorizeUrl_malformed in Hall by assumption.
    discriminate.
  - destruct Hfold as [-> _]. reflexivity.
Qed.

Lemma processAllUrls_nil :
  new_URL P "undefined" = None -> processAllUrls P W [] = Throw invalid_url.
Proof.
  intros Hnone. unfold processAllUrls, construct_URL. cbn. rewrite Hnone. reflexivity.
Qed.

Lemma merge_batch_Forall (Q : string -> PageData -> Prop) result
    (items : list (BatchItem (string * PageData))) :
  map_Forall Q result ->
  Forall (fun item => match item with
                      | Value (u, d) => Q u d
                      | ErrorObject _ => True
                      end) items ->
  map_Forall Q (merge_batch result items).
Proof.
  intros Hres Hitems. revert result Hres. unfold merge_batch.
  induction Hitems as [|item items Hitem _ IH]; intros result Hres; [exact Hres|].
  cbn [fold_left]. apply IH.
  destruct item as [[u d]|]; [|exact Hres].
  apply map_Forall_insert_2; assumption.
Qed.

Lemma merge_batch_keeps result (items : list (BatchItem (string * PageData))) u :
  is_Some (result !! u) -> is_Some (merge_batch result items !! u).
Proof.
  revert result. unfold merge_batch.
  induction items as [|item items IH]; intros result Hu; [exact Hu|].
  cbn [fold_left]. apply IH. destruct item as [[u' d]|]; [|exact Hu].
  destruct (decide (u' = u)) as [->|Hne].
  - rewrite lookup_insert_eq. eauto.
  - now rewrite lookup_insert_ne.
Qed.

Lemma merge_batch_adds result (items : list (BatchItem (string * PageData))) u d :
  In (Value (u, d)) items -> is_Some (merge_batch result items !! u).
Proof.
  revert result. induction items as [|item items IH]; intros result; [intros []|].
  intros [->|Hin].
  - change (is_Some (merge_batch (<[u := d]> result) items !! u)).
    apply merge_batch_keeps. rewrite lookup_insert_eq. eauto.
  - unfold merge_batch. cbn [fold_left]. apply IH, Hin.
Qed.

Lemma ensureSingleUrlData_extract url category :
  exists data,
    extractPageData P W url = Ok data /\ Page.url data = url
    /\ ensureSingleUrlData P W url category = Ok (with_type data category).
Proof.
  destruct (extractPageData_url P W url) as (data & Hdata & Hurl).
  exists data. unfold ensureSingleUrlData. rewrite Hdata. cbn. auto.
Qed.

Lemma extraction_step_Ok m0 category categoryUrls :
  extraction_step P W (Ok m0) (category, categoryUrls) =
  Ok (merge_batch m0
        (map (fun url =>
                Value (url, with_type (extracted P W url) category))
             categoryUrls)).
Proof.
  unfold extraction_step. cbn [mbind Result_bind]. rewrite processInBatches_map.
  cbn [mbind Result_bind]. do 2 f_equal. apply map_ext. intros url.
  destruct (ensureSingleUrlData_extract url category) as (data & Hdata & _ & ->).
  unfold extracted. rewrite Hdata. reflexivity.
Qed.

Lemma extraction_fold_Forall (Q : string -> PageData -> Prop) entries m0 m :
  (forall url label data,
      In label labels -> extractPageData P W url = Ok data ->
      Q url (with_type data label)) ->
  Forall (fun entry : string * list string => In (fst entry) labels) entries ->
  map_Forall Q m0 ->
  fold_left (extraction_step P W) entries (Ok m0) = Ok m ->
  map_Forall Q m.
Proof.
  intros HQ Hentries. revert m0.
  induction Hentries as [|[category urls] entries Hc _ IH]; intros m0 Hm0; cbn [fold_left].
  - intros [= <-]. exact Hm0.
  - rewrite extraction_step_Ok. apply IH.
    apply merge_batch_Forall; [exact Hm0|].
    apply Forall_map, Forall_forall. intros url _.
    cbn. apply HQ; [assumption | apply extractPageData_extracted].
Qed.

Lemma extraction_fold_dom entries m0 u :
  (is_Some (m0 !! u) \/ exists entry, In entry entries /\ In u (snd entry)) ->
  exists m, fold_left (extraction_step P W) entries (Ok m0) = Ok m /\ is_Some (m !! u).
Proof.
  revert m0. induction entries as [|[category urls] entries IH]; intros m0 Hu.
  - destruct Hu as [Hu|(entry & [] & _)]. cbn. eauto.
  - cbn [fold_left]. rewrite extraction_step_Ok. apply IH.
    destruct Hu as [Hu|(entry & [<-|Hin] & Hu)].
    + left. now apply merge_batch_keeps.
    + left. cbn in Hu. eapply merge_batch_adds.
      apply in_map_iff. exists u. split; [reflexivity | exact Hu].
    + right. eauto.
Qed.

Lemma processAllUrls_Forall (Q : string -> PageData -> Prop) urls m :
  (forall url label data,
      In label labels -> extractPageData P W url = Ok data ->
      Q url (with_type data label)) ->
  processAllUrls P W urls = Ok m -> map_Forall Q m.
Proof.
  intros HQ. unfold processAllUrls. intros H.
  destruct (Promise_all _) as [?|]; [cbn [mbind Result_bind] in H | discriminate].
  destruct (fold_left _ urls _) as [categorizedUrls|];
    [cbn [mbind Result_bind] in H | discriminate].
  cbv zeta in H.
  match type of H with
  | (?step ≫= _) = _ => destruct step as [categorizedUrls'|]
  end; [cbn [mbind Result_bind] in H | discriminate].
  eapply (extraction_fold_Forall Q); [exact HQ| | |exact H].
  - unfold bucket_entries, labels. repeat constructor; cbn; tauto.
  - apply map_Forall_empty.
Qed.

Lemma processAllUrls_keyed urls m :
  processAllUrls P W urls = Ok m -> map_Forall (fun key record => Page.url record = key) m.
Proof.
  apply processAllUrls_Forall. intros url label data Hlabel Hdata.
  destruct (extractPageData_url P W url) as (data' & Hdata' & Hurl).
  rewrite Hdata in Hdata'. injection Hdata' as <-. exact Hurl.
Qed.

Lemma in_buckets_entries u b :
  in_buckets u b -> exists entry, In entry (bucket_entries b) /\ In u (snd entry).
Proof.
  unfold in_buckets, bucket_entries.
  intros [H|[H|[H|[H|H]]]]; eexists (_, _); (split; [|exact H]); cbn;
    repeat (first [left; reflexivity | right]).
Qed.

Lemma processAllUrls_dom urls m url :
  processAllUrls P W urls = Ok m -> In url urls -> is_Some (m !! url).
Proof.
  unfold processAllUrls. intros H Hin.
  destruct (Promise_all _) as [?|]; [cbn [mbind Result_bind] in H | discriminate].
  pose proof (strict_fold urls empty_buckets) as Hfold.
  destruct (fold_left _ urls _) as [b|];
    [cbn [mbind Result_bind] in H | discriminate].
  destruct Hfold as [_ Hb]. cbn [empty_buckets Bucket.product Bucket.category Bucket.blog
                                  Bucket.static Bucket.others app] in Hb.
  assert (H0 : in_buckets url b).
  { rewrite Hb. unfold in_buckets. cbn.
    assert (Hf : In url (filed P (filed_under P url) urls)).
    { apply filter_In. split; [exact Hin | apply String.eqb_refl]. }
    pose proof (filed_under_label P url) as Hl. cbn in Hl.
    destruct Hl as [Hl|[Hl|[Hl|[Hl|[Hl|[]]]]]]; rewrite <- Hl in Hf; tauto. }
  clear Hb. cbv zeta in H.
  match type of H with
  | context [if ?c then Bucket.with_product b ?l else b] =>
      assert (H1 : in_buckets url (if c then Bucket.with_product b l else b));
      [|generalize dependent (if c then Bucket.with_product b l else b)]
  end.
  { destruct (negb (is_nil (Bucket.category b))); [|exact H0]. cbn [andb].
    destruct b as [[|p ps] c bl s o]; [|exact H0]. cbn [is_nil Bucket.product].
    unfold in_buckets in *. cbn in *. tauto. }
  clear H0 b. intros b H Hb.
  match type of H with
  | (?step ≫= _) = _ => destruct step as [b'|] eqn:Hstep
  end; [cbn [mbind Result_bind] in H | discriminate].
  assert (Hb' : in_buckets url b').
  { destruct b as [p c [|x bl] s o]; cbn [is_nil Bucket.blog] in Hstep.
    - destruct (construct_URL P _); [|discriminate]. cbn in Hstep.
      injection Hstep as <-. unfold in_buckets in *. cbn in *. tauto.
    - injection Hstep as <-. exact Hb. }
  clear Hstep Hb b. cbv zeta in H.
  match type of H with
  | fold_left _ (bucket_entries ?final) _ = _ =>
      assert (Hfinal : in_buckets url final)
  end.
  { destruct (negb (is_nil _)); [|exact Hb'].
    destruct b' as [p c bl s o]. unfold in_buckets in *. cbn in *.
    rewrite in_app_iff. tauto. }
  apply in_buckets_entries in Hfinal.
  destruct (extraction_fold_dom _ ∅ url (or_intror Hfinal)) as (m' & Hm' & Hu).
  fold (extraction_step P W) in H. rewrite Hm' in H. injection H as <-. exact Hu.
Qed.

(** X8. When [processAllUrls] resolves, no URL of its input has been
    dropped: each has a record in the result.  And every record of the result
    sits under its own URL and is the record of [extractPageData] for that
    URL, retyped with one of the five labels. *)
Theorem processAllUrls_records urls m :
  processAllUrls P W urls = Ok m ->
  (forall url, In url urls -> is_Some (m !! url))
  /\ map_Forall
       (fun key record =>
          Page.url record = key
          /\ exists data label,
               extractPageData P W key = Ok data /\ In label labels
               /\ record = with_type data label)
       m.
Proof.
  intros H. split.
  - intros url. now apply processAllUrls_dom.
  - revert H. apply processAllUrls_Forall. intros url label data Hlabel Hdata.
    destruct (extractPageData_url P W url) as (data' & Hdata' & Hurl).
    rewrite Hdata in Hdata'. injection Hdata' as <-.
    split; [exact Hurl|]. eauto.
Qed.

End PipelineMore.

(** X7, with one malformed URL after a well-formed one. *)
Lemma processAllUrls_rejects_malformed_witness :
  processAllUrls UrlModel.platform Examples.offline ["https://x/about"; "not a url"]
  = Throw invalid_url.
Proof.
  apply (processAllUrls_rejects_malformed UrlModel.platform Examples.offline
           ["https://x/about"; "not a url"] "not a url").
  - right. left. reflexivity.
  - reflexivity.
  - reflexivity.
Defined.

(** X8, on a run with one URL. *)
Lemma processAllUrls_records_witness :
  exists m,
    processAllUrls UrlModel.platform Examples.offline ["https://x/about"] = Ok m
    /\ is_Some (m !! "https://x/about").
Proof.
  assert (Hok : match processAllUrls UrlModel.platform Examples.offline
                        ["https://x/about"] with
                | Ok _ => true
                | Throw _ => false
                end = true) by (vm_compute; reflexivity).
  destruct (processAllUrls _ _ _) as [m|] eqn:Hrun; [|discriminate Hok].
  exists m. split; [reflexivity|].
  destruct (processAllUrls_records _ _ _ _ Hrun) as [Hdom _].
  apply Hdom. left. reflexivity.
Defined.

(** ** The answers of [POST] *)

Lemma with_type_same d t : type d = Some t -> with_type d t = d.
Proof. destruct d. cbn. now intros ->. Qed.

Lemma convertPageDataToArray_labelled (m : PageMap) :
  labelled_map m -> convertPageDataToArray m = Object_values m.
Proof.
  intros Hm. unfold convertPageDataToArray.
  pose proof (labelled_values m Hm) as Hl.
  induction Hl as [|d l Hd _ IH]; [reflexivity|]. cbn [map]. rewrite IH. f_equal.
  apply with_type_same.
  destruct (is_labelled_cases d Hd) as [H|[H|[H|[H|H]]]]; rewrite H; reflexivity.
Qed.

Lemma urls_of_type_cons t d l :
  urls_of_type t (d :: l) =
  if has_type t d then url d :: urls_of_type t l else urls_of_type t l.
Proof. unfold urls_of_type. cbn. destruct (has_type t d); reflexivity. Qed.

Lemma regroup_fold (pages : list PageData) b0 :
  Forall (fun d => is_labelled d = true) pages ->
  fold_left
    (fun acc page =>
       updatedCategorized ← acc;
       let type := default "others" (Js.or_else (type page) (Some "others")) in
       push_url updatedCategorized type (url page))
    pages (Ok b0) =
  Ok {| Bucket.product := Bucket.product b0 ++ urls_of_type "product" pages;
        Bucket.category := Bucket.category b0 ++ urls_of_type "category" pages;
        Bucket.blog := Bucket.blog b0 ++ urls_of_type "blog" pages;
        Bucket.static := Bucket.static b0 ++ urls_of_type "static" pages;
        Bucket.others := Bucket.others b0 ++ urls_of_type "others" pages |}.
Proof.
  intros Hl. revert b0. induction Hl as [|d l Hd _ IH]; intros [p c b s o].
  - cbn. now rewrite !app_nil_r.
  - cbn [fold_left mbind Result_bind]. cbv zeta.
    rewrite !urls_of_type_cons. unfold has_type.
    destruct (is_labelled_cases d Hd) as [H|[H|[H|[H|H]]]]; rewrite H;
      cbn in IH |- *; rewrite IH; cbn; rewrite <- ?app_assoc; reflexivity.
Qed.

Lemma urls_of_type_spec (label : string) (pages : list PageData) :
  NoDup (map url pages) ->
  NoDup (urls_of_type label pages)
  /\ forall u,
       In u (urls_of_type label pages)
       <-> exists page, In page pages /\ type page = Some label /\ url page = u.
Proof.
  intros Hnd. split.
  - unfold urls_of_type. induction pages as [|page pages IH]; [constructor|].
    cbn [map] in Hnd. apply NoDup_cons in Hnd as [Hnotin Hnd].
    cbn [List.filter]. destruct (has_type label page); [|apply IH, Hnd].
    cbn [map]. apply NoDup_cons. split; [|apply IH, Hnd].
    intros Hin. apply Hnotin. apply list_elem_of_In in Hin. apply list_elem_of_In.
    apply in_map_iff in Hin as (page' & Hurl & Hin). apply filter_In in Hin as [Hin _].
    apply in_map_iff. eauto.
  - intros u. unfold urls_of_type. rewrite in_map_iff. split.
    + intros (page & Hurl & Hin). apply filter_In in Hin as [Hin Htype].
      exists page. split; [exact Hin|]. split; [|exact Hurl].
      unfold has_type in Htype. destruct (type page) as [t|]; [|discriminate].
      apply String.eqb_eq in Htype. now subst.
    + intros (page & Hin & Htype & Hurl). exists page. split; [exact Hurl|].
      apply filter_In. split; [exact Hin|]. unfold has_type. rewrite Htype.
      apply String.eqb_refl.
Qed.

Lemma Object_values_keyed (m : PageMap) (page : PageData) :
  map_Forall (fun key record => Page.url record = key) m ->
  In page (Object_values m) <-> m !! url page = Some page.
Proof.
  intros Hm. unfold Object_values. rewrite <- list_elem_of_In, list_elem_of_fmap. split.
  - intros ([u page'] & -> & Hin). apply elem_of_map_to_list in Hin.
    cbn. rewrite (Hm u page' Hin). exact Hin.
  - intros Hin. exists (url page, page). split; [reflexivity|].
    apply elem_of_map_to_list. exact Hin.
Qed.

Section RouteFacts.

Variable P : Platform.
Variable W : World.

(** The answer for a selection: the records of [processAllUrls], grouped
    and counted, or its error. *)
Lemma answer_cases urls :
  Route.answer P W (Ok urls) =
  match processAllUrls P W urls with
  | Ok pageData =>
      Route.Success
        {| Route.results := Object_values pageData;
           Route.categorized := by_type (Object_values pageData);
           Route.stats := Route.page_stats (Object_values pageData) |}
  | Throw error =>
      Route.ServerError (if Js.is_empty (err_message error) then "Internal server error"
                         else err_message error)
  end.
Proof.
  unfold Route.answer. cbn [mbind Result_bind].
  unfold categorizeUrls at 1. cbn [mbind Result_bind].
  destruct (processAllUrls P W _) as [pageData|e] eqn:Hrun; [|reflexivity].
  cbn [mbind Result_bind].
  pose proof (processAllUrls_labelled P W _ _ Hrun) as Hm.
  rewrite (convertPageDataToArray_labelled _ Hm).
  pose proof (regroup_fold _ empty_buckets (labelled_values _ Hm)) as Hr.
  cbv zeta in Hr. rewrite Hr. reflexivity.
Qed.

Lemma POST_cases body :
  Route.truthy (Route.sitemapUrl body) = true ->
  Route.POST P W body =
  match processAllUrls P W (selected P W body) with
  | Ok pageData =>
      Route.Success
        {| Route.results := Object_values pageData;
           Route.categorized := by_type (Object_values pageData);
           Route.stats := Route.page_stats (Object_values pageData) |}
  | Throw error =>
      Route.ServerError (if Js.is_empty (err_message error) then "Internal server error"
                         else err_message error)
  end.
Proof.
  intros Ht. unfold Route.POST, selected, discovered. rewrite Ht. cbn [negb].
  assert (Hfetch :
            match Route.sitemapUrl body with
            | JsString sitemapUrl => fetchSitemapUrls P W sitemapUrl 0
            | _ => Ok []
            end =
            Ok match Route.sitemapUrl body with
               | JsString sitemapUrl => urls_of (fetchSitemapUrls P W sitemapUrl 0)
               | _ => []
               end).
  { destruct (Route.sitemapUrl body); try reflexivity. apply urls_of_fetch. }
  rewrite Hfetch. cbn [mbind Result_bind]. apply answer_cases.
Qed.

Lemma processAllUrls_Throw urls e :
  processAllUrls P W urls = Throw e -> e = invalid_url.
Proof.
  unfold processAllUrls. intros H.
  destruct (Promise_all _) as [parsed|e0] eqn:Hparsed.
  2:{ injection H as <-.
      apply (Promise_all_Throw _ _ invalid_url) in Hparsed; [assumption|].
      apply construct_URL_Throw. }
  cbn [mbind Result_bind] in H.
  pose proof (strict_fold P urls empty_buckets) as Hfold.
  destruct (fold_left _ urls (Ok empty_buckets)) as [b|e0].
  2:{ injection H as <-. tauto. }
  clear Hfold. cbn [mbind Result_bind] in H. cbv zeta in H.
  match type of H with
  | (?step ≫= _) = _ => destruct step as [b'|e0] eqn:Hstep
  end.
  2:{ injection H as <-. destruct (is_nil _); [|discriminate].
      destruct (construct_URL P _) eqn:Hc; [discriminate|].
      injection Hstep as <-. eapply construct_URL_Throw, Hc. }
  cbn [mbind Result_bind] in H. exfalso. revert H.
  generalize (∅ : PageMap).
  match goal with
  | |- forall _, fold_left _ ?entries _ = _ -> _ => generalize entries
  end.
  fold (extraction_step P W).
  intros entries. induction entries as [|[c us] entries IH]; intros m0; cbn [fold_left].
  - discriminate.
  - rewrite extraction_step_Ok. apply IH.
Qed.

Lemma keyed_urls (m : PageMap) :
  map_Forall (fun key record => Page.url record = key) m ->
  map url (Object_values m) = Object_keys m.
Proof.
  intros Hm. unfold Object_values, Object_keys.
  change (map url (map_to_list m).*2) with (url <$> (map_to_list m).*2).
  rewrite <- list_fmap_compose. apply Forall_fmap_ext_1, Forall_forall.
  intros [k d] Hin. apply elem_of_map_to_list in Hin. exact (Hm k d Hin).
Qed.

Lemma length_urls_of_type t pages : length (urls_of_type t pages) = count_type t pages.
Proof. unfold urls_of_type, count_type. apply length_map. Qed.

(** X9. The answers of [POST], on whatever the request holds.  The status
    400 is given exactly when the body is not [null] and its [sitemapUrl] is
    missing or falsy.  The status 500 is given in four cases: the body
    cannot be read, and the message is that of the error; the body is
    [null]; [maxUrls] has no string, and the message is that of the
    [TypeError]; [processAllUrls] rejects the selected URLs, and the message
    is [Invalid URL].  Discovery and classification never fail.  In an
    answer of status 200 the results are the records of [processAllUrls]
    for the selected URLs, each under its own URL; their URLs are pairwise
    distinct and each has one of the five labels; each list of [categorized]
    holds, once each, the URLs of the results of its type; in [stats] the
    total and crawled counts are the number of results, the failed count is
    0 and each category count is the size of its list.  The order of the
    results, that of the insertion of the records in the code, is left
    open. *)
Theorem POST_outcomes (request : Result Json.value) :
  match PostRoute.POST P W request with
  | Route.BadRequest message =>
      message = "sitemapUrl parameter is required"
      /\ exists body,
           request = Ok body /\ body <> Json.Null
           /\ Json.truthy (Json.get body "sitemapUrl") = false
  | Route.ServerError message =>
      (exists error,
          request = Throw error
          /\ message = if Js.is_empty (err_message error) then "Internal server error"
                       else err_message error)
      \/ request = Ok Json.Null
      \/ exists body,
           request = Ok body /\ body <> Json.Null
           /\ Json.truthy (Json.get body "sitemapUrl") = true
           /\ ((exists value error,
                   Json.get body "maxUrls" = Some value
                   /\ Json.ToString value = Throw error
                   /\ PostRoute.selection P W body = Throw error
                   /\ message = "Cannot convert object to primitive value")
               \/ (exists urls,
                      PostRoute.selection P W body = Ok urls
                      /\ processAllUrls P W urls = Throw invalid_url
                      /\ message = "Invalid URL"))
  | Route.Success answer =>
      let pages := Route.results answer in
      let groups := Route.categorized answer in
      let stats := Route.stats answer in
      exists body urls pageData,
        request = Ok body /\ body <> Json.Null
        /\ Json.truthy (Json.get body "sitemapUrl") = true
        /\ PostRoute.selection P W body = Ok urls
        /\ processAllUrls P W urls = Ok pageData
        /\ (forall page, In page pages <-> pageData !! url page = Some page)
        /\ length pages = size pageData
        /\ NoDup (map url pages)
        /\ Forall (fun page => is_labelled page = true) pages
        /\ (forall label listed,
              In (label, listed) (bucket_entries groups) ->
              NoDup listed
              /\ forall u,
                   In u listed
                   <-> exists page, In page pages /\ type page = Some label /\ url page = u)
        /\ Route.total stats = length pages
        /\ Route.crawled stats = length pages
        /\ Route.failed stats = 0
        /\ Route.product stats = length (Bucket.product groups)
        /\ Route.category stats = length (Bucket.category groups)
        /\ Route.blog stats = length (Bucket.blog groups)
        /\ Route.static stats = length (Bucket.static groups)
        /\ Route.others stats = length (Bucket.others groups)
  end.
Proof.
  destruct request as [body|error]; [|left; exists error; split; reflexivity].
  assert (Hcase : body = Json.Null \/ body <> Json.Null)
    by (destruct body; first [left; reflexivity | right; discriminate]).
  destruct Hcase as [->|Hbody]; [right; left; reflexivity|].
  rewrite (POST_body P W body Hbody).
  destruct (Json.truthy (Json.get body "sitemapUrl")) eqn:Ht; cbn [negb].
  2:{ split; [reflexivity|]. exists body. auto. }
  destruct (PostRoute.selection P W body) as [urls|error] eqn:Hsel.
  2:{ pose proof Hsel as Hthrow. unfold PostRoute.selection in Hthrow.
      destruct (discover_resolves P W (Json.get body "sitemapUrl")) as [urls Hurls].
      rewrite Hurls in Hthrow. cbn [mbind Result_bind] in Hthrow.
      apply limitedUrls_Throw in Hthrow as (value & Hvalue & Hthrow).
      pose proof (ToString_Throw value error Hthrow) as ->.
      right; right. exists body. split; [reflexivity|]. split; [exact Hbody|].
      split; [exact Ht|]. left.
      exists value, (TypeError "Cannot convert object to primitive value").
      split; [exact Hvalue|]. split; [exact Hthrow|]. split; [exact Hsel|reflexivity]. }
  rewrite answer_cases.
  destruct (processAllUrls P W urls) as [pageData|e] eqn:Hrun.
  - cbn [Route.results Route.categorized Route.stats]. cbv zeta.
    pose proof (processAllUrls_keyed P W _ _ Hrun) as Hkeyed.
    assert (Hnd : NoDup (map url (Object_values pageData))).
    { rewrite (keyed_urls _ Hkeyed). apply NoDup_fst_map_to_list. }
    exists body, urls, pageData.
    split; [reflexivity|]. split; [exact Hbody|]. split; [exact Ht|].
    split; [exact Hsel|]. split; [exact Hrun|].
    split; [intros page; apply Object_values_keyed, Hkeyed|].
    split; [apply length_Object_values|]. split; [exact Hnd|].
    split; [apply labelled_values; eapply processAllUrls_labelled, Hrun|].
    split.
    { intros label listed Hin. unfold by_type, bucket_entries in Hin. cbn in Hin.
      destruct Hin as [H|[H|[H|[H|[H|[]]]]]]; injection H as <- <-;
        apply urls_of_type_spec, Hnd. }
    unfold by_type. cbn. rewrite !length_urls_of_type. repeat split.
  - apply processAllUrls_Throw in Hrun as Heq. subst e. cbn.
    right; right. exists body. split; [reflexivity|]. split; [exact Hbody|].
    split; [exact Ht|]. right. exists urls. split; [exact Hsel|]. split; [exact Hrun|].
    reflexivity.
Qed.

(** X10. When the selection of [POST] is empty (nothing was discovered, or
    the cap keeps nothing), [processAllUrls] parses [urls[0]], which is
    [undefined]: on a platform that refuses that string the answer is the
    status 500 with the message [Invalid URL], not an empty result. *)
Theorem POST_rejects_empty_selection body :
  Route.truthy (Route.sitemapUrl body) = true ->
  selected P W body = [] ->
  new_URL P "undefined" = None ->
  Route.POST P W body = Route.ServerError "Invalid URL".
Proof.
  intros Ht Hsel Hundefined. rewrite (POST_cases body Ht), Hsel.
  rewrite processAllUrls_nil by assumption. reflexivity.
Qed.

(** X11. [processSitemap] rejects, with the [TypeError] of the URL parser,
    when neither the sitemap nor the probe for common static pages yields a
    URL: the synthetic pages are never reached. *)
Theorem processSitemap_rejects_without_urls siteUrl :
  addCommonStaticPages W siteUrl (urls_of (fetchSitemapUrls P W siteUrl 0)) = [] ->
  new_URL P "undefined" = None ->
  processSitemap P W siteUrl = Throw invalid_url.
Proof.
  intros Hnone Hundefined. unfold processSitemap.
  rewrite urls_of_fetch. cbn [mbind Result_bind]. cbv zeta.
  rewrite Hnone, processAllUrls_nil by assumption. reflexivity.
Qed.

End RouteFacts.

(** X10, on a request without a cap. *)
Lemma POST_rejects_empty_selection_witness :
  Route.POST UrlModel.platform Examples.small_site
    {| Route.sitemapUrl := JsString "https://x/sitemap.xml"; Route.maxUrls := JsUndefined |}
  = Route.ServerError "Invalid URL".
Proof.
  apply POST_rejects_empty_selection.
  - reflexivity.
  - vm_compute. reflexivity.
  - reflexivity.
Defined.

(** X11, on a site that cannot be reached. *)
Lemma processSitemap_rejects_without_urls_witness :
  processSitemap UrlModel.platform Examples.offline "https://x/" = Throw invalid_url.
Proof.
  apply processSitemap_rejects_without_urls.
  - vm_compute. reflexivity.
  - reflexivity.
Defined.

(** ** The cap of [POST] *)

(** C10 (as the code has it).  On a body with a non-empty string for
    [sitemapUrl], [POST] answers for the URLs that [maxUrls] selects among
    the discovered ones.  With the string [all] every URL is kept.  With any
    other string, [parseInt] decides: the decimal numeral of [n] keeps the
    first [n] URLs (all of them when there are fewer), and so does that
    numeral followed by other text, as in [12px]; a string that does not
    start with a numeral, after white space and a sign, keeps none.  With no
    [maxUrls], with [null] or with a boolean none is kept.  A number keeps
    what [parseInt] reads in its string: the first [n] URLs for an integer
    [n] below 2^53.  Any other value is read through its string, and when it
    has none the answer is the status 500 with the message of the error.
    When no URL is kept nothing is classified, and [processAllUrls] rejects
    on [new URL(urls[0])]: the answer is the status 500. *)
Theorem maxUrls_cap (P : Platform) (W : World) (body : Json.value) (sitemapUrl : string) :
  Json.get body "sitemapUrl" = Some (Json.Str sitemapUrl) ->
  Js.is_empty sitemapUrl = false ->
  let urls := urls_of (fetchSitemapUrls P W sitemapUrl 0) in
  let maxUrls := Json.get body "maxUrls" in
  let selected := PostRoute.selection P W body in
  PostRoute.POST P W (Ok body) = Route.answer P W selected
  /\ (maxUrls = Some (Json.Str "all") -> selected = Ok urls)
  /\ (forall n : nat,
        maxUrls = Some (Json.Str (pretty n)) -> selected = Ok (take n urls))
  /\ (forall (n : nat) (rest : string),
        maxUrls = Some (Json.Str (pretty n +:+ rest)) ->
        follows_numeral n rest = true ->
        selected = Ok (take n urls))
  /\ (forall s,
        maxUrls = Some (Json.Str s) -> s <> "all" ->
        selected = Ok (Route.slice_to urls (Js.parseInt s)))
  /\ (forall s,
        maxUrls = Some (Json.Str s) -> s <> "all" ->
        Js.starts_with_numeral s = false ->
        selected = Ok [])
  /\ (maxUrls = None -> selected = Ok [])
  /\ (maxUrls = Some Json.Null -> selected = Ok [])
  /\ (forall b, maxUrls = Some (Json.Bool b) -> selected = Ok [])
  /\ (forall text,
        maxUrls = Some (Json.Number text) ->
        selected = Ok (Route.slice_to urls (Js.parseInt text)))
  /\ (forall n : nat,
        (Z.of_nat n < 2 ^ 53)%Z ->
        maxUrls = Some (Json.Number (Js.Number_toString (Z.of_nat n))) ->
        selected = Ok (take n urls))
  /\ (forall v text,
        maxUrls = Some v -> v <> Json.Str "all" -> Json.ToString v = Ok text ->
        selected = Ok (Route.slice_to urls (Js.parseInt text)))
  /\ (forall v error,
        maxUrls = Some v -> Json.ToString v = Throw error ->
        selected = Throw error
        /\ Route.answer P W selected
           = Route.ServerError (if Js.is_empty (err_message error)
                                then "Internal server error" else err_message error))
  /\ categorizeUrls P [] = Ok empty_buckets
  /\ (new_URL P "undefined" = None ->
      Route.answer P W (Ok []) = Route.ServerError "Invalid URL").
Proof.
  intros Hurl Hne. cbv zeta.
  assert (Hbody : body <> Json.Null) by (intros ->; discriminate Hurl).
  rewrite (selection_of_string P W body sitemapUrl Hurl).
  set (urls := urls_of (fetchSitemapUrls P W sitemapUrl 0)).
  assert (Hstring : forall s, s <> "all" ->
            PostRoute.limitedUrls (Some (Json.Str s)) urls
            = Ok (Route.slice_to urls (Js.parseInt s)))
    by (intros s Hs; apply PostRoute_limitedUrls_string, Hs).
  assert (Hnumeral : forall (n : nat) rest,
            follows_numeral n rest = true ->
            PostRoute.limitedUrls (Some (Json.Str (pretty n +:+ rest))) urls
            = Ok (take n urls)).
  { intros n rest Hrest. pose proof (parseInt_numeral_then n rest Hrest) as Hn.
    rewrite Hstring by (intros Heq; rewrite Heq in Hn; discriminate Hn).
    rewrite Hn, slice_to_nat. reflexivity. }
  split.
  { rewrite (POST_body P W body Hbody), Hurl. cbn [Json.truthy]. rewrite Hne. cbn [negb].
    rewrite (selection_of_string P W body sitemapUrl Hurl). reflexivity. }
  split; [intros ->; reflexivity|].
  split.
  { intros n ->. specialize (Hnumeral n EmptyString eq_refl).
    assert (Happ : forall s : string, s +:+ EmptyString = s).
    { induction s as [|c s IH]; [reflexivity|]. exact (f_equal (String c) IH). }
    rewrite Happ in Hnumeral. exact Hnumeral. }
  split; [intros n rest -> Hrest; apply Hnumeral, Hrest|].
  split; [intros s -> Hs; apply Hstring, Hs|].
  split.
  { intros s -> Hs Hnum. rewrite Hstring by exact Hs.
    rewrite (parseInt_NaN s Hnum). reflexivity. }
  split; [intros ->; reflexivity|].
  split; [intros ->; reflexivity|].
  split; [intros [] ->; reflexivity|].
  split; [intros text ->; reflexivity|].
  split.
  { intros n Hn ->. cbn [PostRoute.limitedUrls Json.ToString mbind Result_bind].
    rewrite Number_toString_safe by lia.
    rewrite parseInt_pretty_nat, slice_to_nat. reflexivity. }
  split.
  { intros v text -> Hv Htext.
    rewrite PostRoute_limitedUrls_value by exact Hv. rewrite Htext. reflexivity. }
  split.
  { intros v error -> Herror.
    assert (Hv : v <> Json.Str "all") by (intros ->; discriminate Herror).
    rewrite PostRoute_limitedUrls_value by exact Hv. rewrite Herror.
    split; reflexivity. }
  split; [reflexivity|].
  intros Hundefined. rewrite answer_cases, processAllUrls_nil by assumption. reflexivity.
Qed.

(** C10, a run of the theorem: the first of the two URLs of a sitemap. *)
Lemma maxUrls_cap_witness :
  PostRoute.selection UrlModel.platform Examples.small_site
    (Json.Object [("sitemapUrl", Json.Str "https://x/sitemap.xml");
                  ("maxUrls", Json.Str "1")])
  = Ok ["https://x/about"]
  /\ PostRoute.POST UrlModel.platform Examples.small_site
       (Ok (Json.Object [("sitemapUrl", Json.Str "https://x/sitemap.xml");
                         ("maxUrls", Json.Str "1")]))
     = Route.answer UrlModel.platform Examples.small_site (Ok ["https://x/about"]).
Proof.
  destruct (maxUrls_cap UrlModel.platform Examples.small_site
              (Json.Object [("sitemapUrl", Json.Str "https://x/sitemap.xml");
                            ("maxUrls", Json.Str "1")])
              "https://x/sitemap.xml" eq_refl eq_refl)
    as (Hpost & _ & Hn & _).
  specialize (Hn 1 eq_refl).
  assert (Hurls : urls_of (fetchSitemapUrls UrlModel.platform Examples.small_site
                             "https://x/sitemap.xml" 0)
                  = ["https://x/about"; "https://x/random/xyz"])
    by (vm_compute; reflexivity).
  rewrite Hurls in Hn. change (take 1 ["https://x/about"; "https://x/random/xyz"])
    with ["https://x/about"] in Hn.
  rewrite Hn in Hpost. split; [exact Hn | exact Hpost].
Defined.

(** C10, counterexample: [maxUrls] is not numeric, the string [1px] or an
    array, and a URL is kept, processed and returned. *)
Lemma maxUrls_text_after_numeral :
  Js.parseInt "1px" = Some 1%Z
  /\ PostRoute.selection UrlModel.platform Examples.small_site
       (Json.Object [("sitemapUrl", Json.Str "https://x/sitemap.xml");
                     ("maxUrls", Json.Str "1px")])
     = Ok ["https://x/about"]
  /\ PostRoute.selection UrlModel.platform Examples.small_site
       (Json.Object [("sitemapUrl", Json.Str "https://x/sitemap.xml");
                     ("maxUrls", Json.Array [Json.Number "1"])])
     = Ok ["https://x/about"]
  /\ exists answer,
       PostRoute.POST UrlModel.platform Examples.small_site
         (Ok (Json.Object [("sitemapUrl", Json.Str "https://x/sitemap.xml");
                           ("maxUrls", Json.Str "1px")]))
       = Route.Success answer
       /\ map url (Route.results answer) = ["https://x/about"]
       /\ Route.total (Route.stats answer) = 1.
Proof.
  split; [reflexivity|]. split; [vm_compute; reflexivity|].
  split; [vm_compute; reflexivity|].
  assert (H : match PostRoute.POST UrlModel.platform Examples.small_site
                      (Ok (Json.Object [("sitemapUrl", Json.Str "https://x/sitemap.xml");
                                        ("maxUrls", Json.Str "1px")])) with
              | Route.Success answer =>
                  (map url (Route.results answer), Route.total (Route.stats answer))
              | _ => ([], 0)
              end = (["https://x/about"], 1)) by (vm_compute; reflexivity).
  destruct (PostRoute.POST _ _ _) as [|answer|]; try discriminate H.
  exists answer. injection H as H1 H2. auto.
Qed.

(** ** Statistics and coverage on arbitrary maps *)

Lemma size_insert_bounds (m : PageMap) k v :
  size m <= size (<[k := v]> m) <= S (size m).
Proof. rewrite map_size_insert. destruct (m !! k); unfold id; lia. Qed.

Lemma has_type_effective t d :
  t <> "static" -> Js.is_empty t = false ->
  has_type t d = String.eqb (effective_type d) t.
Proof.
  intros Hs Ht. unfold has_type, effective_type, Js.or_else, Js.truthy.
  destruct (type d) as [[|c s]|]; cbn -[String.eqb].
  - destruct t; [discriminate|].
    destruct (String.eqb_spec "static" (String a t)); [congruence | reflexivity].
  - reflexivity.
  - destruct (String.eqb_spec "static" t); [congruence | reflexivity].
Qed.

Lemma count_page_closed st d :
  count_page st d =
  let e := effective_type d in
  {| Stats.all := Stats.all st + 1 + (if String.eqb e "all" then 1 else 0);
     Stats.product := Stats.product st + (if has_type "product" d then 1 else 0);
     Stats.blog := Stats.blog st + (if has_type "blog" d then 1 else 0);
     Stats.category := Stats.category st + (if has_type "category" d then 1 else 0);
     Stats.static :=
       Stats.static st + (if negb (mem_string e uncounted_names) then 1 else 0) |}.
Proof.
  rewrite !(has_type_effective _ d) by (discriminate || reflexivity).
  destruct st as [a p b c s]. unfold count_page. fold (effective_type d). cbv zeta.
  unfold uncounted_names, mem_string. cbn [app existsb Stats.all Stats.product Stats.blog
    Stats.category Stats.static].
  destruct (String.eqb_spec (effective_type d) "all") as [->|_].
  { cbn. f_equal; lia. }
  destruct (String.eqb_spec (effective_type d) "product") as [->|_].
  { cbn. f_equal; lia. }
  destruct (String.eqb_spec (effective_type d) "blog") as [->|_].
  { cbn. f_equal; lia. }
  destruct (String.eqb_spec (effective_type d) "category") as [->|_].
  { cbn. f_equal; lia. }
  destruct (String.eqb_spec (effective_type d) "static") as [->|_].
  { cbn. f_equal; lia. }
  cbn [orb negb].
  destruct (existsb (String.eqb (effective_type d)) inherited_names); cbn; f_equal; lia.
Qed.

Lemma getPageStats_fold l st :
  fold_left count_page l st =
  {| Stats.all :=
       Stats.all st + length l
       + count_where (fun d => String.eqb (effective_type d) "all") l;
     Stats.product := Stats.product st + count_type "product" l;
     Stats.blog := Stats.blog st + count_type "blog" l;
     Stats.category := Stats.category st + count_type "category" l;
     Stats.static :=
       Stats.static st
       + count_where (fun d => negb (mem_string (effective_type d) uncounted_names)) l |}.
Proof.
  revert st. induction l as [|d l IH]; intros st.
  - destruct st. cbn. f_equal; lia.
  - cbn [fold_left]. rewrite IH, count_page_closed. cbv zeta.
    unfold count_where, count_type.
    cbn [List.filter Stats.all Stats.product Stats.blog Stats.category Stats.static].
    repeat match goal with
           | |- context [if ?c then _ else _] => destruct c
           end; cbn [length]; f_equal; lia.
Qed.

(** X12. The counters of [getPageStats] on an arbitrary map.  [product],
    [blog] and [category] count the records of that type.  [all] is the
    number of records plus the number of records whose type is [all]
    (counted twice).  [static] counts the records whose type, [static] when
    missing or empty, is neither [all], [product], [blog] or [category] nor
    a name inherited from [Object.prototype]; a record with such an
    inherited name as its type is counted under [all] only. *)
Theorem getPageStats_counts (pageData : PageMap) :
  let values := Object_values pageData in
  getPageStats pageData =
  {| Stats.all :=
       size pageData + count_where (fun d => String.eqb (effective_type d) "all") values;
     Stats.product := count_type "product" values;
     Stats.blog := count_type "blog" values;
     Stats.category := count_type "category" values;
     Stats.static :=
       count_where (fun d => negb (mem_string (effective_type d) uncounted_names))
                   values |}.
Proof.
  cbv zeta. unfold getPageStats. rewrite getPageStats_fold, length_Object_values.
  reflexivity.
Qed.

Lemma nine_keys_size (m : PageMap) (keys : list string) :
  NoDup keys -> Forall (fun k => is_Some (m !! k)) keys -> length keys <= size m.
Proof.
  intros Hnd Hall.
  rewrite <- (size_dom (D := gset string) m).
  rewrite <- (size_list_to_set (C := gset string) keys Hnd).
  apply subseteq_size. intros k Hk. apply elem_of_list_to_set in Hk.
  apply elem_of_dom. rewrite Forall_forall in Hall. auto.
Qed.

Section CoverageMore.

Variable W : World.

Lemma ensureMinimumPageTypes_keeps baseUrl (m : PageMap) u :
  is_Some (m !! u) -> is_Some (ensureMinimumPageTypes W baseUrl m !! u).
Proof.
  intros Hu. unfold ensureMinimumPageTypes. cbv zeta.
  destruct (existsb _ (Object_keys m));
    match goal with
    | |- context [if ?c then _ else _] => destruct c
    end;
    cbn [fold_left String.append];
    repeat (apply lookup_insert_is_Some'; right); exact Hu.
Qed.

Lemma ensureMinimumPageTypes_nine baseUrl (m : PageMap) :
  9 <= size (ensureMinimumPageTypes W baseUrl m).
Proof.
  set (base := Js.strip_trailing_slashes baseUrl).
  destruct (existsb (fun url =>
               Js.includes url "/sayfa/" || Js.includes url "/kategori/"
               || Js.includes url "/icerik/" || Js.includes url "/hakkimizda"
               || Js.includes url "/iletisim") (Object_keys m)) eqn:Hlocale.
  - apply (nine_keys_size _
             (map (fun path => base +:+ path)
                  ["/sayfa/hakkimizda"; "/sayfa/iletisim"; "/sayfa/gizlilik-politikasi";
                   "/sayfa/satis-sozlesmesi"; "/sayfa/sikca-sorulan-sorular";
                   "/blog/icerik/yeni-urunlerimiz-hakkinda";
                   "/blog/icerik/musteri-deneyimleri"; "/blog/icerik/sektor-haberleri";
                   "/blog"])).
    + apply (NoDup_fmap_2 (String.append base)). apply (bool_decide_unpack _).
      vm_compute. exact I.
    + unfold ensureMinimumPageTypes. cbv zeta. fold base. rewrite Hlocale.
      match goal with
      | |- context [if ?c then _ else _] => destruct c
      end;
      cbn [fold_left String.append map];
      repeat (constructor;
              [repeat (apply lookup_insert_is_Some';
                       first [left; reflexivity | right])|]);
      constructor.
  - apply (nine_keys_size _
             (map (fun path => base +:+ path)
                  ["/about-us"; "/contact"; "/privacy-policy"; "/terms-of-service"; "/faq";
                   "/blog/new-product-announcement"; "/blog/customer-testimonials";
                   "/blog/industry-news"; "/blog"])).
    + apply (NoDup_fmap_2 (String.append base)). apply (bool_decide_unpack _).
      vm_compute. exact I.
    + unfold ensureMinimumPageTypes. cbv zeta. fold base. rewrite Hlocale.
      match goal with
      | |- context [if ?c then _ else _] => destruct c
      end;
      cbn [fold_left String.append map];
      repeat (constructor;
              [repeat (apply lookup_insert_is_Some';
                       first [left; reflexivity | right])|]);
      constructor.
Qed.

(** X13. [ensureMinimumPageTypes] removes no URL; every URL it adds is the
    URL of one of its synthetic pages; it adds at most 12 records; and its
    result has at least 9 records, whatever it was given. *)
Theorem ensureMinimumPageTypes_keys baseUrl (processedData : PageMap) :
  let result := ensureMinimumPageTypes W baseUrl processedData in
  (forall u, is_Some (processedData !! u) -> is_Some (result !! u))
  /\ (forall u, is_Some (result !! u) ->
                is_Some (processedData !! u) \/ In u (synthetic_urls baseUrl))
  /\ size processedData <= size result <= size processedData + 12
  /\ 9 <= size result.
Proof.
  cbv zeta. split; [intros u; apply ensureMinimumPageTypes_keeps|].
  split; [|split; [|apply ensureMinimumPageTypes_nine]].
  all: unfold ensureMinimumPageTypes; cbv zeta;
    destruct (existsb _ (Object_keys processedData));
    match goal with
    | |- context [if ?c then _ else _] => destruct c
    end;
    cbn [fold_left String.append].
  all: try (intros u Hu;
            repeat (apply lookup_insert_is_Some' in Hu as [<-|Hu];
                    [right; unfold synthetic_urls, synthetic_paths; cbn [map In];
                     repeat (first [left; reflexivity | right])|]);
            left; exact Hu).
  all: repeat match goal with
              | |- context [size (<[?k := ?v]> ?r)] =>
                  generalize (size_insert_bounds r k v);
                  generalize (size (<[k := v]> r))
              end; intros; lia.
Qed.

End CoverageMore.

(** ** The crawlers *)

Lemma mem_string_In x l : mem_string x l = true <-> In x l.
Proof.
  unfold mem_string. rewrite existsb_exists. split.
  - intros (y & Hy & Heq). apply String.eqb_eq in Heq. now subst.
  - intros Hx. exists x. split; [exact Hx | apply String.eqb_refl].
Qed.

Lemma mem_string_not_In x l : mem_string x l = false <-> ~ In x l.
Proof.
  rewrite <- mem_string_In. destruct (mem_string x l); split; congruence.
Qed.

Lemma NoDup_push (l : list string) x : NoDup l -> ~ In x l -> NoDup (l ++ [x]).
Proof.
  intros Hl Hx. apply NoDup_app. split; [exact Hl|]. split.
  - intros y Hy Hy'. apply list_elem_of_In in Hy.
    apply list_elem_of_singleton in Hy'. subst. contradiction.
  - apply NoDup_singleton.
Qed.

Section CrawlerFacts.

Variable P : Platform.
Variable W : World.

Lemma collect_links_invariant (Q : string -> Prop) wanted base document found :
  (forall u, Js.includes u wanted = true -> Js.includes u "/kategori/" = false -> Q u) ->
  NoDup found -> Forall Q found ->
  NoDup (collect_links P wanted base document found)
  /\ Forall Q (collect_links P wanted base document found).
Proof.
  intros HQ. unfold collect_links. generalize (link_hrefs document) as hrefs.
  intros hrefs. revert found. induction hrefs as [|h hrefs IH]; intros found Hnd Hall.
  - cbn. auto.
  - cbn [fold_left]. apply IH.
    + destruct (Js.truthy h); [|exact Hnd].
      destruct (resolve P _ base) as [absolute|]; [|exact Hnd].
      destruct (Js.includes absolute wanted && _ && negb (mem_string absolute found))
        eqn:Hc; [|exact Hnd].
      apply andb_true_iff in Hc as [_ Hc]. apply negb_true_iff, mem_string_not_In in Hc.
      now apply NoDup_push.
    + destruct (Js.truthy h); [|exact Hall].
      destruct (resolve P _ base) as [absolute|]; [|exact Hall].
      destruct (Js.includes absolute wanted && _ && negb (mem_string absolute found))
        eqn:Hc; [|exact Hall].
      apply andb_true_iff in Hc as [Hc _]. apply andb_true_iff in Hc as [Hw Hk].
      apply negb_true_iff in Hk.
      apply Forall_app. split; [exact Hall|]. constructor; [|constructor]. now apply HQ.
Qed.

(** X15. The product URLs collected from category pages are pairwise
    distinct, each contains [/urun/] and none contains [/kategori/]; only
    the first 10 category pages are read. *)
Theorem extractProductUrlsFromCategories_products categoryUrls :
  let productUrls := extractProductUrlsFromCategories P W categoryUrls in
  NoDup productUrls
  /\ Forall (fun url => Js.includes url "/urun/" = true
                        /\ Js.includes url "/kategori/" = false) productUrls
  /\ productUrls = extractProductUrlsFromCategories P W (take 10 categoryUrls).
Proof.
  cbv zeta. unfold extractProductUrlsFromCategories. rewrite take_take, Nat.min_id.
  split; [|split; [|reflexivity]];
    generalize (take 10 categoryUrls) as pages; intros pages;
    assert (H : NoDup (@nil string) /\
                Forall (fun url => Js.includes url "/urun/" = true
                                   /\ Js.includes url "/kategori/" = false) [])
      by (split; constructor);
    revert H; generalize (@nil string) as found; intros found;
    revert found; induction pages as [|page pages IH]; intros found [Hnd Hall];
    cbn [fold_left]; try assumption; apply IH;
    (destruct (http_get_dom W page) as [document|]; [|now split]);
    apply collect_links_invariant; auto.
Qed.

(** X16. The blog URLs collected from the blog index of a site are pairwise
    distinct, each contains [/blog/icerik/] and none contains [/kategori/];
    the list is empty when the index cannot be fetched. *)
Theorem extractBlogUrlsFromSite_posts baseUrl :
  let blogUrls := extractBlogUrlsFromSite P W baseUrl in
  NoDup blogUrls
  /\ Forall (fun url => Js.includes url "/blog/icerik/" = true
                        /\ Js.includes url "/kategori/" = false) blogUrls
  /\ (forall error,
        http_get_dom W (Js.strip_trailing_slashes baseUrl +:+ "/blog") = Throw error ->
        blogUrls = []).
Proof.
  cbv zeta. unfold extractBlogUrlsFromSite.
  destruct (http_get_dom W _) as [document|] eqn:Hdom.
  - split; [|split; [|intros error Herr; discriminate Herr]];
      apply (collect_links_invariant
               (fun url => Js.includes url "/blog/icerik/" = true
                           /\ Js.includes url "/kategori/" = false)
               "/blog/icerik/" (Js.strip_trailing_slashes baseUrl +:+ "/blog")
               document []); auto; constructor.
  - split; [constructor|]. split; [constructor|]. reflexivity.
Qed.

End CrawlerFacts.

Lemma unique_fold (l seen : list string) :
  NoDup seen ->
  let result := fold_left (fun seen x => if mem_string x seen then seen else seen ++ [x])
                          l seen in
  NoDup result /\ (forall x, In x result <-> In x seen \/ In x l)
  /\ exists added, result = seen ++ added.
Proof.
  cbv zeta. revert seen. induction l as [|y l IH]; intros seen Hnd; cbn [fold_left].
  - split; [exact Hnd|]. split; [cbn; tauto|]. exists []. now rewrite app_nil_r.
  - destruct (mem_string y seen) eqn:Hy.
    + destruct (IH seen Hnd) as (H1 & H2 & H3). split; [exact H1|]. split; [|exact H3].
      intros x. rewrite H2. apply mem_string_In in Hy. cbn. intuition (subst; auto).
    + apply mem_string_not_In in Hy.
      destruct (IH (seen ++ [y]) (NoDup_push _ _ Hnd Hy)) as (H1 & H2 & added & H3).
      split; [exact H1|]. split.
      * intros x. rewrite H2, in_app_iff. cbn. tauto.
      * exists (y :: added). rewrite H3, <- app_assoc. reflexivity.
Qed.

Section StaticProbe.

Variable W : World.

(** X17. [addCommonStaticPages] keeps the given URLs, in order, as a prefix
    of its result and appends at most 15 URLs.  Each appended URL is the base
    URL followed by [/] and one of the fixed patterns, answered 200 to a
    [HEAD] request and was not among the given URLs; the appended URLs are
    pairwise distinct, so the result has no duplicate when the input has
    none. *)
Theorem addCommonStaticPages_extends baseUrl urls :
  exists added,
    addCommonStaticPages W baseUrl urls = urls ++ added
    /\ length added <= 15
    /\ NoDup added
    /\ Forall (fun url =>
                 responds_200 W url = true /\ ~ In url urls
                 /\ exists pattern,
                      In pattern commonStaticPatterns
                      /\ url = baseUrl +:+ "/" +:+ pattern) added
    /\ (NoDup urls -> NoDup (addCommonStaticPages W baseUrl urls)).
Proof.
  unfold addCommonStaticPages. cbv zeta. eexists. split; [reflexivity|].
  fold commonStaticPatterns.
  set (candidates := map (fun pattern => baseUrl +:+ "/" +:+ pattern) commonStaticPatterns).
  set (keep := fun candidate =>
                 match http_head W candidate with
                 | Ok status => Nat.eqb status 200 && negb (mem_string candidate urls)
                 | Throw _ => false
                 end).
  assert (Hcand : NoDup candidates).
  { subst candidates. change (NoDup ((fun pattern => baseUrl +:+ "/" +:+ pattern)
                                       <$> commonStaticPatterns)).
    apply NoDup_fmap_2.
    - intros a b H. apply (inj (String.append _)) in H.
      now apply (inj (String.append _)) in H.
    - unfold commonStaticPatterns. apply (bool_decide_unpack _). vm_compute. exact I. }
  assert (Hall : Forall (fun url =>
                           responds_200 W url = true /\ ~ In url urls
                           /\ exists pattern,
                                In pattern commonStaticPatterns
                                /\ url = baseUrl +:+ "/" +:+ pattern)
                        (List.filter keep candidates)).
  { apply Forall_forall. intros url Hin. apply list_elem_of_In, filter_In in Hin as [Hin Hk].
    subst keep candidates. cbn beta in Hk. unfold responds_200.
    destruct (http_head W url); [|discriminate].
    apply andb_true_iff in Hk as [-> Hk]. apply negb_true_iff, mem_string_not_In in Hk.
    split; [reflexivity|]. split; [exact Hk|].
    apply in_map_iff in Hin as (pattern & <- & Hp). eauto. }
  assert (Hnd : NoDup (List.filter keep candidates)).
  { clear Hall. induction Hcand as [|c cs Hc _ IH]; cbn [List.filter]; [constructor|].
    destruct (keep c); [|exact IH]. constructor; [|exact IH].
    intros Hin. apply Hc. apply list_elem_of_In, filter_In in Hin as [Hin _].
    now apply list_elem_of_In. }
  split; [|split; [exact Hnd | split; [exact Hall|]]].
  - transitivity (length candidates); [apply filter_length_le | reflexivity].
  - intros Hurls. apply NoDup_app. split; [exact Hurls|]. split; [|exact Hnd].
    intros x Hx Hx'. rewrite Forall_forall in Hall.
    destruct (Hall x Hx') as (_ & Hn & _). apply Hn. now apply list_elem_of_In.
Qed.

End StaticProbe.

Lemma Promise_all_In {A B} (f : A -> Result B) (l : list A) bs :
  Promise_all (map f l) = Ok bs -> forall b, In b bs -> exists a, In a l /\ f a = Ok b.
Proof.
  revert bs. induction l as [|a l IH]; cbn; intros bs H b Hb.
  - injection H as <-. destruct Hb.
  - destruct (f a) as [b0|] eqn:Ea; [cbn in H | discriminate].
    destruct (Promise_all (map f l)) as [bs0|]; [cbn in H | discriminate].
    injection H as <-. destruct Hb as [<-|Hb]; [eauto|].
    destruct (IH bs0 eq_refl b Hb) as (a' & Ha' & Hf). eauto.
Qed.

Lemma filter_Boolean_In (values : list (option string)) x :
  In x (Js.filter_Boolean values) -> In (Some x) values /\ Js.is_empty x = false.
Proof.
  unfold Js.filter_Boolean. intros H. apply list_elem_of_In, list_elem_of_omap in H.
  destruct H as (v & Hv & Hk). destruct (Js.truthy v) eqn:Ht; [|discriminate].
  subst v. split; [now apply list_elem_of_In|]. cbn in Ht. now apply negb_true_iff in Ht.
Qed.

Section BlogPosts.

Variable P : Platform.
Variable W : World.


End BlogPosts.

(** ** The backfill functions *)

Lemma merge_batch_map_lookup (g : string -> PageData) (m : PageMap) urls u :
  merge_batch m (map (fun url => Value (url, g url)) urls) !! u =
  if mem_string u urls then Some (g u) else m !! u.
Proof.
  revert m. induction urls as [|y urls IH]; intros m; [reflexivity|].
  unfold merge_batch. cbn [map fold_left]. fold (merge_batch (<[y := g y]> m)
    (map (fun url => Value (url, g url)) urls)).
  rewrite IH. unfold mem_string. cbn [existsb].
  destruct (existsb (String.eqb u) urls); [now rewrite orb_true_r|].
  rewrite orb_false_r. destruct (String.eqb_spec u y) as [->|Hne].
  - now rewrite lookup_insert_eq.
  - now rewrite lookup_insert_ne by congruence.
Qed.

Lemma without_record_mem (m : PageMap) urls u :
  mem_string u (without_record m urls) =
  mem_string u urls
  && match m !! u with
     | Some _ => false
     | None => negb (mem_string u inherited_names)
     end.
Proof.
  unfold without_record, mem_string. induction urls as [|y urls IH]; [reflexivity|].
  cbn [List.filter existsb].
  destruct (String.eqb_spec u y) as [->|Hne].
  - destruct (m !! y); cbn [orb andb].
    + rewrite IH. now rewrite andb_false_r.
    + destruct (negb _) eqn:E; cbn [existsb]; [now rewrite String.eqb_refl|].
      rewrite IH. now rewrite andb_false_r.
  - cbn [orb]. match goal with |- context [if ?c then _ else _] => destruct c end;
      [cbn [existsb]; destruct (String.eqb_spec u y); [contradiction|] |]; exact IH.
Qed.

Lemma own_writes_map (g : string -> PageData) urls :
  own_writes (map (fun url => Value (url, g url)) urls) =
  map (fun url => Value (url, g url))
      (List.filter (fun url => negb (String.eqb url "__proto__")) urls).
Proof.
  unfold own_writes. induction urls as [|u urls IH]; [reflexivity|].
  cbn [map List.filter]. rewrite IH. destruct (negb _); reflexivity.
Qed.

Lemma mem_string_filter u (f : string -> bool) urls :
  mem_string u (List.filter f urls) = mem_string u urls && f u.
Proof.
  unfold mem_string. induction urls as [|y urls IH]; [reflexivity|].
  cbn [List.filter existsb]. destruct (String.eqb_spec u y) as [->|Hne].
  - destruct (f y) eqn:Hf; cbn [existsb orb andb].
    + now rewrite String.eqb_refl.
    + rewrite IH. now rewrite andb_false_r.
  - cbn [orb]. destruct (f y); [cbn [existsb]; destruct (String.eqb_spec u y);
      [contradiction|]|]; exact IH.
Qed.

Section BackfillFacts.

Variable P : Platform.
Variable W : World.

Lemma backfill_lookup label urls (m : PageMap) u :
  merge_batch m (map (fun url => Value (url, with_type (extracted P W url) label))
                     (without_record m urls)) !! u
  = backfilled P W label urls m u.
Proof.
  rewrite (merge_batch_map_lookup (fun url => with_type (extracted P W url) label)).
  rewrite without_record_mem. unfold backfilled.
  destruct (m !! u) eqn:Hu; [now rewrite andb_false_r|].
  destruct (mem_string u urls && _); reflexivity.
Qed.

Lemma batch_of_extracted label urls (fallback : string -> JsError -> PageData) :
  processInBatches urls
    (fun url =>
       try_catch
         (data ← extractPageData P W url;
          Ok (url, with_type data label))
         (fun error => Ok (url, fallback url error)))
  = Ok (map (fun url => Value (url, with_type (extracted P W url) label)) urls).
Proof.
  rewrite processInBatches_map. f_equal. apply map_ext. intros url.
  rewrite extractPageData_extracted. reflexivity.
Qed.

Lemma ensureProductData_merge urls m :
  ensureProductData P W urls m =
  Ok (merge_batch m (map (fun url => Value (url, with_type (extracted P W url) "product"))
                         (without_record m urls))).
Proof.
  unfold ensureProductData. cbv zeta.
  destruct (without_record m urls) as [|u us] eqn:E; [reflexivity|].
  cbn [is_nil]. rewrite (batch_of_extracted "product"). reflexivity.
Qed.

Lemma ensureCategoryData_merge urls m :
  ensureCategoryData P W urls m =
  Ok (merge_batch m (map (fun url => Value (url, with_type (extracted P W url) "category"))
                         (without_record m urls))).
Proof.
  unfold ensureCategoryData. cbv zeta.
  destruct (without_record m urls) as [|u us] eqn:E; [reflexivity|].
  cbn [is_nil]. rewrite (batch_of_extracted "category"). reflexivity.
Qed.

Lemma ensureStaticPageData_merge urls m :
  ensureStaticPageData P W urls m =
  Ok (merge_batch m (map (fun url => Value (url, with_type (extracted P W url) "static"))
                         (without_record m urls))).
Proof.
  unfold ensureStaticPageData. cbv zeta.
  destruct (without_record m urls) as [|u us] eqn:E; [reflexivity|].
  cbn [is_nil]. rewrite (batch_of_extracted "static"). reflexivity.
Qed.

(** X19. [ensureProductData], [ensureCategoryData] and
    [ensureStaticPageData] never reject and leave every existing record as
    it is.  At a URL without a record the result has a record exactly when
    the URL is in the given list (and is not a name that every object
    inherits): the record of [extractPageData] for it, typed [product],
    [category] or [static].  Their [catch] branches are never entered. *)
Theorem backfill_keeps_existing_records urls (extractedData : PageMap) :
  (exists result,
      ensureProductData P W urls extractedData = Ok result
      /\ forall url, result !! url = backfilled P W "product" urls extractedData url)
  /\ (exists result,
         ensureCategoryData P W urls extractedData = Ok result
         /\ forall url, result !! url = backfilled P W "category" urls extractedData url)
  /\ (exists result,
         ensureStaticPageData P W urls extractedData = Ok result
         /\ forall url, result !! url = backfilled P W "static" urls extractedData url).
Proof.
  rewrite ensureProductData_merge, ensureCategoryData_merge, ensureStaticPageData_merge.
  repeat split; eexists; (split; [reflexivity|]); intros url; apply backfill_lookup.
Qed.

(** X20. [ensureBlogData] differs from its three siblings: when every blog
    URL already has a record it returns the map unchanged, but as soon as one
    is missing it extracts every blog URL again, so the records that existed
    at blog URLs are overwritten by fresh ones of type [blog]; the other
    URLs keep what they had. *)
Theorem ensureBlogData_reprocesses blogUrls (extractedData : PageMap) :
  exists result,
    ensureBlogData P W blogUrls extractedData = Ok result
    /\ if is_nil (without_record extractedData blogUrls) then result = extractedData
       else forall url,
           result !! url =
           if mem_string url blogUrls && negb (String.eqb url "__proto__")
           then Some (with_type (extracted P W url) "blog")
           else extractedData !! url.
Proof.
  unfold ensureBlogData. cbv zeta.
  destruct (without_record extractedData blogUrls) as [|u us] eqn:E; cbn [is_nil].
  - eauto.
  - rewrite (batch_of_extracted "blog"). cbn [mbind Result_bind].
    eexists. split; [reflexivity|]. intros url.
    rewrite (own_writes_map (fun url => with_type (extracted P W url) "blog")).
    rewrite (merge_batch_map_lookup (fun url => with_type (extracted P W url) "blog")).
    now rewrite mem_string_filter.
Qed.

End BackfillFacts.

(** ** The form, the batch loop and [GET] *)

Lemma fmap_times_minus_one (o : option Z) :
  (fun v => (-1 * v)%Z) <$> o = Z.opp <$> o.
Proof. destruct o as [[| |]|]; reflexivity. Qed.

Lemma parseInt_minus_digits (s : string) :
  Js.all_chars Js.is_digit s = true ->
  Js.parseInt (String "-" s) = Z.opp <$> Js.digits_value 10 None s.
Proof.
  intros Hs. destruct s as [|c s]; [reflexivity|].
  cbn in Hs. apply andb_true_iff in Hs as [Hc Hs].
  destruct c as [[] [] [] [] [] [] [] []]; try discriminate Hc;
    try (unfold Js.parseInt; rewrite trim_start_ascii by reflexivity;
         cbv beta iota zeta; apply fmap_times_minus_one).
  destruct s as [|c2 s]; [reflexivity|].
  cbn in Hs. apply andb_true_iff in Hs as [Hc2 Hs].
  destruct c2 as [[] [] [] [] [] [] [] []]; try discriminate Hc2;
    unfold Js.parseInt; rewrite trim_start_ascii by reflexivity;
    cbv beta iota zeta; apply fmap_times_minus_one.
Qed.

Lemma parseInt_pretty_Z (z : Z) : Js.parseInt (pretty z) = Some z.
Proof.
  destruct z as [|p|p].
  - reflexivity.
  - exact (parseInt_pretty (N.pos p)).
  - change (pretty (Z.neg p)) with (String "-" (pretty (N.pos p))).
    rewrite parseInt_minus_digits.
    + pose proof (parseInt_pretty (N.pos p)) as H.
      rewrite parseInt_digits in H; [rewrite H; reflexivity|].
      unfold pretty, pretty_N. cbn [decide]. apply all_digits_pretty_go. reflexivity.
    + unfold pretty, pretty_N. apply all_digits_pretty_go. reflexivity.
Qed.

(** X21. The form sends [maxUrls] as the number [parseInt(urlLimit)] (or
    ['all']), [JSON.stringify] turning [NaN] into [null]; the route applies
    [parseInt] to it again.  The selection is the same as if the text of the
    field had been sent: turning the limit into a number and back loses
    nothing (for a limit of at most 15 characters, whose value is an exact
    number). *)
Theorem client_maxUrls_round_trip (urlLimit : string) (urls : list string) :
  String.length urlLimit <= 15 ->
  Route.limitedUrls (Client.maxUrls_sent urlLimit) urls
  = Route.limitedUrls (JsString urlLimit) urls.
Proof.
  intros Hlen. unfold Client.maxUrls_sent.
  destruct (String.eqb_spec urlLimit "all") as [->|Hne]; [reflexivity|].
  rewrite (limitedUrls_not_all urlLimit urls Hne).
  destruct (Js.parseInt urlLimit) as [z|] eqn:Hz.
  - pose proof (parseInt_safe urlLimit z Hlen Hz) as Hsafe.
    rewrite (Number_value_safe z Hsafe), limitedUrls_number.
    now rewrite (Number_toString_safe z Hsafe), parseInt_pretty_Z.
  - reflexivity.
Qed.

(** X21, for the default limit of the form. *)
Lemma client_maxUrls_round_trip_witness :
  Route.limitedUrls (Client.maxUrls_sent "500") ["https://x/a"; "https://x/b"]
  = Route.limitedUrls (JsString "500") ["https://x/a"; "https://x/b"].
Proof. apply client_maxUrls_round_trip. cbn. lia. Defined.

Lemma for_batches_from {A S} (items : list A) (body : list A -> S -> Result S) fuel :
  forall i acc,
    length items - i <= fuel ->
    for_batches items body i acc =
    fold_left (fun r batch => acc ← r; body batch acc)
              (batches_of fuel (drop i items)) (Ok acc).
Proof.
  induction fuel as [|fuel IH]; intros i acc Hfuel; rewrite for_batches_step.
  - destruct (lt_dec i (length items)); [lia | reflexivity].
  - destruct (lt_dec i (length items)) as [Hlt|Hge].
    + cbn [batches_of]. destruct (drop i items) as [|x rest] eqn:Hdrop.
      { apply (f_equal length) in Hdrop. rewrite length_drop in Hdrop. cbn in Hdrop. lia. }
      rewrite <- Hdrop. cbn [fold_left mbind Result_bind].
      unfold slice. replace (i + maxConcurrent - i) with maxConcurrent by lia.
      destruct (body (take maxConcurrent (drop i items)) acc) as [acc'|e].
      * cbn [mbind Result_bind]. rewrite drop_drop. apply IH. unfold maxConcurrent. lia.
      * cbn [mbind Result_bind]. symmetry. apply fold_Throw. reflexivity.
    + rewrite drop_ge by lia. reflexivity.
Qed.

Lemma batches_of_concat {A} fuel (items : list A) :
  length items <= fuel -> concat (batches_of fuel items) = items.
Proof.
  revert items. induction fuel as [|fuel IH]; intros items Hfuel.
  - destruct items; [reflexivity | cbn in Hfuel; lia].
  - cbn [batches_of]. destruct items as [|x rest] eqn:E; [reflexivity|]. rewrite <- E.
    cbn [concat]. rewrite IH; [apply take_drop|].
    rewrite length_drop. subst items. cbn [length] in *. unfold maxConcurrent. lia.
Qed.

Lemma batches_of_sizes {A} fuel (items : list A) :
  Forall (fun batch => 1 <= length batch <= maxConcurrent) (batches_of fuel items).
Proof.
  revert items. induction fuel as [|fuel IH]; intros items; [constructor|].
  cbn [batches_of]. destruct items as [|x rest] eqn:E; [constructor|]. rewrite <- E.
  constructor; [|apply IH].
  rewrite length_take. subst items. cbn [length]. unfold maxConcurrent. lia.
Qed.

(** X22. The batch loop of [processInBatches] and of [fetchSitemapUrls]
    runs its body once per window, in order, threading the accumulator and
    stopping at the first rejection; the windows are consecutive, together
    they are the list of items, and each holds between 1 and
    [maxConcurrent] (10) items. *)
Theorem for_batches_windows {A S} (items : list A) (body : list A -> S -> Result S) acc :
  for_batches items body 0 acc =
  fold_left (fun r batch => acc ← r; body batch acc) (batches items) (Ok acc)
  /\ concat (batches items) = items
  /\ Forall (fun batch => 1 <= length batch <= maxConcurrent) (batches items).
Proof.
  split; [|split].
  - apply (for_batches_from items body (length items) 0 acc). lia.
  - apply batches_of_concat. lia.
  - apply batches_of_sizes.
Qed.

Section GetFacts.

Variable P : Platform.
Variable W : World.

(** X23. The answers of [GET].  The status 400 is given exactly when
    [sitemapUrl] is missing or empty, or is not a URL.  The body for a failed
    fetch and the status 500 are never produced: [fetchSitemapUrls] and
    [categorizeUrls] never reject.  The warning is given exactly when the
    discovery yields no URL.  Otherwise the answer is the five buckets of the
    discovered URLs, each of which [categorizeUrl] labels without raising. *)
Theorem GET_outcomes (sitemapUrl : option string) :
  match GetRoute.GET P W sitemapUrl with
  | GetRoute.BadRequest _ =>
      Js.truthy sitemapUrl = false
      \/ exists url, sitemapUrl = Some url /\ new_URL P url = None
  | GetRoute.NoUrls =>
      exists url,
        sitemapUrl = Some url /\ Js.is_empty url = false /\ is_Some (new_URL P url)
        /\ fetchSitemapUrls P W url 0 = Ok []
  | GetRoute.Categorized categorized =>
      exists url urls,
        sitemapUrl = Some url /\ Js.is_empty url = false /\ is_Some (new_URL P url)
        /\ fetchSitemapUrls P W url 0 = Ok urls
        /\ urls <> []
        /\ Forall (fun u => exists label, categorizeUrl P (JsString u) = Ok label) urls
        /\ categorized =
           {| Bucket.product := filed P "product" urls;
              Bucket.category := filed P "category" urls;
              Bucket.blog := filed P "blog" urls;
              Bucket.static := filed P "static" urls;
              Bucket.others := filed P "others" urls |}
  | GetRoute.FetchFailed _ _ => False
  | GetRoute.ServerError _ => False
  end.
Proof.
  unfold GetRoute.GET.
  destruct (Js.truthy sitemapUrl) eqn:Ht; cbn [negb]; [|now left].
  destruct sitemapUrl as [url|]; [|discriminate].
  change (default EmptyString (Some url)) with url.
  cbn in Ht. apply negb_true_iff in Ht.
  destruct (new_URL P url) as [parsed|] eqn:Hparsed; [|right; eauto].
  destruct (fetchSitemapUrls_resolves P W url 0) as [urls Hurls]. rewrite Hurls.
  destruct urls as [|u urls]; cbn [is_nil].
  { exists url. rewrite Hparsed. eauto. }
  unfold categorizeUrls. rewrite categorizeUrls_fold. cbn [empty_buckets Bucket.product
    Bucket.category Bucket.blog Bucket.static Bucket.others app].
  exists url, (u :: urls). rewrite Hparsed.
  split; [reflexivity|]. split; [exact Ht|]. split; [eauto|]. split; [exact Hurls|].
  split; [discriminate|]. split; [|reflexivity].
  pose proof (fetchSitemapUrls_valid P W _ _ _ Hurls) as Hvalid.
  eapply Forall_impl; [exact Hvalid|]. intros x Hx. unfold parses_as_URL in Hx.
  destruct (new_URL P x) as [ux|] eqn:Hux; [|discriminate].
  unfold categorizeUrl, construct_URL. rewrite Hux.
  destruct (Js.is_empty x); [eauto|]. cbn [mbind Result_bind]. cbv zeta.
  repeat match goal with
         | |- context [if ?b then _ else _] => destruct b
         end; eauto.
Qed.

End GetFacts.

(** ** Titles made from slugs *)

Lemma capitalized_char boundary c :
  let c' := capitalized boundary (dash_to_space c) in
  Ascii.eqb c' "-" = false
  /\ dash_to_space c' = c'
  /\ capitalized boundary c' = c'
  /\ Js.is_word_char c' = Js.is_word_char (dash_to_space c).
Proof.
  destruct boundary; destruct c as [[] [] [] [] [] [] [] []]; vm_compute; auto.
Qed.

Lemma dashes_to_spaces_cons c s :
  Js.dashes_to_spaces (String c s) = String (dash_to_space c) (Js.dashes_to_spaces s).
Proof. reflexivity. Qed.

Lemma capitalize_words_cons boundary c s :
  Js.capitalize_words boundary (String c s) =
  String (capitalized boundary c) (Js.capitalize_words (negb (Js.is_word_char c)) s).
Proof. reflexivity. Qed.

Lemma title_case_chars boundary s :
  let t := Js.capitalize_words boundary (Js.dashes_to_spaces s) in
  String.length t = String.length s
  /\ Js.all_chars (fun c => negb (Ascii.eqb c "-")) t = true
  /\ Js.dashes_to_spaces t = t
  /\ Js.capitalize_words boundary t = t.
Proof.
  cbv zeta. revert boundary. induction s as [|c s IH]; intros boundary; [cbn; auto|].
  rewrite dashes_to_spaces_cons, capitalize_words_cons.
  destruct (capitalized_char boundary c) as (H1 & H2 & H3 & H4). cbv zeta in H1, H2, H3, H4.
  destruct (IH (negb (Js.is_word_char (dash_to_space c)))) as (I1 & I2 & I3 & I4).
  rewrite dashes_to_spaces_cons, capitalize_words_cons, H2, H3, H4, I3, I4.
  cbn [String.length Js.all_chars]. rewrite I1, H1, I2. auto.
Qed.

Section StaticRecord.

Variable P : Platform.
Variable W : World.

(** X24. [createStaticPageData] rejects exactly when its URL does not
    parse.  Otherwise the record has the URL, the type [static], a title
    made from the last non-empty segment of the path and the description
    [Static page: ] followed by the title.  The title has the length of the
    segment, contains no hyphen, and is left as it is by the same
    conversion applied again. *)
Theorem createStaticPageData_title url :
  match new_URL P url with
  | None => createStaticPageData P W url = Throw invalid_url
  | Some parsed =>
      let lastSegment :=
        default EmptyString
          (last (List.filter (fun part => negb (Js.is_empty part))
                             (Js.split "/" (pathname parsed)))) in
      exists data title,
        createStaticPageData P W url = Ok data
        /\ Page.url data = url /\ type data = Some "static"
        /\ Page.title data = Some title
        /\ description data = Some ("Static page: " +:+ title)
        /\ String.length title = String.length lastSegment
        /\ Js.all_chars (fun c => negb (Ascii.eqb c "-")) title = true
        /\ Js.title_case title = title
  end.
Proof.
  unfold createStaticPageData, construct_URL.
  destruct (new_URL P url) as [parsed|]; [|reflexivity].
  cbn [mbind Result_bind]. cbv zeta.
  match goal with
  | |- context [Js.title_case ?segment] =>
      destruct (title_case_chars true segment) as (H1 & H2 & H3 & H4)
  end.
  eexists _, _. split; [reflexivity|]. cbn [Page.url type Page.title description].
  repeat split; try assumption.
  unfold Js.title_case at 1. unfold Js.title_case in H3 |- *. rewrite H3. exact H4.
Qed.

End StaticRecord.


(** ** The aggregator *)

Section AggregatorFacts.

Variable P : Platform.
Variable W : World.

(** X25. When [processSitemap] resolves, every URL that
    [fetchSitemapUrls] discovered has a record in the result, the statistics
    are those of [getPageStats] on the returned map, and the map has at
    least 9 records. *)
Theorem processSitemap_covers_discovered siteUrl pageData stats :
  processSitemap P W siteUrl = Ok (pageData, stats) ->
  (forall url, In url (urls_of (fetchSitemapUrls P W siteUrl 0)) ->
               is_Some (pageData !! url))
  /\ stats = getPageStats pageData
  /\ 9 <= size pageData.
Proof.
  unfold processSitemap. rewrite urls_of_fetch. cbn [mbind Result_bind]. cbv zeta.
  set (urls := urls_of (fetchSitemapUrls P W siteUrl 0)).
  destruct (processAllUrls P W _) as [m|] eqn:Hm; [cbn [mbind Result_bind] | discriminate].
  intros H. injection H as <- <-.
  set (covered := ensureMinimumPageTypes W siteUrl m).
  assert (Hkeep : forall url, In url urls -> is_Some (covered !! url)).
  { intros url Hin. apply ensureMinimumPageTypes_keeps.
    apply (processAllUrls_dom P W _ _ _ Hm).
    unfold addCommonStaticPages. apply in_or_app. now left. }
  pose proof (ensureMinimumPageTypes_nine W siteUrl m) as Hnine. fold covered in Hnine.
  destruct (negb _).
  - split; [|split; [reflexivity|]].
    + intros url Hin. apply lookup_insert_is_Some'. right. auto.
    + pose proof (size_insert_bounds covered
                    (Js.strip_trailing_slashes siteUrl +:+ "/blog/sample-post")) as Hb.
      match goal with |- _ <= size (<[_ := ?v]> _) => specialize (Hb v) end. lia.
  - auto.
Qed.

End AggregatorFacts.

(** X25, on a site with two pages. *)
Lemma processSitemap_covers_discovered_witness :
  exists pageData stats,
    processSitemap UrlModel.platform Examples.small_site "https://x/sitemap.xml"
    = Ok (pageData, stats)
    /\ is_Some (pageData !! "https://x/about") /\ 9 <= size pageData.
Proof.
  assert (Hok : match processSitemap UrlModel.platform Examples.small_site
                        "https://x/sitemap.xml" with
                | Ok _ => true
                | Throw _ => false
                end = true) by (vm_compute; reflexivity).
  destruct (processSitemap _ _ _) as [[pageData stats]|] eqn:Hrun; [|discriminate Hok].
  exists pageData, stats. split; [reflexivity|].
  destruct (processSitemap_covers_discovered _ _ _ _ _ Hrun) as (Hdom & _ & Hsize).
  split; [|exact Hsize]. apply Hdom. vm_compute. left. reflexivity.
Defined.

(** ** Category names *)

Lemma split_nonempty sep s : exists cur rest, Js.split sep s = cur :: rest.
Proof.
  induction s as [|c s (cur & rest & IH)]; cbn; [eauto|]. rewrite IH.
  destruct (Ascii.eqb c sep); eauto.
Qed.

Lemma join_capitalized (start : bool) s :
  match Js.split " " s with
  | [] => True
  | word :: words =>
      String.concat " " ((if start then capitalize_first word else word)
                         :: map capitalize_first words)
      = capitalize_after_space start s
  end.
Proof.
  revert start. induction s as [|c s IH]; intros start.
  - cbn. destruct start; reflexivity.
  - cbn [Js.split capitalize_after_space].
    destruct (split_nonempty " " s) as (cur & rest & Hs).
    pose proof (IH true) as IHt. pose proof (IH false) as IHf. rewrite Hs in *.
    destruct (Ascii.eqb_spec c " ") as [->|Hne].
    + cbn [map]. change (capitalize_first EmptyString) with EmptyString.
      replace (if start then EmptyString else EmptyString) with EmptyString
        by (destruct start; reflexivity).
      replace (if start then Js.upper_char " " else " "%char) with " "%char
        by (destruct start; reflexivity).
      cbn [String.concat]. rewrite <- IHt. reflexivity.
    + replace (if start then capitalize_first (String c cur) else String c cur)
        with (String (if start then Js.upper_char c else c) cur)
        by (destruct start; reflexivity).
      rewrite <- IHf. cbn [String.concat]. destruct (map capitalize_first rest); reflexivity.
Qed.

Lemma capitalize_after_space_chars start s :
  let spaced := Js.map_chars underscore_to_space (Js.dashes_to_spaces s) in
  let t := capitalize_after_space start spaced in
  String.length t = String.length s
  /\ Js.all_chars (fun c => negb (Ascii.eqb c "-") && negb (Ascii.eqb c "_")) t = true.
Proof.
  cbv zeta. revert start. induction s as [|c s IH]; intros start; [cbn; auto|].
  rewrite dashes_to_spaces_cons. cbn [Js.map_chars capitalize_after_space].
  destruct (IH (Ascii.eqb (underscore_to_space (dash_to_space c)) " ")) as [I1 I2].
  cbn [String.length Js.all_chars]. rewrite I1, I2, andb_true_r. split; [reflexivity|].
  destruct start; destruct c as [[] [] [] [] [] [] [] []]; reflexivity.
Qed.

Section CategoryName.

Variable P : Platform.

(** X26. [extractCategoryFromUrl] returns the empty string when the URL
    does not parse or its path has no segment.  Otherwise the name is the
    last segment with its hyphens and underscores turned into spaces and
    with the first character and every character after a space put in upper
    case: it has the length of the segment and contains neither hyphen nor
    underscore. *)
Theorem extractCategoryFromUrl_name url :
  match new_URL P url with
  | None => extractCategoryFromUrl P url = EmptyString
  | Some parsed =>
      match last (List.filter (fun part => negb (Js.is_empty part))
                              (Js.split "/" (pathname parsed))) with
      | None => extractCategoryFromUrl P url = EmptyString
      | Some lastPart =>
          let name := extractCategoryFromUrl P url in
          name = capitalize_after_space true
                   (Js.map_chars underscore_to_space (Js.dashes_to_spaces lastPart))
          /\ String.length name = String.length lastPart
          /\ Js.all_chars (fun c => negb (Ascii.eqb c "-") && negb (Ascii.eqb c "_")) name
             = true
      end
  end.
Proof.
  unfold extractCategoryFromUrl. destruct (new_URL P url) as [parsed|]; [|reflexivity].
  cbv zeta. destruct (last _) as [lastPart|]; [|reflexivity].
  set (spaced := Js.map_chars underscore_to_space (Js.dashes_to_spaces lastPart)).
  pose proof (join_capitalized true spaced) as Hjoin.
  destruct (split_nonempty " " spaced) as (word & words & Hsplit). rewrite Hsplit in *.
  cbn [map]. rewrite Hjoin.
  split; [reflexivity|]. apply capitalize_after_space_chars.
Qed.

End CategoryName.
